(** * Interactive overlay subsystem of the visual-search frontend

    A shallow embedding of the client-side code that maps coordinates
    between original-image space and display space, hit-tests and selects
    detected regions, extracts mask outlines, draws a drag box, and
    validates / resizes an image before upload.

    Sources embedded here:
    - the [ObjectDetectionView] component
      (src/components/ObjectDetectionView.tsx), module [ObjectDetectionView];
    - the [BoundingBoxSelector] component (second document of
      src/components/SearchResults.tsx), module [BoundingBoxSelector];
    - the image utilities [preprocessImage], [getImageDimensions],
      [validateImageFile], [validateImageDimensions] and the upload path
      [processImageFile] of [SearchInterface] (src/unnamed/part_002),
      module [ImageUtils];
    - the [BBox] and [SegmentedObject] interfaces (src/unnamed/part_003).

    JavaScript numbers are modelled by [JSNum.number]: rationals
    extended with [Infinity], [-Infinity] and [NaN].  The operations of
    [JSNum] are exact; [Binary64] rounds their results to IEEE doubles
    (round to nearest, ties to even, overflow to an infinity, gradual
    underflow), and module [Rounded] holds the coordinate mappings and
    [calculateReduction] with every [+ - * /] rounded that way: the
    properties that depend on rounding are stated over [Rounded].  The
    sign of zero is not modelled; every other rule of the arithmetic
    used by the code (division by zero, comparisons with [NaN],
    [Math.round], [Math.min], [Math.max]) is written out.

    What the browser decides (whether an image decodes, whether a canvas
    context exists, what an encoder returns) is a field of a [Browser]
    record that the functions take as an argument.  A handler is a
    function from the state before to the state after, paired with the
    calls it makes on the callback props. *)

From Stdlib Require Import ZArith QArith Qround Qpower Lqa Lia List String Bool.
From stdpp Require Import gmap.
Import ListNotations.
Open Scope Z_scope.

(* ===================================================================== *)
(** * JavaScript numbers                                                  *)
(* ===================================================================== *)

Module JSNum.

Inductive number : Type :=
| Finite (q : Q)
| PosInf
| NegInf
| NaN.

Definition of_Z (z : Z) : number := Finite (inject_Z z).

Definition zero : number := of_Z 0.

Definition isFinite (n : number) : bool :=
  match n with Finite _ => true | _ => false end.

(** Numeric equality of values (rationals are compared by [Qeq]). *)
Definition num_eq (a b : number) : Prop :=
  match a, b with
  | Finite x, Finite y => (x == y)%Q
  | PosInf, PosInf | NegInf, NegInf | NaN, NaN => True
  | _, _ => False
  end.

Definition neg (n : number) : number :=
  match n with
  | Finite q => Finite (- q)%Q
  | PosInf => NegInf
  | NegInf => PosInf
  | NaN => NaN
  end.

Definition add (a b : number) : number :=
  match a, b with
  | NaN, _ | _, NaN => NaN
  | Finite x, Finite y => Finite (x + y)%Q
  | PosInf, NegInf | NegInf, PosInf => NaN
  | PosInf, _ | _, PosInf => PosInf
  | NegInf, _ | _, NegInf => NegInf
  end.

Definition sub (a b : number) : number := add a (neg b).

(** [Infinity * q] ([positive]) or [-Infinity * q], for a finite [q]. *)
Definition scale_inf (positive : bool) (q : Q) : number :=
  match (q ?= 0)%Q with
  | Eq => NaN
  | Gt => if positive then PosInf else NegInf
  | Lt => if positive then NegInf else PosInf
  end.

Definition mul (a b : number) : number :=
  match a, b with
  | NaN, _ | _, NaN => NaN
  | Finite x, Finite y => Finite (x * y)%Q
  | PosInf, Finite y | Finite y, PosInf => scale_inf true y
  | NegInf, Finite y | Finite y, NegInf => scale_inf false y
  | PosInf, PosInf | NegInf, NegInf => PosInf
  | PosInf, NegInf | NegInf, PosInf => NegInf
  end.

(** Division: a finite value over zero is an infinity of its sign, and
    [0 / 0] is [NaN]; nothing is ever raised. *)
Definition div (a b : number) : number :=
  match a, b with
  | NaN, _ | _, NaN => NaN
  | Finite x, Finite y =>
      if Qeq_bool y 0 then
        match (x ?= 0)%Q with Eq => NaN | Gt => PosInf | Lt => NegInf end
      else Finite (x / y)%Q
  | Finite _, (PosInf | NegInf) => Finite 0%Q
  | (PosInf | NegInf), (PosInf | NegInf) => NaN
  | PosInf, Finite y => match (y ?= 0)%Q with Lt => NegInf | _ => PosInf end
  | NegInf, Finite y => match (y ?= 0)%Q with Lt => PosInf | _ => NegInf end
  end.

(** [a <= b]; every comparison with [NaN] is false. *)
Definition leb (a b : number) : bool :=
  match a, b with
  | NaN, _ | _, NaN => false
  | Finite x, Finite y => Qle_bool x y
  | NegInf, _ => true
  | _, PosInf => true
  | _, _ => false
  end.

(** [a < b]. *)
Definition ltb (a b : number) : bool :=
  match a, b with
  | NaN, _ | _, NaN => false
  | Finite x, Finite y => negb (Qle_bool y x)
  | NegInf, NegInf => false
  | NegInf, _ => true
  | PosInf, _ => false
  | Finite _, PosInf => true
  | Finite _, NegInf => false
  end.

Definition gtb (a b : number) : bool := ltb b a.
Definition geb (a b : number) : bool := leb b a.

(** [a === b] on numbers. *)
Definition strict_eq (a b : number) : bool :=
  match a, b with
  | Finite x, Finite y => Qeq_bool x y
  | PosInf, PosInf | NegInf, NegInf => true
  | _, _ => false
  end.

(** [Math.round]: the nearest integer, ties towards [+Infinity]. *)
Definition round (n : number) : number :=
  match n with
  | Finite q => of_Z (Qfloor (q + (1 # 2))%Q)
  | other => other
  end.

(** [Math.min] and [Math.max]: [NaN] when either argument is [NaN]. *)
Definition min (a b : number) : number :=
  match a, b with
  | NaN, _ | _, NaN => NaN
  | _, _ => if leb a b then a else b
  end.

Definition max (a b : number) : number :=
  match a, b with
  | NaN, _ | _, NaN => NaN
  | _, _ => if leb a b then b else a
  end.

(** [n] is the integer nearest to [q], a tie going upwards. *)
Definition nearestInteger (n : Z) (q : Q) : Prop :=
  (q - (1 # 2) < inject_Z n <= q + (1 # 2))%Q.

(** [a <= b] as a proposition. *)
Definition le (a b : number) : Prop := leb a b = true.

(** [m] is the smaller (the larger) of [a] and [b]. *)
Definition isMinOf (m a b : number) : Prop :=
  le m a /\ le m b /\ (m = a \/ m = b).

Definition isMaxOf (m a b : number) : Prop :=
  le a m /\ le b m /\ (m = a \/ m = b).

End JSNum.

Import JSNum.

(* ===================================================================== *)
(** * Rounding to binary64                                                *)
(* ===================================================================== *)

Module Binary64.

(** [2^e]. *)
Definition pow2 (e : Z) : Q := (2 ^ e)%Q.

(** The exponent of the leading bit of a positive rational: the [k]
    with [2^k <= q < 2^(k+1)]. *)
Definition ilog2 (q : Q) : Z :=
  let k := (Z.log2 (Qnum q) - Z.log2 (Zpos (Qden q)))%Z in
  if Qle_bool (pow2 k) q then k else (k - 1)%Z.

(** The integer nearest to [y], a tie going to the even one. *)
Definition nearestEven (y : Q) : Z :=
  let f := Qfloor y in
  match (y - inject_Z f ?= 1 # 2)%Q with
  | Lt => f
  | Gt => (f + 1)%Z
  | Eq => if Z.even f then f else (f + 1)%Z
  end.

(** The exponent of the last bit of the double that represents a
    positive [a]: 53 bits of precision, subnormal below [2^-1022]. *)
Definition quantum (a : Q) : Z := Z.max (ilog2 a - 52)%Z (-1074)%Z.

(** A positive rational rounded to the nearest multiple of its quantum. *)
Definition roundPositive (a : Q) : Q :=
  (inject_Z (nearestEven (a / pow2 (quantum a))) * pow2 (quantum a))%Q.

(** An exact result rounded to binary64 (round to nearest, ties to
    even); a magnitude of [2^1024] or more is an infinity. *)
Definition round64 (x : Q) : number :=
  match (x ?= 0)%Q with
  | Eq => Finite 0
  | Gt => let r := roundPositive x in
          if Qle_bool (pow2 1024) r then PosInf else Finite (Qred r)
  | Lt => let r := roundPositive (- x) in
          if Qle_bool (pow2 1024) r then NegInf else Finite (Qred (- r))
  end.

Definition rounded (n : number) : number :=
  match n with
  | Finite q => round64 q
  | other => other
  end.

(** The double that a decimal literal or a measured value [q] denotes. *)
Definition literal (q : Q) : number := round64 q.

(** [a + b], [a - b], [a * b] and [a / b] on doubles: the exact result
    of [JSNum], rounded. *)
Definition add (a b : number) : number := rounded (JSNum.add a b).
Definition sub (a b : number) : number := rounded (JSNum.sub a b).
Definition mul (a b : number) : number := rounded (JSNum.mul a b).
Definition div (a b : number) : number := rounded (JSNum.div a b).

(** A magnitude bound [B = 2^k] together with the rounding error
    [tol = 2^(k-53)] of results up to that magnitude. *)
Definition grade (k : Z) (B tol : Q) : Prop :=
  (pow2 k == B)%Q /\ (pow2 (k - 53) == tol)%Q /\ (-1021 <= k <= 1000)%Z.

End Binary64.

(** What a promise settles to. *)
Inductive Promise (A : Type) : Type :=
| Resolved (value : A)
| Rejected (reason : string).
Arguments Resolved {A} value.
Arguments Rejected {A} reason.

(** [getBoundingClientRect()] of an element. *)
Record DOMRect : Type := mkRect {
  rect_left : number;
  rect_top : number;
  rect_width : number;
  rect_height : number
}.

(** [React.MouseEvent]: the fields the handlers read. *)
Record MouseEvent : Type := mkMouse {
  clientX : number;
  clientY : number
}.

(** The two refs of a component: [None] is [ref.current === null],
    [Some r] a mounted element whose bounding rect is [r]. *)
Record Refs : Type := mkRefs {
  containerRef : option DOMRect;
  imageRef : option DOMRect
}.

(** [BBox] of lib/api.ts. *)
Record BBox : Type := mkBBox {
  x1 : number;
  y1 : number;
  x2 : number;
  y2 : number
}.

(** [SegmentedObject] of lib/api.ts. *)
Record SegmentedObject : Type := mkObject {
  category : string;
  bbox : BBox;
  score : number;
  object_id : Z;
  mask_base64 : string
}.

(* ===================================================================== *)
(** * The ObjectDetectionView component                                  *)
(* ===================================================================== *)

Module ObjectDetectionView.

(** The [imageInfo] state cell. *)
Record ImageInfo : Type := mkInfo {
  displayWidth : number;
  displayHeight : number;
  offsetX : number;
  offsetY : number
}.

Record Props : Type := mkProps {
  objects : list SegmentedObject;
  imageWidth : number;
  imageHeight : number
}.

(** Component state: one field per [useState] cell. *)
Record State : Type := mkState {
  hoveredObjectId : option Z;
  clickedObjectId : option Z;
  maskImages : gmap Z string;
  maskOutlines : gmap Z string;
  imageInfo : ImageInfo
}.

(** Calls of the [onObjectClick] prop made by a handler, in order. *)
Inductive Event : Type :=
| OnObjectClick (object : SegmentedObject).

Definition initialState : State :=
  {| hoveredObjectId := None;
     clickedObjectId := None;
     maskImages := ∅;
     maskOutlines := ∅;
     imageInfo := mkInfo zero zero zero zero |}.

Definition setHoveredObjectId (v : option Z) (s : State) : State :=
  {| hoveredObjectId := v;
     clickedObjectId := clickedObjectId s;
     maskImages := maskImages s;
     maskOutlines := maskOutlines s;
     imageInfo := imageInfo s |}.

Definition setClickedObjectId (v : option Z) (s : State) : State :=
  {| hoveredObjectId := hoveredObjectId s;
     clickedObjectId := v;
     maskImages := maskImages s;
     maskOutlines := maskOutlines s;
     imageInfo := imageInfo s |}.

Definition setMaskImages (v : gmap Z string) (s : State) : State :=
  {| hoveredObjectId := hoveredObjectId s;
     clickedObjectId := clickedObjectId s;
     maskImages := v;
     maskOutlines := maskOutlines s;
     imageInfo := imageInfo s |}.

Definition setMaskOutlines (v : gmap Z string) (s : State) : State :=
  {| hoveredObjectId := hoveredObjectId s;
     clickedObjectId := clickedObjectId s;
     maskImages := maskImages s;
     maskOutlines := v;
     imageInfo := imageInfo s |}.

Definition setImageInfo (v : ImageInfo) (s : State) : State :=
  {| hoveredObjectId := hoveredObjectId s;
     clickedObjectId := clickedObjectId s;
     maskImages := maskImages s;
     maskOutlines := maskOutlines s;
     imageInfo := v |}.

(** ** Mask outline extraction ([createOutline]) *)

(** A decoded mask as [getImageData] returns it: [data] holds the RGBA
    bytes row by row, four per pixel. *)
Record ImageData : Type := mkImageData {
  img_width : Z;
  img_height : Z;
  data : list Z
}.

(** The outline canvas: transparent except for the 1x1 rectangles filled
    so far, all in [fillStyle]. *)
Record OutlineCanvas : Type := mkCanvas {
  canvas_width : Z;
  canvas_height : Z;
  fillStyle : string;
  filled : list (Z * Z)
}.

(** What the browser contributes to [createOutline]. *)
Record Browser : Type := mkBrowser {
  (** [img.src = url]: [Some] is [onload] with the pixels that
      [drawImage] + [getImageData] yield, [None] is [onerror] *)
  loadImage : string -> option ImageData;
  (** [canvas.getContext('2d', ...)] is not null *)
  maskContext : bool;
  (** [outlineCanvas.getContext('2d')] is not null *)
  outlineContext : bool;
  (** [outlineCanvas.toDataURL('image/png')] *)
  toDataURL : OutlineCanvas -> string
}.

(** [0, 1, ..., n-1], the values a [for (let i = 0; i < n; i++)] visits. *)
Definition range (n : Z) : list Z := map Z.of_nat (seq 0 (Z.to_nat n)).

(** [data[i]]: [None] is [undefined] (an index outside the array). *)
Definition at_index (d : list Z) (i : Z) : option Z :=
  if i <? 0 then None else nth_error d (Z.to_nat i).

(** [v > 128] and [v <= 128]; both are false on [undefined]. *)
Definition gt128 (v : option Z) : bool :=
  match v with Some a => 128 <? a | None => false end.

Definition le128 (v : option Z) : bool :=
  match v with Some a => a <=? 128 | None => false end.

(** [data[(y * width + x) * 4 + 3]]. *)
Definition alphaAt (width : Z) (d : list Z) (x y : Z) : option Z :=
  at_index d ((y * width + x) * 4 + 3).

Definition checks (x y : Z) : list (Z * Z) :=
  [(x - 1, y); (x + 1, y); (x, y - 1); (x, y + 1)].

(** One turn of the inner [for (const [nx, ny] of checks)] loop: does
    this neighbour set [isEdge]? *)
Definition neighbourIsEdge (width height : Z) (d : list Z) (n : Z * Z) : bool :=
  let '(nx, ny) := n in
  if (nx <? 0) || (nx >=? width) || (ny <? 0) || (ny >=? height) then true
  else le128 (alphaAt width d nx ny).

(** [isEdge] after the loop over [checks] (which stops at the first hit). *)
Definition isEdge (width height : Z) (d : list Z) (x y : Z) : bool :=
  existsb (neighbourIsEdge width height d) (checks x y).

(** The body of the inner loop at pixel [(x, y)]: the [fillRect(x, y, 1, 1)]
    call it makes, if any. *)
Definition paintCell (width height : Z) (d : list Z) (y x : Z) : list (Z * Z) :=
  if gt128 (alphaAt width d x y) then
    if isEdge width height d x y then [(x, y)] else []
  else [].

(** The inner loop [for (let x = 0; x < canvas.width; x++)] of row [y]. *)
Definition rowPixels (width height : Z) (d : list Z) (y : Z) : list (Z * Z) :=
  flat_map (paintCell width height d y) (range width).

(** The [fillRect] calls of the two nested loops, in order. *)
Definition outlinePixels (width height : Z) (d : list Z) : list (Z * Z) :=
  flat_map (rowPixels width height d) (range height).

(** A neighbour position lies outside the raster. *)
Definition outOfBounds (width height nx ny : Z) : Prop :=
  nx < 0 \/ width <= nx \/ ny < 0 \/ height <= ny.

(** Every pixel of the raster has alpha above the threshold. *)
Definition opaque (width height : Z) (d : list Z) : bool :=
  forallb (fun y => forallb (fun x => gt128 (alphaAt width d x y)) (range width))
          (range height).

Definition drawOutline (img : ImageData) : OutlineCanvas :=
  {| canvas_width := img_width img;
     canvas_height := img_height img;
     fillStyle := "#00FFFF";
     filled := outlinePixels (img_width img) (img_height img) (data img) |}.

(** [createOutline(maskUrl)]: the promise has a [resolve] only. *)
Definition createOutline (br : Browser) (maskUrl : string) : Promise string :=
  match loadImage br maskUrl with
  | None => Resolved maskUrl
  | Some img =>
      if negb (maskContext br) then Resolved maskUrl
      else if negb (outlineContext br) then Resolved maskUrl
      else Resolved (toDataURL br (drawOutline img))
  end.

(** [`data:image/png;base64,${obj.mask_base64}`]. *)
Definition maskUrlOf (obj : SegmentedObject) : string :=
  ("data:image/png;base64," ++ mask_base64 obj)%string.

(** A string is truthy when it is not empty. *)
Definition truthy (s : string) : bool :=
  match s with EmptyString => false | _ => true end.

(** The synchronous part of the mask effect: the map handed to
    [setMaskImages]. *)
Definition newMaskImages (objs : list SegmentedObject) : gmap Z string :=
  fold_left (fun m obj =>
               if truthy (mask_base64 obj)
               then <[object_id obj := maskUrlOf obj]> m
               else m)
            objs ∅.

(** The continuation after [await createOutline(maskUrl)] for one object:
    [acc] is the effect's own [newMaskOutlines] map, shared by all the
    continuations of one run; the state receives a copy of it.  A rejected
    promise throws inside the async callback and changes nothing. *)
Definition outlineSettled (acc : gmap Z string) (s : State)
    (obj : SegmentedObject) (p : Promise string) : gmap Z string * State :=
  match p with
  | Resolved outlineUrl =>
      let acc' := <[object_id obj := outlineUrl]> acc in
      (acc', setMaskOutlines acc' s)
  | Rejected _ => (acc, s)
  end.

(** [backgroundImage] of the outline layer drawn for a clicked object
    whose mask url is [maskUrl]. *)
Definition outlineLayerImage (s : State) (obj : SegmentedObject)
    (maskUrl : string) : string :=
  match maskOutlines s !! object_id obj with
  | Some u => if truthy u then u else maskUrl
  | None => maskUrl
  end.

(** ** Geometry *)

(** [updateImageInfo]: the value stored in [imageInfo]. *)
Definition updateImageInfo (imgRect containerRect : DOMRect) : ImageInfo :=
  {| displayWidth := rect_width imgRect;
     displayHeight := rect_height imgRect;
     offsetX := sub (rect_left imgRect) (rect_left containerRect);
     offsetY := sub (rect_top imgRect) (rect_top containerRect) |}.

Record DisplayBbox : Type := mkDisplay {
  d_x1 : number;
  d_y1 : number;
  d_x2 : number;
  d_y2 : number;
  d_width : number;
  d_height : number
}.

(** [getDisplayBbox]: original coordinates to display coordinates. *)
Definition getDisplayBbox (p : Props) (r : Refs) (s : State) (b : BBox)
    : option DisplayBbox :=
  let info := imageInfo s in
  match imageRef r, containerRef r with
  | Some _, Some _ =>
      if strict_eq (displayWidth info) zero
         || strict_eq (displayHeight info) zero
         || strict_eq (imageWidth p) zero
         || strict_eq (imageHeight p) zero
      then None
      else
        let scaleX := div (displayWidth info) (imageWidth p) in
        let scaleY := div (displayHeight info) (imageHeight p) in
        Some {| d_x1 := add (offsetX info) (mul (x1 b) scaleX);
                d_y1 := add (offsetY info) (mul (y1 b) scaleY);
                d_x2 := add (offsetX info) (mul (x2 b) scaleX);
                d_y2 := add (offsetY info) (mul (y2 b) scaleY);
                d_width := mul (sub (x2 b) (x1 b)) scaleX;
                d_height := mul (sub (y2 b) (y1 b)) scaleY |}
  | _, _ => None
  end.

(** ** Effects that depend on [objects] *)

(** The effects with [objects] among their dependencies, run after a
    render with a new [objects] array: the mask effect stores the raw mask
    urls (its outlines arrive later, see [outlineSettled]), the geometry
    effect calls [updateImageInfo] when both refs are mounted, and the
    last one is "Reset clicked state when objects change".  None of them
    calls [onObjectClick]. *)
Definition objectsChanged (p : Props) (r : Refs) (s : State)
    : State * list Event :=
  let s1 := setMaskImages (newMaskImages (objects p)) s in
  let s2 := match imageRef r, containerRef r with
            | Some imgRect, Some containerRect =>
                setImageInfo (updateImageInfo imgRect containerRect) s1
            | _, _ => s1
            end in
  (setClickedObjectId None s2, []).

(** ** Pointer handlers *)

(** The test of one region inside the hover loop. *)
Definition containsPointer (info : ImageInfo) (d : DisplayBbox)
    (mouseX mouseY : number) : bool :=
  let bboxImageX1 := sub (d_x1 d) (offsetX info) in
  let bboxImageY1 := sub (d_y1 d) (offsetY info) in
  let bboxImageX2 := sub (d_x2 d) (offsetX info) in
  let bboxImageY2 := sub (d_y2 d) (offsetY info) in
  geb mouseX bboxImageX1 && leb mouseX bboxImageX2
  && geb mouseY bboxImageY1 && leb mouseY bboxImageY2.

(** Does the loop body stop at [obj]?  [false] also when the region has
    no display rect ([continue]). *)
Definition hit (p : Props) (r : Refs) (s : State) (mouseX mouseY : number)
    (obj : SegmentedObject) : bool :=
  match getDisplayBbox p r s (bbox obj) with
  | None => false
  | Some d => containsPointer (imageInfo s) d mouseX mouseY
  end.

(** The loop [for (let i = objects.length - 1; i >= 0; i--)], run over
    the regions in the order it visits them. *)
Fixpoint firstHit (p : Props) (r : Refs) (s : State) (mouseX mouseY : number)
    (visited : list SegmentedObject) : option Z :=
  match visited with
  | [] => None
  | obj :: rest =>
      if hit p r s mouseX mouseY obj then Some (object_id obj)
      else firstHit p r s mouseX mouseY rest
  end.

(** The local [hoveredId] after the loop. *)
Definition hitTest (p : Props) (r : Refs) (s : State) (mouseX mouseY : number)
    : option Z :=
  firstHit p r s mouseX mouseY (rev (objects p)).

(** "Calculate mouse position relative to image (not container)". *)
Definition mousePosition (imgRect : DOMRect) (e : MouseEvent) : number * number :=
  (sub (clientX e) (rect_left imgRect), sub (clientY e) (rect_top imgRect)).

(** The test "mouse is within image bounds", negated as the code has it. *)
Definition outsideImage (imgRect : DOMRect) (mouseX mouseY : number) : bool :=
  ltb mouseX zero || ltb mouseY zero
  || gtb mouseX (rect_width imgRect)
  || gtb mouseY (rect_height imgRect).

Definition handleMouseMove (p : Props) (r : Refs) (s : State) (e : MouseEvent)
    : State :=
  match imageRef r, containerRef r with
  | Some imgRect, Some _ =>
      if (Z.of_nat (length (objects p)) =? 0) then s
      else
        let '(mouseX, mouseY) := mousePosition imgRect e in
        if outsideImage imgRect mouseX mouseY
        then setHoveredObjectId None s
        else setHoveredObjectId (hitTest p r s mouseX mouseY) s
  | _, _ => s
  end.

Definition handleMouseLeave (s : State) : State := setHoveredObjectId None s.

(** [onMouseEnter] of a region's hit area. *)
Definition handleMouseEnter (obj : SegmentedObject) (s : State) : State :=
  setHoveredObjectId (Some (object_id obj)) s.

Definition optZ_eqb (a : option Z) (b : Z) : bool :=
  match a with Some v => v =? b | None => false end.

Definition handleObjectClick (s : State) (object : SegmentedObject)
    : State * list Event :=
  if optZ_eqb (clickedObjectId s) (object_id object) then
    (setClickedObjectId None s, [])
  else
    (setClickedObjectId (Some (object_id object)) s, [OnObjectClick object]).

(** ** Rendering of one region *)

(** What [objects.map] renders for one region: the positioned box, and
    which of its children are present. *)
Record RegionOverlay : Type := mkOverlay {
  overlay_box : DisplayBbox;
  (** the invisible hit area has [pointerEvents: "auto"] (else "none") *)
  hitAreaActive : bool;
  (** the clickable area shown on hover or click *)
  clickableArea : bool;
  (** the bounding box outline *)
  hoverOutline : bool;
  (** the segmentation highlight: the raw mask url of the overlay and
      glow layers, and the [backgroundImage] of the outline layer *)
  segmentationHighlight : option (string * string);
  (** the category label; [Some true] is the highlighted style *)
  categoryLabel : option bool
}.

Definition renderObject (p : Props) (r : Refs) (s : State) (obj : SegmentedObject)
    : option RegionOverlay :=
  match getDisplayBbox p r s (bbox obj) with
  | None => None
  | Some displayBbox =>
      let isHovered := optZ_eqb (hoveredObjectId s) (object_id obj) in
      let isClicked := optZ_eqb (clickedObjectId s) (object_id obj) in
      let shouldShow := isHovered || isClicked in
      let maskUrl := maskImages s !! object_id obj in
      Some {| overlay_box := displayBbox;
              hitAreaActive := negb shouldShow;
              clickableArea := shouldShow;
              hoverOutline := shouldShow && (isHovered && negb isClicked);
              segmentationHighlight :=
                if shouldShow && isClicked then
                  match maskUrl with
                  | Some url =>
                      if truthy url then Some (url, outlineLayerImage s obj url)
                      else None
                  | None => None
                  end
                else None;
              categoryLabel :=
                if shouldShow && negb isClicked then Some isHovered else None |}
  end.

(** ** The outline continuations of one run of the mask effect *)

(** One object's async callback running to its end: nothing happens for
    an object without a mask, otherwise its outline is awaited and
    stored. *)
Definition settleOne (br : Browser) (st : gmap Z string * State)
    (obj : SegmentedObject) : gmap Z string * State :=
  if truthy (mask_base64 obj)
  then outlineSettled (fst st) (snd st) obj (createOutline br (maskUrlOf obj))
  else st.

(** One run of the mask effect: the [objects] array it closed over and
    its own [newMaskOutlines] map.  The continuations of the run share
    that map, and nothing else reads or writes it. *)
Record EffectRun : Type := mkRun {
  run_objects : list SegmentedObject;
  newMaskOutlines : gmap Z string
}.

(** The component together with the runs of its mask effect so far,
    oldest first.  The effect returns no cleanup, so a run is never
    cancelled: its callbacks go on after a later run has started. *)
Record Mounted : Type := mkMounted {
  view : State;
  runs : list EffectRun
}.

(** What happens to the mask maps over time: a render with a new
    [objects] array, after which the effects on [objects] run; and the
    promise awaited by the callback of [objects[index]] of run [run]
    settling, in whatever order the browser decodes the masks. *)
Inductive MaskStep : Type :=
| ObjectsReplaced (p : Props) (r : Refs)
| OutlineSettled (run index : nat).

Definition maskStep (br : Browser) (m : Mounted) (a : MaskStep) : Mounted :=
  match a with
  | ObjectsReplaced p r =>
      {| view := fst (objectsChanged p r (view m));
         runs := runs m ++ [{| run_objects := objects p; newMaskOutlines := ∅ |}] |}
  | OutlineSettled i k =>
      match runs m !! i with
      | Some run =>
          match run_objects run !! k with
          | Some obj =>
              let st := settleOne br (newMaskOutlines run, view m) obj in
              {| view := snd st;
                 runs := <[i := {| run_objects := run_objects run;
                                   newMaskOutlines := fst st |}]> (runs m) |}
          | None => m
          end
      | None => m
      end
  end.

Definition maskRun (br : Browser) (m : Mounted) (trace : list MaskStep) : Mounted :=
  fold_left (maskStep br) trace m.

(** The component before its first render, in state [s]. *)
Definition unmounted (s : State) : Mounted := {| view := s; runs := [] |}.

(** One turn of a loop that stores [value o] under [object_id o] when
    [keep o] holds. *)
Definition storeObject (keep : SegmentedObject -> bool)
    (value : SegmentedObject -> string) (m : gmap Z string) (o : SegmentedObject)
    : gmap Z string :=
  if keep o then <[object_id o := value o]> m else m.

(** The url that [createOutline] resolves with for an object's mask. *)
Definition outlineUrlOf (br : Browser) (o : SegmentedObject) : string :=
  match createOutline br (maskUrlOf o) with
  | Resolved url => url
  | Rejected _ => maskUrlOf o
  end.

(** Every entry of a run's own map is the outline of a masked object of
    that run's list. *)
Definition ownEntries (br : Browser) (run : EffectRun) : Prop :=
  forall key url, newMaskOutlines run !! key = Some url ->
    exists o, In o (run_objects run) /\ truthy (mask_base64 o) = true
              /\ object_id o = key /\ url = outlineUrlOf br o.

Definition allOwnEntries (br : Browser) (m : Mounted) : Prop :=
  forall i run, runs m !! i = Some run -> ownEntries br run.

End ObjectDetectionView.

(* ===================================================================== *)
(** * The BoundingBoxSelector component                                  *)
(* ===================================================================== *)

Module BoundingBoxSelector.

(** The component's own [BoundingBox] interface. *)
Record BoundingBox : Type := mkBox {
  x1 : number;
  y1 : number;
  x2 : number;
  y2 : number
}.

(** A pointer position in display space and in original space. *)
Record Pos : Type := mkPos {
  x : number;
  y : number;
  originalX : number;
  originalY : number
}.

Record Size : Type := mkSize {
  width : number;
  height : number
}.

(** [onBboxChange] is optional: [true] when the parent passed one. *)
Record Props : Type := mkProps {
  onBboxChange : bool;
  enabled : bool
}.

Record State : Type := mkState {
  isDrawing : bool;
  bbox : option BoundingBox;
  startPos : option Pos;
  currentPos : option Pos;
  originalImageSize : Size
}.

(** Calls of [onBboxChange], in order. *)
Inductive Event : Type :=
| OnBboxChange (b : option BoundingBox).

(** What a handler stored in the [bbox] cell.  The effect below depends
    on the cell by reference: an object literal is always a new
    reference, [null] is a change only when an object was stored. *)
Inductive BboxWrite : Type :=
| NotWritten
| WroteNull
| WroteObject (b : BoundingBox).

(** A handler's result: the next state, its write to [bbox], and the
    [onBboxChange] calls it made itself. *)
Record Handled : Type := mkHandled {
  state_after : State;
  bbox_write : BboxWrite;
  direct : list Event
}.

Definition unhandled (s : State) : Handled :=
  {| state_after := s; bbox_write := NotWritten; direct := [] |}.

Definition getRelativeCoordinates (r : Refs) (s : State) (e : MouseEvent)
    : option Pos :=
  match containerRef r, imageRef r with
  | Some rect, Some imgRect =>
      if strict_eq (width (originalImageSize s)) zero then None
      else
        let x := sub (clientX e) (rect_left rect) in
        let y := sub (clientY e) (rect_top rect) in
        let imgX := sub (rect_left imgRect) (rect_left rect) in
        let imgY := sub (rect_top imgRect) (rect_top rect) in
        let displayWidth := rect_width imgRect in
        let displayHeight := rect_height imgRect in
        if ltb x imgX || gtb x (add imgX displayWidth)
           || ltb y imgY || gtb y (add imgY displayHeight)
        then None
        else
          let displayX := sub x imgX in
          let displayY := sub y imgY in
          let scaleX := div (width (originalImageSize s)) displayWidth in
          let scaleY := div (height (originalImageSize s)) displayHeight in
          let originalX := round (mul displayX scaleX) in
          let originalY := round (mul displayY scaleY) in
          Some {| x := displayX; y := displayY;
                  originalX := originalX; originalY := originalY |}
  | _, _ => None
  end.

Definition handleMouseDown (p : Props) (r : Refs) (s : State) (e : MouseEvent)
    : Handled :=
  if negb (enabled p) then unhandled s
  else
    match getRelativeCoordinates r s e with
    | None => unhandled s
    | Some pos =>
        {| state_after :=
             {| isDrawing := true;
                bbox := None;
                startPos := Some pos;
                currentPos := Some pos;
                originalImageSize := originalImageSize s |};
           bbox_write := WroteNull;
           direct := [] |}
    end.

(** The box computed by a pointer move from the start and the current
    position. *)
Definition dragBox (start pos : Pos) : BoundingBox :=
  {| x1 := min (originalX start) (originalX pos);
     y1 := min (originalY start) (originalY pos);
     x2 := max (originalX start) (originalX pos);
     y2 := max (originalY start) (originalY pos) |}.

Definition handleMouseMove (p : Props) (r : Refs) (s : State) (e : MouseEvent)
    : Handled :=
  if negb (isDrawing s) || negb (enabled p) then unhandled s
  else
    match getRelativeCoordinates r s e, startPos s with
    | Some pos, Some start =>
        let b := dragBox start pos in
        {| state_after :=
             {| isDrawing := isDrawing s;
                bbox := Some b;
                startPos := startPos s;
                currentPos := Some pos;
                originalImageSize := originalImageSize s |};
           bbox_write := WroteObject b;
           direct := [] |}
    | _, _ => unhandled s
    end.

Definition handleMouseUp (p : Props) (s : State) : Handled :=
  if negb (isDrawing s) then unhandled s
  else
    {| state_after :=
         {| isDrawing := false;
            bbox := bbox s;
            startPos := startPos s;
            currentPos := currentPos s;
            originalImageSize := originalImageSize s |};
       bbox_write := NotWritten;
       direct := match bbox s with
                 | Some b => if onBboxChange p then [OnBboxChange (Some b)] else []
                 | None => []
                 end |}.

Definition handleClear (p : Props) (s : State) : Handled :=
  {| state_after :=
       {| isDrawing := false;
          bbox := None;
          startPos := None;
          currentPos := None;
          originalImageSize := originalImageSize s |};
     bbox_write := WroteNull;
     direct := if onBboxChange p then [OnBboxChange None] else [] |}.

(** Boxes with numerically equal coordinates. *)
Definition box_eq (a b : BoundingBox) : Prop :=
  num_eq (x1 a) (x1 b) /\ num_eq (y1 a) (y1 b)
  /\ num_eq (x2 a) (x2 b) /\ num_eq (y2 a) (y2 b).

(** Did the [bbox] dependency of the effect change by reference? *)
Definition bboxCellChanged (old : option BoundingBox) (w : BboxWrite) : bool :=
  match w with
  | NotWritten => false
  | WroteNull => match old with Some _ => true | None => false end
  | WroteObject _ => true
  end.

(** The effect [if (onBboxChange) onBboxChange(bbox)] with dependencies
    [bbox, onBboxChange], as it runs after the render that follows a
    handler (the callback prop itself is taken to be stable). *)
Definition bboxEffect (p : Props) (old : State) (h : Handled) : list Event :=
  if bboxCellChanged (bbox old) (bbox_write h) && onBboxChange p
  then [OnBboxChange (bbox (state_after h))]
  else [].

(** A handler followed by the render and the effects it causes: the next
    state and every [onBboxChange] call, in order. *)
Definition dispatch (p : Props) (s : State) (h : Handled) : State * list Event :=
  (state_after h, (direct h ++ bboxEffect p s h)%list).

Definition pointerDown (p : Props) (r : Refs) (s : State) (e : MouseEvent) :=
  dispatch p s (handleMouseDown p r s e).

Definition pointerMove (p : Props) (r : Refs) (s : State) (e : MouseEvent) :=
  dispatch p s (handleMouseMove p r s e).

Definition pointerUp (p : Props) (s : State) :=
  dispatch p s (handleMouseUp p s).

(** ** The preview rectangle and the life of the component *)

(** The selector's own [getDisplayBbox]: the rectangle drawn as visual
    feedback, from the stored box or else from the two positions. *)
Definition getDisplayBbox (r : Refs) (s : State) : option BoundingBox :=
  match imageRef r, containerRef r with
  | Some imgRect, Some containerRect =>
      if strict_eq (width (originalImageSize s)) zero then None
      else
        let displayWidth := rect_width imgRect in
        let displayHeight := rect_height imgRect in
        let scaleX := div displayWidth (width (originalImageSize s)) in
        let scaleY := div displayHeight (height (originalImageSize s)) in
        let imgX := sub (rect_left imgRect) (rect_left containerRect) in
        let imgY := sub (rect_top imgRect) (rect_top containerRect) in
        match bbox s with
        | Some b =>
            Some {| x1 := add imgX (mul (x1 b) scaleX);
                    y1 := add imgY (mul (y1 b) scaleY);
                    x2 := add imgX (mul (x2 b) scaleX);
                    y2 := add imgY (mul (y2 b) scaleY) |}
        | None =>
            match startPos s, currentPos s with
            | Some start, Some current =>
                Some {| x1 := min (x start) (x current);
                        y1 := min (y start) (y current);
                        x2 := max (x start) (x current);
                        y2 := max (y start) (y current) |}
            | _, _ => None
            end
        end
  | _, _ => None
  end.

Definition initialState : State :=
  {| isDrawing := false;
     bbox := None;
     startPos := None;
     currentPos := None;
     originalImageSize := {| width := zero; height := zero |} |}.

(** What can happen to a mounted selector: the four pointer events of
    its container (each with the geometry of that moment), a click on
    the clear button, and the load of the probe image that measures the
    original size. *)
Inductive Action : Type :=
| MouseDown (r : Refs) (e : MouseEvent)
| MouseMove (r : Refs) (e : MouseEvent)
| MouseUp
| MouseLeave
| ClickClear
| ImageLoaded (size : Size).

Definition step (p : Props) (s : State) (a : Action) : State * list Event :=
  match a with
  | MouseDown r e => dispatch p s (handleMouseDown p r s e)
  | MouseMove r e => dispatch p s (handleMouseMove p r s e)
  | MouseUp | MouseLeave => dispatch p s (handleMouseUp p s)
  | ClickClear => dispatch p s (handleClear p s)
  | ImageLoaded size =>
      ({| isDrawing := isDrawing s;
          bbox := bbox s;
          startPos := startPos s;
          currentPos := currentPos s;
          originalImageSize := size |}, [])
  end.

(** A sequence of actions: the final state and all [onBboxChange] calls. *)
Fixpoint run (p : Props) (s : State) (actions : list Action)
    : State * list Event :=
  match actions with
  | [] => (s, [])
  | a :: rest =>
      let '(s1, out1) := step p s a in
      let '(s2, out2) := run p s1 rest in
      (s2, (out1 ++ out2)%list)
  end.

(** A box with integer coordinates, [x1 <= x2] and [y1 <= y2]. *)
Definition normalised (b : BoundingBox) : Prop :=
  exists X1 Y1 X2 Y2 : Z,
    b = mkBox (of_Z X1) (of_Z Y1) (of_Z X2) (of_Z Y2) /\ X1 <= X2 /\ Y1 <= Y2.

(** A position whose original coordinates are integers. *)
Definition integerPos (pos : Pos) : Prop :=
  exists X Y : Z, originalX pos = of_Z X /\ originalY pos = of_Z Y.

(** All four rect coordinates are finite. *)
Definition finiteRect (rect : DOMRect) : bool :=
  isFinite (rect_left rect) && isFinite (rect_top rect)
  && isFinite (rect_width rect) && isFinite (rect_height rect).

(** Both elements are mounted, their rects are finite and the image has
    a display size. *)
Definition measuredRefs (r : Refs) : bool :=
  match containerRef r, imageRef r with
  | Some rect, Some imgRect =>
      finiteRect rect && finiteRect imgRect
      && negb (strict_eq (rect_width imgRect) zero)
      && negb (strict_eq (rect_height imgRect) zero)
  | _, _ => false
  end.

End BoundingBoxSelector.

(* ===================================================================== *)
(** * Points and pointer events for the coordinate mapping                *)
(* ===================================================================== *)

(** The bbox whose two corners both are the point [(px, py)]. *)
Definition pointBox (px py : Q) : BBox :=
  {| x1 := Finite px; y1 := Finite py; x2 := Finite px; y2 := Finite py |}.

(** The event of a pointer at a position given relative to the
    container. *)
Definition pointerAt (containerRect : DOMRect) (dx dy : number) : MouseEvent :=
  {| clientX := add (rect_left containerRect) dx;
     clientY := add (rect_top containerRect) dy |}.

(* ===================================================================== *)
(** * Image utilities and the upload path of SearchInterface            *)
(* ===================================================================== *)

Module ImageUtils.

(** A [Blob]: an opaque handle to immutable bytes, and their number. *)
Record Blob : Type := mkBlob {
  blob_data : Z;
  blob_size : Z
}.

(** A [File] is a [Blob] with a name, a MIME type and a time stamp. *)
Record File : Type := mkFile {
  file_blob : Blob;
  file_name : string;
  file_type : string;
  file_lastModified : Z
}.

Definition file_size (f : File) : Z := blob_size (file_blob f).

Record Dimensions : Type := mkDims {
  width : number;
  height : number
}.

(** What the browser contributes. *)
Record Browser : Type := mkBrowser {
  (** [canvas.getContext('2d')] is not null *)
  canvasContext : bool;
  (** loading the file into an [Image]: [Some] is [onload] with the
      decoded size, [None] is [onerror] *)
  decode : File -> option Dimensions;
  (** [canvas.toBlob(cb, mime, quality)] for the canvas of the given
      width and height onto which the file's image was drawn; [None] is
      a null blob *)
  toBlob : File -> number -> number -> string -> number -> option Blob;
  (** [Date.now()] *)
  now : Z
}.

(** "Calculate new dimensions maintaining aspect ratio": [width] and
    [height] as they are when the canvas is sized. *)
Definition newDimensions (width height maxDimension : number)
    : number * number :=
  if gtb width maxDimension || gtb height maxDimension then
    if gtb width height then
      (maxDimension, round (div (mul height maxDimension) width))
    else
      (round (div (mul width maxDimension) height), maxDimension)
  else (width, height).

Definition preprocessImage (br : Browser) (file : File)
    (maxDimension quality : number) : Promise File :=
  if negb (canvasContext br) then Rejected "Canvas context not available"
  else
    match decode br file with
    | None => Rejected "Failed to load image"
    | Some dims =>
        let '(w, h) := newDimensions (width dims) (height dims) maxDimension in
        match toBlob br file w h "image/jpeg" quality with
        | None => Rejected "Image conversion failed"
        | Some blob =>
            Resolved {| file_blob := blob;
                        file_name := file_name file;
                        file_type := "image/jpeg";
                        file_lastModified := now br |}
        end
    end.

Definition getImageDimensions (br : Browser) (file : File) : Promise Dimensions :=
  match decode br file with
  | Some dims => Resolved dims
  | None => Rejected "error"
  end.

(** The messages the upload path hands to [setError]. *)
Inductive Message : Type :=
| PleaseSelectImage                  (** 'Please select an image file' *)
| FileTooLarge (fileSizeMB : number) (** 'File too large (..MB). Maximum size is 10MB. ..' *)
| FileSizeExceeds                    (** 'File size exceeds 10MB limit. ..' *)
| ImageTooSmall (w h : number)       (** 'Image too small (w x h px). Minimum 400x400px ..' *)
| FailedToReadDimensions             (** 'Failed to read image dimensions. ..' *)
| FailedToResize (reason : string)   (** 'Failed to resize image: ..' *)
| ImageIsTooLarge (size : Z)         (** 'Image is too large (..MB). Please use a smaller image.' *)
| FailedToProcess.                   (** 'Failed to process image: ..' *)

(** The error taxonomy the messages fall into. *)
Inductive ErrorKind : Type :=
| InvalidType
| TooLarge
| TooSmall
| DecodeError
| EncodeError
| StillTooLarge.

Definition kind (m : Message) : ErrorKind :=
  match m with
  | PleaseSelectImage => InvalidType
  | FileTooLarge _ | FileSizeExceeds => TooLarge
  | ImageTooSmall _ _ => TooSmall
  | FailedToReadDimensions | FailedToProcess => DecodeError
  | FailedToResize _ => EncodeError
  | ImageIsTooLarge _ => StillTooLarge
  end.

(** [validateImageFile]: [None] is [null] (valid). *)
Definition validateImageFile (file : File) : option Message :=
  if negb (String.prefix "image/" (file_type file)) then Some PleaseSelectImage
  else
    let maxSizeMB := of_Z 10 in
    let fileSizeMB := div (of_Z (file_size file)) (of_Z (1024 * 1024)) in
    if gtb fileSizeMB maxSizeMB then Some (FileTooLarge fileSizeMB)
    else
      let maxSizeBytes := 10 * 1024 * 1024 in
      if file_size file >? maxSizeBytes then Some FileSizeExceeds
      else None.

(** [validateImageDimensions]: a failed decode is caught and reported as
    a message, so the promise always resolves. *)
Definition validateImageDimensions (br : Browser) (file : File) : option Message :=
  match getImageDimensions br file with
  | Resolved dims =>
      let minDimension := of_Z 400 in
      if ltb (width dims) minDimension || ltb (height dims) minDimension
      then Some (ImageTooSmall (width dims) (height dims))
      else None
  | Rejected _ => Some FailedToReadDimensions
  end.

(** The validation steps of [processImageFile], in the order it runs
    them; each stops the upload with [setError]. *)
Definition validate (br : Browser) (file : File) : option Message :=
  match validateImageFile file with
  | Some validationError => Some validationError
  | None => validateImageDimensions br file
  end.

(** The "Preprocess if needed" step of [processImageFile]: the file that
    becomes [processedFile]. *)
Definition resizeIfNeeded (br : Browser) (file : File) (dims : Dimensions)
    : Message + File :=
  if gtb (width dims) (of_Z 1920) || gtb (height dims) (of_Z 1920) then
    match preprocessImage br file (of_Z 1920) (Finite (85 # 100)) with
    | Resolved processed => inr processed
    | Rejected reason => inl (FailedToResize reason)
    end
  else inr file.

(** [processImageFile] up to [setImage(processedFile)]: the message given
    to [setError], or the file that is kept and sent to detection. *)
Definition processImageFile (br : Browser) (file : File) : Message + File :=
  match validate br file with
  | Some err => inl err
  | None =>
      match getImageDimensions br file with
      | Rejected _ => inl FailedToProcess
      | Resolved dims =>
          match resizeIfNeeded br file dims with
          | inl err => inl err
          | inr processedFile =>
              let maxSizeBytes := 10 * 1024 * 1024 in
              if file_size processedFile >? maxSizeBytes
              then inl (ImageIsTooLarge (file_size processedFile))
              else inr processedFile
          end
      end
  end.

End ImageUtils.

(* ===================================================================== *)
(** * The API client (lib/api)                                            *)
(* ===================================================================== *)

Module Api.

(** A value caught by a [catch]: the classes the client tells apart. *)
Inductive Thrown : Type :=
| TypeError (message : string)
| ApiError (message : string) (status : number)
| OtherError (message : string)   (** any other instance of [Error] *)
| NotAnError.                     (** a thrown value that is no [Error] *)

(** How an awaited call ends. *)
Inductive Outcome (A : Type) : Type :=
| Returned (value : A)
| Threw (error : Thrown).
Arguments Returned {A} value.
Arguments Threw {A} error.

(** [hay.includes(needle)]. *)
Definition includes (needle hay : string) : bool :=
  match String.index 0 needle hay with Some _ => true | None => false end.

(** The [catch] block shared by every request function: what is thrown
    on to the caller.  [base] is [API_BASE_URL]. *)
Definition rethrow (base : string) (error : Thrown) : Thrown :=
  match error with
  | TypeError message =>
      if includes "fetch" message then
        ApiError ("Unable to connect to the server. Please check if the backend is running at " ++ base)
                 (of_Z 0)
      else ApiError message (of_Z 0)
  | ApiError _ _ => error
  | OtherError message => ApiError message (of_Z 0)
  | NotAnError => ApiError "An unexpected error occurred" (of_Z 0)
  end.

(** [SearchHit]: the fields the cards read. *)
Record SearchHit : Type := mkHit {
  pinecone_id : string;
  hit_score : number;
  image_url : option string;
  product_url : option string;
  name_english : option string;
  name_arabic : option string;
  hit_category : option string;
  price_amount : option number;
  price_unit : option string
}.

Record SearchResponse : Type := mkSearchResponse {
  hits : list SearchHit;
  message : option string
}.

Record DetectionSegmentationResponse : Type := mkDetection {
  response_objects : list SegmentedObject;
  image_width : number;
  image_height : number
}.

(** A value appended to a [FormData]. *)
Inductive FormValue : Type :=
| FileValue (file : ImageUtils.File)
| TextValue (text : string)
| NumberText (n : number).        (** [n.toString()] *)

Definition FormData : Type := list (string * FormValue).

Record SearchOptions : Type := mkOptions {
  options_category : option string;
  options_top_k : option number
}.

(** Truthiness of a string and of a number. *)
Definition truthyString (s : string) : bool :=
  match s with EmptyString => false | _ => true end.

Definition truthyNumber (n : number) : bool :=
  match n with
  | NaN => false
  | Finite q => negb (Qeq_bool q 0)
  | _ => true
  end.

(** [options?.top_k && options.top_k > 0 ? options.top_k : 20]. *)
Definition topK (options : option SearchOptions) : number :=
  match options with
  | Some o =>
      match options_top_k o with
      | Some k => if truthyNumber k && gtb k (of_Z 0) then k else of_Z 20
      | None => of_Z 20
      end
  | None => of_Z 20
  end.

(** The form that [searchProducts] posts. *)
Definition searchFormData (image : ImageUtils.File) (options : option SearchOptions)
    : FormData :=
  ([("image"%string, FileValue image)]
   ++ match options with
      | Some o =>
          match options_category o with
          | Some c => if truthyString c then [("assigned_category"%string, TextValue c)] else []
          | None => []
          end
      | None => []
      end
   ++ [("top_k"%string, NumberText (topK options))])%list.

(** The values posted under one field name. *)
Definition field (name : string) (form : FormData) : list FormValue :=
  map snd (filter (fun kv => String.eqb (fst kv) name) form).

End Api.

(* ===================================================================== *)
(** * The SearchInterface component                                       *)
(* ===================================================================== *)

Module SearchInterface.
Import Api.

Record State : Type := mkState {
  image : option ImageUtils.File;
  preview : option string;
  detectedObjects : list SegmentedObject;
  imageWidth : number;
  imageHeight : number;
  detectionLoading : bool;
  searchLoading : bool;
  error : option string;
  searchResults : list SearchHit;
  selectedCategory : option string
}.

(** The message shown for a caught value, with the given default. *)
Definition errorMessageOf (default : string) (err : Thrown) : string :=
  match err with
  | ApiError message _ => message
  | TypeError message | OtherError message => message
  | NotAnError => default
  end.

(** [runDetectionAndSegmentation]: the state once the call has ended,
    [response] being how [detectAndSegmentObjects] ended. *)
Definition runDetectionAndSegmentation
    (response : Outcome DetectionSegmentationResponse) (s : State) : State :=
  let started :=
    {| image := image s; preview := preview s;
       detectedObjects := [];
       imageWidth := imageWidth s; imageHeight := imageHeight s;
       detectionLoading := true;
       searchLoading := searchLoading s;
       error := None;
       searchResults := searchResults s;
       selectedCategory := selectedCategory s |} in
  match response with
  | Returned resp =>
      {| image := image started; preview := preview started;
         detectedObjects := response_objects resp;
         imageWidth := image_width resp; imageHeight := image_height resp;
         detectionLoading := false;
         searchLoading := searchLoading started;
         error := if (Z.of_nat (length (response_objects resp)) =? 0)
                  then Some "No objects detected in the image. Please try a different image."%string
                  else None;
         searchResults := searchResults started;
         selectedCategory := selectedCategory started |}
  | Threw err =>
      {| image := image started; preview := preview started;
         detectedObjects := detectedObjects started;
         imageWidth := imageWidth started; imageHeight := imageHeight started;
         detectionLoading := false;
         searchLoading := searchLoading started;
         error := Some (errorMessageOf "Failed to detect objects" err);
         searchResults := searchResults started;
         selectedCategory := selectedCategory started |}
  end.

(** [handleObjectClick]: the search for a clicked region.  [api] is how
    [searchProducts] ends for a posted form; the result is the state
    once everything has ended and the forms that were posted. *)
Definition handleObjectClick (api : FormData -> Outcome SearchResponse)
    (s : State) (object : SegmentedObject) : State * list FormData :=
  let selected := Some (category object) in
  match image s with
  | None =>
      ({| image := image s; preview := preview s;
          detectedObjects := detectedObjects s;
          imageWidth := imageWidth s; imageHeight := imageHeight s;
          detectionLoading := detectionLoading s;
          searchLoading := false;
          error := Some "No image available"%string;
          searchResults := searchResults s;
          selectedCategory := selected |}, [])
  | Some img =>
      let form :=
        searchFormData img
          (Some {| options_category := Some (category object);
                   options_top_k := Some (of_Z 20) |}) in
      let after results err :=
        {| image := image s; preview := preview s;
           detectedObjects := detectedObjects s;
           imageWidth := imageWidth s; imageHeight := imageHeight s;
           detectionLoading := detectionLoading s;
           searchLoading := false;
           error := err;
           searchResults := results;
           selectedCategory := selected |} in
      match api form with
      | Returned resp =>
          (after (hits resp)
             (if (Z.of_nat (length (hits resp)) =? 0) then
                match message resp with
                | Some m => if truthyString m then Some m else None
                | None => None
                end
              else None),
           [form])
      | Threw err =>
          (after [] (Some (errorMessageOf "Failed to search products" err)), [form])
      end
  end.

(** [handleRemoveImage]. *)
Definition handleRemoveImage (s : State) : State :=
  {| image := None; preview := None;
     detectedObjects := [];
     imageWidth := of_Z 0; imageHeight := of_Z 0;
     detectionLoading := detectionLoading s;
     searchLoading := searchLoading s;
     error := None;
     searchResults := [];
     selectedCategory := None |}.

(** A click on a region in the detection view, followed by the searches
    that its [onObjectClick] calls start. *)
Definition regionClicked (api : FormData -> Outcome SearchResponse)
    (view : ObjectDetectionView.State) (s : State) (object : SegmentedObject)
    : ObjectDetectionView.State * State * list FormData :=
  let '(view1, events) := ObjectDetectionView.handleObjectClick view object in
  let '(s1, posted) :=
    fold_left
      (fun acc ev =>
         match ev with
         | ObjectDetectionView.OnObjectClick o =>
             let '(s2, forms) := handleObjectClick api (fst acc) o in
             (s2, (snd acc ++ forms)%list)
         end)
      events (s, []) in
  (view1, s1, posted).

End SearchInterface.

(* ===================================================================== *)
(** * The CatalogManager component                                        *)
(* ===================================================================== *)

Module CatalogManager.
Import Api.

(** A parsed JSON value, as far as the component looks at it: whether
    [typeof] says "object" (objects and arrays) and it is not null. *)
Inductive Json : Type :=
| JsonObject (text : string)
| JsonArray (text : string)
| JsonNull
| JsonPrimitive (text : string).

Definition isObject (j : Json) : bool :=
  match j with JsonObject _ | JsonArray _ => true | _ => false end.

(** The two built-ins the component calls: [String.prototype.trim] and
    [JSON.parse] ([None] is a thrown [SyntaxError]). *)
Record Runtime : Type := mkRuntime {
  trim : string -> string;
  jsonParse : string -> option Json
}.

(** The messages given to [setError] and [setAttributesError]. *)
Inductive Message : Type :=
| PleaseSelectImage                 (** 'Please select an image file' *)
| ImageTooSmall (w h : number)      (** 'Image too small (w x h px). ..' *)
| FailedToLoadImage                 (** 'Failed to load image. ..' *)
| SkuRequired                       (** 'SKU ID is required' *)
| CategoryRequired                  (** 'Category is required' *)
| ImageRequired                     (** 'Product image is required' *)
| FixJson                           (** 'Please fix the JSON format in attributes' *)
| InvalidJson                       (** 'Invalid JSON format' *)
| SubmitFailed (text : string).     (** the caught error's message *)

Record CatalogUpsertResponse : Type := mkUpsertResponse {
  sku_id : string;
  image_id : string;
  upserted : bool
}.

(** The arguments of one [upsertCatalogItem] call. *)
Record Request : Type := mkRequest {
  request_skuId : string;
  request_category : string;
  request_image : ImageUtils.File;
  request_attributes : option Json
}.

Record State : Type := mkState {
  skuId : string;
  category : string;
  image : option ImageUtils.File;
  preview : option string;
  attributesJson : string;
  attributesError : option Message;
  loading : bool;
  success : option (string * string);   (** sku id and image id of the product added *)
  error : option Message
}.

Definition setError (e : option Message) (s : State) : State :=
  {| skuId := skuId s; category := category s; image := image s;
     preview := preview s; attributesJson := attributesJson s;
     attributesError := attributesError s; loading := loading s;
     success := success s; error := e |}.

(** The component's own [validateImageDimensions]: the boolean it
    resolves with and the error it sets on the way. *)
Definition validateImageDimensions (br : ImageUtils.Browser) (file : ImageUtils.File)
    : bool * option Message :=
  match ImageUtils.decode br file with
  | Some d =>
      let isValid := geb (ImageUtils.width d) (of_Z 400)
                     && geb (ImageUtils.height d) (of_Z 400) in
      (isValid,
       if isValid then None
       else Some (ImageTooSmall (ImageUtils.width d) (ImageUtils.height d)))
  | None => (false, Some FailedToLoadImage)
  end.

(** The part shared by [handleFileSelect] and [handleDrop] once the type
    test has passed.  The preview is filled in later, when the
    [FileReader] has finished; that step is left out. *)
Definition acceptImage (br : ImageUtils.Browser) (file : ImageUtils.File) (s : State)
    : State :=
  match validateImageDimensions br file with
  | (true, _) =>
      {| skuId := skuId s; category := category s; image := Some file;
         preview := preview s; attributesJson := attributesJson s;
         attributesError := attributesError s; loading := loading s;
         success := None; error := None |}
  | (false, Some e) => setError (Some e) s
  | (false, None) => s
  end.

Definition handleFileSelect (br : ImageUtils.Browser) (file : option ImageUtils.File)
    (s : State) : State :=
  match file with
  | Some f =>
      if negb (String.prefix "image/" (ImageUtils.file_type f))
      then setError (Some PleaseSelectImage) s
      else acceptImage br f s
  | None => s
  end.

Definition handleDrop (br : ImageUtils.Browser) (file : option ImageUtils.File)
    (s : State) : State :=
  match file with
  | Some f =>
      if String.prefix "image/" (ImageUtils.file_type f)
      then acceptImage br f s
      else s
  | None => s
  end.

Definition handleRemoveImage (s : State) : State :=
  {| skuId := skuId s; category := category s; image := None;
     preview := None; attributesJson := attributesJson s;
     attributesError := attributesError s; loading := loading s;
     success := success s; error := error s |}.

Definition handleAttributesChange (rt : Runtime) (value : string) (s : State) : State :=
  {| skuId := skuId s; category := category s; image := image s;
     preview := preview s; attributesJson := value;
     attributesError :=
       if truthyString (trim rt value) then
         match jsonParse rt value with
         | Some _ => None
         | None => Some InvalidJson
         end
       else None;
     loading := loading s; success := success s; error := error s |}.

Definition parseAttributes (rt : Runtime) (s : State) : option Json :=
  if negb (truthyString (trim rt (attributesJson s))) then None
  else
    match jsonParse rt (attributesJson s) with
    | Some parsed => if isObject parsed then Some parsed else None
    | None => None
    end.

(** [handleSubmit]: the state once the submission has ended and the
    requests that were made; [api] is how [upsertCatalogItem] ends. *)
Definition handleSubmit (rt : Runtime) (api : Request -> Outcome CatalogUpsertResponse)
    (s : State) : State * list Request :=
  if negb (truthyString (trim rt (skuId s))) then (setError (Some SkuRequired) s, [])
  else if negb (truthyString (category s)) then (setError (Some CategoryRequired) s, [])
  else
    match image s with
    | None => (setError (Some ImageRequired) s, [])
    | Some img =>
        match attributesError s with
        | Some _ => (setError (Some FixJson) s, [])
        | None =>
            let request :=
              {| request_skuId := trim rt (skuId s);
                 request_category := category s;
                 request_image := img;
                 request_attributes := parseAttributes rt s |} in
            match api request with
            | Returned response =>
                ({| skuId := ""; category := ""; image := None; preview := None;
                    attributesJson := ""; attributesError := None;
                    loading := false;
                    success := Some (sku_id response, image_id response);
                    error := None |},
                 [request])
            | Threw err =>
                ({| skuId := skuId s; category := category s; image := image s;
                    preview := preview s; attributesJson := attributesJson s;
                    attributesError := attributesError s;
                    loading := false;
                    success := None;
                    error := Some (SubmitFailed
                                     (match err with
                                      | ApiError m _ | TypeError m | OtherError m => m
                                      | NotAnError => "Failed to add product to catalog"
                                      end)) |},
                 [request])
            end
        end
    end.

End CatalogManager.

(* ===================================================================== *)
(** * Product cards                                                       *)
(* ===================================================================== *)

Module ProductCards.
Import Api.

(** [a || b] on optional strings: the first one that is present and not
    empty, else the second. *)
Definition orElse (a : option string) (b : option string) : option string :=
  match a with
  | Some s => if truthyString s then a else b
  | None => b
  end.

(** [hit.name_english || hit.name_arabic || hit.pinecone_id], the same
    in all three cards. *)
Definition productName (hit : SearchHit) : string :=
  match orElse (orElse (name_english hit) (name_arabic hit)) (Some (pinecone_id hit)) with
  | Some s => s
  | None => pinecone_id hit
  end.

(** [hit.price_unit || 'SAR']. *)
Definition unitOf (hit : SearchHit) : string :=
  match orElse (price_unit hit) (Some "SAR"%string) with
  | Some u => u
  | None => "SAR"
  end.

(** What a card shows for the price. *)
Inductive PriceLine : Type :=
| NoPrice
| Price (amount : number) (unit : string)
| BareNumber (amount : number).   (** a falsy number rendered as text *)

(** The card of the results page: [hasPrice && (...)]. *)
Definition resultsPagePrice (hit : SearchHit) : PriceLine :=
  match price_amount hit with
  | Some amount => Price amount (unitOf hit)
  | None => NoPrice
  end.

(** The card of the side panel and the modal: [hit.price_amount && (...)];
    a falsy number is what the expression evaluates to, and is rendered. *)
Definition sidePanelPrice (hit : SearchHit) : PriceLine :=
  match price_amount hit with
  | Some amount =>
      if truthyNumber amount then Price amount (unitOf hit) else BareNumber amount
  | None => NoPrice
  end.

(** One card of the results page: the hit, its rank, and whether it
    carries the "Best Match" badge. *)
Record Card : Type := mkCard {
  card_hit : SearchHit;
  rank : nat;
  bestMatch : bool
}.

Fixpoint cardsFrom (index : nat) (hits : list SearchHit) : list Card :=
  match hits with
  | [] => []
  | hit :: rest =>
      {| card_hit := hit; rank := index + 1; bestMatch := Nat.eqb (index + 1) 1 |}
      :: cardsFrom (S index) rest
  end.

(** [hits.map((hit, index) => <ProductCard hit={hit} rank={index + 1} />)]. *)
Definition cards (hits : list SearchHit) : list Card := cardsFrom 0 hits.

End ProductCards.

(* ===================================================================== *)
(** * The mappings and the size arithmetic in binary64                    *)
(* ===================================================================== *)

(** The functions whose results depend on the rounding of doubles,
    translated from the source once more with every [+ - * /] rounded
    to binary64.  Comparisons and [Math.round] are exact on doubles and
    are those of [JSNum]. *)
Module Rounded.

Module DetectionView.
Import ObjectDetectionView.

(** [updateImageInfo]. *)
Definition updateImageInfo (imgRect containerRect : DOMRect) : ImageInfo :=
  {| displayWidth := rect_width imgRect;
     displayHeight := rect_height imgRect;
     offsetX := Binary64.sub (rect_left imgRect) (rect_left containerRect);
     offsetY := Binary64.sub (rect_top imgRect) (rect_top containerRect) |}.

(** [getDisplayBbox] of the detection view. *)
Definition getDisplayBbox (p : Props) (r : Refs) (s : State) (b : BBox)
    : option DisplayBbox :=
  let info := imageInfo s in
  match imageRef r, containerRef r with
  | Some _, Some _ =>
      if strict_eq (displayWidth info) zero
         || strict_eq (displayHeight info) zero
         || strict_eq (imageWidth p) zero
         || strict_eq (imageHeight p) zero
      then None
      else
        let scaleX := Binary64.div (displayWidth info) (imageWidth p) in
        let scaleY := Binary64.div (displayHeight info) (imageHeight p) in
        Some {| d_x1 := Binary64.add (offsetX info) (Binary64.mul (x1 b) scaleX);
                d_y1 := Binary64.add (offsetY info) (Binary64.mul (y1 b) scaleY);
                d_x2 := Binary64.add (offsetX info) (Binary64.mul (x2 b) scaleX);
                d_y2 := Binary64.add (offsetY info) (Binary64.mul (y2 b) scaleY);
                d_width := Binary64.mul (Binary64.sub (x2 b) (x1 b)) scaleX;
                d_height := Binary64.mul (Binary64.sub (y2 b) (y1 b)) scaleY |}
  | _, _ => None
  end.

End DetectionView.

Module BoxSelector.
Import BoundingBoxSelector.

(** [getRelativeCoordinates] of the box selector. *)
Definition getRelativeCoordinates (r : Refs) (s : State) (e : MouseEvent)
    : option Pos :=
  match containerRef r, imageRef r with
  | Some rect, Some imgRect =>
      if strict_eq (width (originalImageSize s)) zero then None
      else
        let x := Binary64.sub (clientX e) (rect_left rect) in
        let y := Binary64.sub (clientY e) (rect_top rect) in
        let imgX := Binary64.sub (rect_left imgRect) (rect_left rect) in
        let imgY := Binary64.sub (rect_top imgRect) (rect_top rect) in
        let displayWidth := rect_width imgRect in
        let displayHeight := rect_height imgRect in
        if ltb x imgX || gtb x (Binary64.add imgX displayWidth)
           || ltb y imgY || gtb y (Binary64.add imgY displayHeight)
        then None
        else
          let displayX := Binary64.sub x imgX in
          let displayY := Binary64.sub y imgY in
          let scaleX := Binary64.div (width (originalImageSize s)) displayWidth in
          let scaleY := Binary64.div (height (originalImageSize s)) displayHeight in
          let originalX := round (Binary64.mul displayX scaleX) in
          let originalY := round (Binary64.mul displayY scaleY) in
          Some {| x := displayX; y := displayY;
                  originalX := originalX; originalY := originalY |}
  | _, _ => None
  end.

(** [handleMouseDown] and [handleMouseMove], which call
    [getRelativeCoordinates]; the other handlers do no arithmetic and
    are those of [BoundingBoxSelector]. *)
Definition handleMouseDown (p : Props) (r : Refs) (s : State) (e : MouseEvent)
    : Handled :=
  if negb (enabled p) then unhandled s
  else
    match getRelativeCoordinates r s e with
    | None => unhandled s
    | Some pos =>
        {| state_after :=
             {| isDrawing := true;
                bbox := None;
                startPos := Some pos;
                currentPos := Some pos;
                originalImageSize := originalImageSize s |};
           bbox_write := WroteNull;
           direct := [] |}
    end.

Definition handleMouseMove (p : Props) (r : Refs) (s : State) (e : MouseEvent)
    : Handled :=
  if negb (isDrawing s) || negb (enabled p) then unhandled s
  else
    match getRelativeCoordinates r s e, startPos s with
    | Some pos, Some start =>
        let b := dragBox start pos in
        {| state_after :=
             {| isDrawing := isDrawing s;
                bbox := Some b;
                startPos := startPos s;
                currentPos := Some pos;
                originalImageSize := originalImageSize s |};
           bbox_write := WroteObject b;
           direct := [] |}
    | _, _ => unhandled s
    end.

Definition step (p : Props) (s : State) (a : Action) : State * list Event :=
  match a with
  | MouseDown r e => dispatch p s (handleMouseDown p r s e)
  | MouseMove r e => dispatch p s (handleMouseMove p r s e)
  | MouseUp | MouseLeave => dispatch p s (handleMouseUp p s)
  | ClickClear => dispatch p s (handleClear p s)
  | ImageLoaded size =>
      ({| isDrawing := isDrawing s;
          bbox := bbox s;
          startPos := startPos s;
          currentPos := currentPos s;
          originalImageSize := size |}, [])
  end.

Fixpoint run (p : Props) (s : State) (actions : list Action)
    : State * list Event :=
  match actions with
  | [] => (s, [])
  | a :: rest =>
      let '(s1, out1) := step p s a in
      let '(s2, out2) := run p s1 rest in
      (s2, (out1 ++ out2)%list)
  end.

(** Both elements are mounted, with offsets of magnitude at most 65536
    and a displayed image between 1 and 65536 pixels wide and high. *)
Definition measuredRefs (r : Refs) : Prop :=
  exists cl ct cw ch il it dW dH : Q,
    r = mkRefs (Some (mkRect (Finite cl) (Finite ct) (Finite cw) (Finite ch)))
               (Some (mkRect (Finite il) (Finite it) (Finite dW) (Finite dH)))
    /\ (-65536 <= cl <= 65536)%Q /\ (-65536 <= ct <= 65536)%Q
    /\ (-65536 <= il <= 65536)%Q /\ (-65536 <= it <= 65536)%Q
    /\ (1 <= dW <= 65536)%Q /\ (1 <= dH <= 65536)%Q.

(** A pointer with client coordinates of magnitude at most 65536. *)
Definition measuredEvent (e : MouseEvent) : Prop :=
  exists ex ey : Q,
    e = mkMouse (Finite ex) (Finite ey)
    /\ (-65536 <= ex <= 65536)%Q /\ (-65536 <= ey <= 65536)%Q.

(** [naturalWidth] and [naturalHeight] of an image of at most
    65536 x 65536 pixels. *)
Definition naturalSize (size : Size) : Prop :=
  exists n m : Z,
    size = mkSize (of_Z n) (of_Z m) /\ 0 <= n <= 65536 /\ 0 <= m <= 65536.

Definition measuredAction (a : Action) : Prop :=
  match a with
  | MouseDown r e | MouseMove r e => measuredRefs r /\ measuredEvent e
  | ImageLoaded size => naturalSize size
  | _ => True
  end.

(** What every state reached under measured actions satisfies. *)
Definition wellFormed (s : State) : Prop :=
  naturalSize (originalImageSize s)
  /\ (forall start, startPos s = Some start -> integerPos start)
  /\ (forall b, bbox s = Some b -> normalised b).

(** Every box among the emitted events is normalised. *)
Definition allNormalised (out : list Event) : Prop :=
  forall b, In (OnBboxChange (Some b)) out -> normalised b.

End BoxSelector.

(** [calculateReduction]. *)
Definition calculateReduction (originalSize newSize : number) : number :=
  round (Binary64.mul
           (Binary64.div (Binary64.sub originalSize newSize) originalSize)
           (of_Z 100)).

(** The event of a pointer at a position given relative to the
    container: the double nearest to that viewport position. *)
Definition pointerAt (containerRect : DOMRect) (dx dy : number) : MouseEvent :=
  {| clientX := Binary64.add (rect_left containerRect) dx;
     clientY := Binary64.add (rect_top containerRect) dy |}.

End Rounded.

(* ===================================================================== *)
(** * Concrete inputs used by the examples below                          *)
(* ===================================================================== *)

Module Samples.

Definition box (a b c d : Z) : BBox :=
  {| x1 := of_Z a; y1 := of_Z b; x2 := of_Z c; y2 := of_Z d |}.

Definition sofa : SegmentedObject :=
  {| category := "sofa"; bbox := box 100 200 700 500;
     score := Finite (9 # 10); object_id := 1; mask_base64 := "iVBORw0KGgo=" |}.

Definition pillow : SegmentedObject :=
  {| category := "pillow"; bbox := box 300 250 450 350;
     score := Finite (8 # 10); object_id := 2; mask_base64 := "iVBORw0KGgp=" |}.

Definition lamp : SegmentedObject :=
  {| category := "lighting"; bbox := box 750 50 790 300;
     score := Finite (7 # 10); object_id := 7; mask_base64 := "" |}.

(** An 800x600 image shown at 400x300, 50px right of and 20px below the
    container's corner, which sits at (10, 10) of the viewport. *)
Definition containerRect : DOMRect :=
  {| rect_left := of_Z 10; rect_top := of_Z 10;
     rect_width := of_Z 500; rect_height := of_Z 340 |}.

Definition imgRect : DOMRect :=
  {| rect_left := of_Z 60; rect_top := of_Z 30;
     rect_width := of_Z 400; rect_height := of_Z 300 |}.

Definition mounted : Refs :=
  {| containerRef := Some containerRect; imageRef := Some imgRect |}.

Definition roomProps : ObjectDetectionView.Props :=
  {| ObjectDetectionView.objects := [sofa; pillow; lamp];
     ObjectDetectionView.imageWidth := of_Z 800;
     ObjectDetectionView.imageHeight := of_Z 600 |}.


(** The view after the image was measured. *)
Definition measured : ObjectDetectionView.State :=
  ObjectDetectionView.setImageInfo
    (ObjectDetectionView.updateImageInfo imgRect containerRect)
    ObjectDetectionView.initialState.

(** The lamp is under the pointer and was clicked. *)
Definition lampHoveredAndClicked : ObjectDetectionView.State :=
  ObjectDetectionView.setClickedObjectId (Some 7)
    (ObjectDetectionView.setHoveredObjectId (Some 7) measured).

(** A pointer over the pillow (which lies on the sofa): image-relative
    (180, 150), i.e. original (360, 300). *)
Definition overPillow : MouseEvent :=
  {| clientX := of_Z 240; clientY := of_Z 180 |}.




(** A browser in which no mask image decodes. *)
Definition noDecode : ObjectDetectionView.Browser :=
  {| ObjectDetectionView.loadImage := fun _ => None;
     ObjectDetectionView.maskContext := true;
     ObjectDetectionView.outlineContext := true;
     ObjectDetectionView.toDataURL := fun _ => "data:image/png;base64,b3V0bGluZQ=="%string |}.

(** The box selector over the same image: idle, then after a press at
    display (100, 100), which is original (200, 200). *)
Definition selectorProps : BoundingBoxSelector.Props :=
  {| BoundingBoxSelector.onBboxChange := true;
     BoundingBoxSelector.enabled := true |}.

Definition selectorIdle : BoundingBoxSelector.State :=
  {| BoundingBoxSelector.isDrawing := false;
     BoundingBoxSelector.bbox := None;
     BoundingBoxSelector.startPos := None;
     BoundingBoxSelector.currentPos := None;
     BoundingBoxSelector.originalImageSize :=
       {| BoundingBoxSelector.width := of_Z 800;
          BoundingBoxSelector.height := of_Z 600 |} |}.

Definition pressAt : MouseEvent :=
  {| clientX := of_Z 160; clientY := of_Z 130 |}.

Definition selectorDrawing : BoundingBoxSelector.State :=
  fst (BoundingBoxSelector.pointerDown selectorProps mounted selectorIdle pressAt).

(** The image element before it has any size, at the same position. *)
Definition unsizedImgRect : DOMRect :=
  {| rect_left := of_Z 60; rect_top := of_Z 30;
     rect_width := of_Z 0; rect_height := of_Z 0 |}.

Definition mountedUnsized : Refs :=
  {| containerRef := Some containerRect; imageRef := Some unsizedImgRect |}.

(** A pointer exactly on the corner of the unsized image. *)
Definition atImageCorner : MouseEvent :=
  {| clientX := of_Z 60; clientY := of_Z 30 |}.

(** Uploaded files, told apart by the handle of their bytes. *)
Definition upload (handle bytes : Z) (name type : string) : ImageUtils.File :=
  {| ImageUtils.file_blob :=
       {| ImageUtils.blob_data := handle; ImageUtils.blob_size := bytes |};
     ImageUtils.file_name := name;
     ImageUtils.file_type := type;
     ImageUtils.file_lastModified := 1700000000000 |}.

(** A 1000x800 PNG of 2 MiB. *)
Definition roomPng : ImageUtils.File := upload 1 (2 * 1024 * 1024) "room.png" "image/png".
(** A 4000x2000 JPEG of 6 MiB. *)
Definition wideJpeg : ImageUtils.File := upload 2 (6 * 1024 * 1024) "wide.jpg" "image/jpeg".
(** A 300x300 PNG. *)
Definition thumbPng : ImageUtils.File := upload 3 40000 "thumb.png" "image/png".
(** A PNG of 2 MiB whose bytes do not decode. *)
Definition corruptPng : ImageUtils.File := upload 4 (2 * 1024 * 1024) "broken.png" "image/png".
(** A 500x500 JPEG of 2 MiB. *)
Definition squareJpeg : ImageUtils.File := upload 5 (2 * 1024 * 1024) "square.jpg" "image/jpeg".
(** An 11 MiB JPEG. *)
Definition hugeJpeg : ImageUtils.File := upload 6 (11 * 1024 * 1024) "huge.jpg" "image/jpeg".
(** An 11 MiB text file. *)
Definition bigText : ImageUtils.File := upload 7 (11 * 1024 * 1024) "notes.txt" "text/plain".

Definition dims (w h : Z) : ImageUtils.Dimensions :=
  {| ImageUtils.width := of_Z w; ImageUtils.height := of_Z h |}.

(** A browser that decodes the files above as described and encodes
    every canvas into a fresh 300 kB blob. *)
Definition uploadBrowser : ImageUtils.Browser :=
  {| ImageUtils.canvasContext := true;
     ImageUtils.decode := fun f =>
       match ImageUtils.blob_data (ImageUtils.file_blob f) with
       | 1 => Some (dims 1000 800)
       | 2 => Some (dims 4000 2000)
       | 3 => Some (dims 300 300)
       | 5 => Some (dims 500 500)
       | 6 => Some (dims 3000 3000)
       | _ => None
       end;
     ImageUtils.toBlob := fun f _ _ _ _ =>
       Some {| ImageUtils.blob_data := 100 + ImageUtils.blob_data (ImageUtils.file_blob f);
               ImageUtils.blob_size := 300000 |};
     ImageUtils.now := 1700000001000 |}.

(** The view before its image was measured, with a stale hovered id. *)
Definition unmeasuredHovered : ObjectDetectionView.State :=
  ObjectDetectionView.setHoveredObjectId (Some 7) ObjectDetectionView.initialState.

(** A fully opaque mask two pixels wide and three high. *)
Definition thinMask : ObjectDetectionView.ImageData :=
  {| ObjectDetectionView.img_width := 2;
     ObjectDetectionView.img_height := 3;
     ObjectDetectionView.data := concat (repeat [255; 255; 255; 255] 6) |}.

(** A drag on the selector: the probe image loads, the pointer goes
    down at original (200, 200), moves to original (360, 300), and up. *)
Definition pressed : list BoundingBoxSelector.Action :=
  [BoundingBoxSelector.ImageLoaded
     {| BoundingBoxSelector.width := of_Z 800; BoundingBoxSelector.height := of_Z 600 |};
   BoundingBoxSelector.MouseDown mounted pressAt].

Definition dragged : list BoundingBoxSelector.Action :=
  (pressed ++ [BoundingBoxSelector.MouseMove mounted overPillow;
               BoundingBoxSelector.MouseUp])%list.

(** A chair with a mask, and the props after the room's regions were
    replaced by the chair alone. *)
Definition chair : SegmentedObject :=
  {| category := "chair"; bbox := box 500 250 760 560; score := Finite (88 # 100);
     object_id := 3; mask_base64 := "Y2hhaXI=" |}.

Definition chairProps : ObjectDetectionView.Props :=
  {| ObjectDetectionView.objects := [chair];
     ObjectDetectionView.imageWidth := of_Z 800;
     ObjectDetectionView.imageHeight := of_Z 600 |}.

(** The room's regions are shown, then replaced by the chair; the
    chair's outline settles first, the sofa's (of the first run) last. *)
Definition staleOutline : list ObjectDetectionView.MaskStep :=
  [ObjectDetectionView.ObjectsReplaced roomProps mounted;
   ObjectDetectionView.ObjectsReplaced chairProps mounted;
   ObjectDetectionView.OutlineSettled 1 0;
   ObjectDetectionView.OutlineSettled 0 0].

(** The box that drag leaves behind. *)
Definition drawn : BoundingBoxSelector.BoundingBox :=
  BoundingBoxSelector.mkBox (of_Z 200) (of_Z 200) (of_Z 360) (of_Z 300).

Definition disabledProps : BoundingBoxSelector.Props :=
  {| BoundingBoxSelector.onBboxChange := true;
     BoundingBoxSelector.enabled := false |}.

(** The search page with the room photo uploaded and detection done. *)
Definition searchPage : SearchInterface.State :=
  {| SearchInterface.image := Some roomPng;
     SearchInterface.preview := Some "data:image/png;base64,cm9vbQ=="%string;
     SearchInterface.detectedObjects := [sofa; pillow; lamp];
     SearchInterface.imageWidth := of_Z 800;
     SearchInterface.imageHeight := of_Z 600;
     SearchInterface.detectionLoading := false;
     SearchInterface.searchLoading := false;
     SearchInterface.error := None;
     SearchInterface.searchResults := [];
     SearchInterface.selectedCategory := None |}.

(** A search backend that finds nothing. *)
Definition emptySearch : Api.FormData -> Api.Outcome Api.SearchResponse :=
  fun _ => Api.Returned {| Api.hits := [];
                           Api.message := Some "No similar products found"%string |}.

(** [trim] for texts whose only white space is the space character. *)
Fixpoint dropSpaces (s : string) : string :=
  match s with
  | String c rest =>
      if String.eqb (String c EmptyString) " " then dropSpaces rest else s
  | EmptyString => s
  end.

Fixpoint reverse (s acc : string) : string :=
  match s with
  | EmptyString => acc
  | String c rest => reverse rest (String c acc)
  end.

Definition spaceTrim (s : string) : string :=
  reverse (dropSpaces (reverse (dropSpaces s) "")) "".

(** A parser that knows three texts. *)
Definition tinyParse (s : string) : option CatalogManager.Json :=
  if String.eqb s "42" then Some (CatalogManager.JsonPrimitive "42")
  else if String.eqb s "{}" then Some (CatalogManager.JsonObject "{}")
  else if String.eqb s "null" then Some CatalogManager.JsonNull
  else None.

Definition runtime : CatalogManager.Runtime :=
  {| CatalogManager.trim := spaceTrim; CatalogManager.jsonParse := tinyParse |}.

Definition emptyForm : CatalogManager.State :=
  {| CatalogManager.skuId := ""; CatalogManager.category := "";
     CatalogManager.image := None; CatalogManager.preview := None;
     CatalogManager.attributesJson := ""; CatalogManager.attributesError := None;
     CatalogManager.loading := false; CatalogManager.success := None;
     CatalogManager.error := None |}.

(** The form filled in, with a SKU that has blanks around it. *)
Definition filledForm : CatalogManager.State :=
  {| CatalogManager.skuId := " SOFA-1 "; CatalogManager.category := "sofa";
     CatalogManager.image := Some roomPng; CatalogManager.preview := None;
     CatalogManager.attributesJson := "42"; CatalogManager.attributesError := None;
     CatalogManager.loading := false; CatalogManager.success := None;
     CatalogManager.error := None |}.

Definition catalogBackend
    : CatalogManager.Request -> Api.Outcome CatalogManager.CatalogUpsertResponse :=
  fun request =>
    Api.Returned {| CatalogManager.sku_id := CatalogManager.request_skuId request;
                    CatalogManager.image_id := "img-1";
                    CatalogManager.upserted := true |}.

(** A 3024x2016 photo shown at 195x130, 14px right of and 10px below
    the corner of its container. *)
Definition phoneContainer : DOMRect :=
  {| rect_left := of_Z 25; rect_top := of_Z 10;
     rect_width := of_Z 400; rect_height := of_Z 300 |}.

Definition phoneImage : DOMRect :=
  {| rect_left := of_Z 39; rect_top := of_Z 20;
     rect_width := of_Z 195; rect_height := of_Z 130 |}.

Definition phoneRefs : Refs :=
  {| containerRef := Some phoneContainer; imageRef := Some phoneImage |}.

Definition phoneProps : ObjectDetectionView.Props :=
  {| ObjectDetectionView.objects := [];
     ObjectDetectionView.imageWidth := of_Z 3024;
     ObjectDetectionView.imageHeight := of_Z 2016 |}.

Definition phoneView : ObjectDetectionView.State :=
  ObjectDetectionView.setImageInfo
    (Rounded.DetectionView.updateImageInfo phoneImage phoneContainer)
    ObjectDetectionView.initialState.

Definition phoneSelector : BoundingBoxSelector.State :=
  {| BoundingBoxSelector.isDrawing := false;
     BoundingBoxSelector.bbox := None;
     BoundingBoxSelector.startPos := None;
     BoundingBoxSelector.currentPos := None;
     BoundingBoxSelector.originalImageSize :=
       {| BoundingBoxSelector.width := of_Z 3024;
          BoundingBoxSelector.height := of_Z 2016 |} |}.

(** A layout with fractional pixels: the container starts at 42, the
    image at 236.27 and is 895.4 wide; the pointer is at 1131.67. *)
Definition fractionalRefs : Refs :=
  {| containerRef :=
       Some {| rect_left := of_Z 42; rect_top := of_Z 0;
               rect_width := of_Z 1200; rect_height := of_Z 700 |};
     imageRef :=
       Some {| rect_left := Binary64.literal (23627 # 100); rect_top := of_Z 50;
               rect_width := Binary64.literal (8954 # 10);
               rect_height := of_Z 600 |} |}.

Definition fractionalPointer : MouseEvent :=
  {| clientX := Binary64.literal (113167 # 100); clientY := of_Z 350 |}.

End Samples.

(* ===================================================================== *)
(** * Arithmetic of finite numbers                                        *)
(* ===================================================================== *)

Section NumberFacts.

Lemma leb_finite (a b : Q) : leb (Finite a) (Finite b) = true <-> (a <= b)%Q.
Proof. simpl. apply Qle_bool_iff. Qed.

Lemma ltb_finite (a b : Q) : ltb (Finite a) (Finite b) = true <-> (a < b)%Q.
Proof.
  simpl. rewrite negb_true_iff. split.
  - intros Hle. apply Qnot_le_lt. intros Hba.
    apply Qle_bool_iff in Hba. congruence.
  - intros Hlt. destruct (Qle_bool b a) eqn:E; [|reflexivity].
    apply Qle_bool_iff in E. exfalso. exact (Qlt_not_le _ _ Hlt E).
Qed.

Lemma ltb_finite_false (a b : Q) : (b <= a)%Q -> ltb (Finite a) (Finite b) = false.
Proof.
  intros Hle. simpl. apply negb_false_iff. apply Qle_bool_iff. exact Hle.
Qed.

Lemma gtb_finite_false (a b : Q) : (a <= b)%Q -> gtb (Finite a) (Finite b) = false.
Proof. intros Hle. unfold gtb. apply ltb_finite_false. exact Hle. Qed.

Lemma strict_eq_zero_false (a : Q) : ~ (a == 0)%Q -> strict_eq (Finite a) zero = false.
Proof.
  intros Hne. simpl. destruct (Qeq_bool a (inject_Z 0)) eqn:E; [|reflexivity].
  apply Qeq_bool_iff in E. contradiction.
Qed.

Lemma div_finite (a b : Q) : ~ (b == 0)%Q -> div (Finite a) (Finite b) = Finite (a / b).
Proof.
  intros Hne. simpl. destruct (Qeq_bool b 0) eqn:E; [|reflexivity].
  apply Qeq_bool_iff in E. contradiction.
Qed.

(** [Math.round] moves a value by at most one half. *)
Lemma round_nearest (q : Q) :
  (inject_Z (Qfloor (q + (1 # 2))) <= q + (1 # 2))%Q
  /\ (q - (1 # 2) < inject_Z (Qfloor (q + (1 # 2))))%Q.
Proof.
  split; [apply Qfloor_le|].
  pose proof (Qlt_floor (q + (1 # 2))) as Hlt.
  rewrite inject_Z_plus in Hlt. change (inject_Z 1) with 1%Q in Hlt. lra.
Qed.

(** On finite values [min] and [max] return one of their arguments, in
    order. *)
Lemma min_max_finite (a b : Q) :
  leb (min (Finite a) (Finite b)) (max (Finite a) (Finite b)) = true
  /\ leb (min (Finite a) (Finite b)) (Finite a) = true
  /\ leb (min (Finite a) (Finite b)) (Finite b) = true
  /\ leb (Finite a) (max (Finite a) (Finite b)) = true
  /\ leb (Finite b) (max (Finite a) (Finite b)) = true
  /\ (min (Finite a) (Finite b) = Finite a \/ min (Finite a) (Finite b) = Finite b)
  /\ (max (Finite a) (Finite b) = Finite a \/ max (Finite a) (Finite b) = Finite b).
Proof.
  unfold min, max. destruct (leb (Finite a) (Finite b)) eqn:E.
  - pose proof (proj1 (leb_finite a b) E) as Hle.
    repeat split; try (apply leb_finite; lra); auto.
  - assert (Hlt : (b < a)%Q).
    { apply Qnot_le_lt. intros Hle. apply leb_finite in Hle. congruence. }
    repeat split; try (apply leb_finite; lra); auto.
Qed.

(** [min] and [max] do not depend on the order of their arguments. *)
Lemma min_comm_finite (a b : Q) :
  num_eq (min (Finite a) (Finite b)) (min (Finite b) (Finite a)).
Proof.
  unfold min.
  destruct (leb (Finite a) (Finite b)) eqn:E1, (leb (Finite b) (Finite a)) eqn:E2; simpl.
  - apply leb_finite in E1, E2. lra.
  - reflexivity.
  - reflexivity.
  - exfalso. destruct (Qlt_le_dec a b) as [H|H].
    + apply Qlt_le_weak in H. apply leb_finite in H. congruence.
    + apply leb_finite in H. congruence.
Qed.

Lemma max_comm_finite (a b : Q) :
  num_eq (max (Finite a) (Finite b)) (max (Finite b) (Finite a)).
Proof.
  unfold max.
  destruct (leb (Finite a) (Finite b)) eqn:E1, (leb (Finite b) (Finite a)) eqn:E2; simpl.
  - apply leb_finite in E1, E2. lra.
  - reflexivity.
  - reflexivity.
  - exfalso. destruct (Qlt_le_dec a b) as [H|H].
    + apply Qlt_le_weak in H. apply leb_finite in H. congruence.
    + apply leb_finite in H. congruence.
Qed.

Lemma gtb_of_Z (a b : Z) : gtb (of_Z a) (of_Z b) = (b <? a).
Proof.
  apply eq_true_iff_eq. unfold gtb, of_Z.
  rewrite ltb_finite, Z.ltb_lt, <- Zlt_Qlt. reflexivity.
Qed.

Lemma ltb_of_Z (a b : Z) : ltb (of_Z a) (of_Z b) = (a <? b).
Proof. exact (gtb_of_Z b a). Qed.

Lemma isFinite_inv (n : number) : isFinite n = true -> exists q, n = Finite q.
Proof. destruct n; simpl; intros H; try discriminate. eauto. Qed.

End NumberFacts.

(* ===================================================================== *)
(** * Selection state: clicks and region-list replacement                 *)
(* ===================================================================== *)

Section Selection.
Import ObjectDetectionView.

Lemma optZ_eqb_true (a : option Z) (b : Z) :
  optZ_eqb a b = true <-> a = Some b.
Proof.
  destruct a as [v|]; simpl.
  - rewrite Z.eqb_eq. split; [intros ->; reflexivity | intros [= ->]; reflexivity].
  - split; discriminate.
Qed.

Lemma optZ_eqb_false (a : option Z) (b : Z) :
  optZ_eqb a b = false <-> a <> Some b.
Proof.
  rewrite <- optZ_eqb_true. destruct (optZ_eqb a b); split; congruence.
Qed.

(** C1 (as stated, refuted): replacing the region list while the lamp
    (id 7) is hovered and clicked leaves [hoveredObjectId] at 7; only
    the clicked id is cleared. *)
Lemma objectsChanged_keeps_hover_example :
  hoveredObjectId
    (fst (objectsChanged Samples.roomProps Samples.mounted
            Samples.lampHoveredAndClicked)) = Some 7
  /\ clickedObjectId
       (fst (objectsChanged Samples.roomProps Samples.mounted
               Samples.lampHoveredAndClicked)) = None.
Proof. split; reflexivity. Qed.

(** C1 (amended): every replacement of the region list clears the
    selected (clicked) id and calls [onObjectClick] not at all; the
    hovered id is left exactly as it was. *)
Theorem objectsChanged_resets_clicked_only (p : Props) (r : Refs) (s : State) :
  clickedObjectId (fst (objectsChanged p r s)) = None
  /\ hoveredObjectId (fst (objectsChanged p r s)) = hoveredObjectId s
  /\ snd (objectsChanged p r s) = [].
Proof.
  unfold objectsChanged.
  destruct (imageRef r) as [imgRect|], (containerRef r) as [containerRect|];
    repeat split.
Qed.

(** C3: a click on region [R] deselects without any event when [R] is
    the selected region, and otherwise selects [R] and calls
    [onObjectClick] exactly once, with [R]; the hovered id is untouched
    either way. *)
Theorem handleObjectClick_toggle (s : State) (R : SegmentedObject) :
  (clickedObjectId s = Some (object_id R) ->
     clickedObjectId (fst (handleObjectClick s R)) = None
     /\ snd (handleObjectClick s R) = [])
  /\ (clickedObjectId s <> Some (object_id R) ->
     clickedObjectId (fst (handleObjectClick s R)) = Some (object_id R)
     /\ snd (handleObjectClick s R) = [OnObjectClick R])
  /\ hoveredObjectId (fst (handleObjectClick s R)) = hoveredObjectId s.
Proof.
  unfold handleObjectClick.
  destruct (optZ_eqb (clickedObjectId s) (object_id R)) eqn:E.
  - apply optZ_eqb_true in E. split; [|split].
    + intros _. split; reflexivity.
    + intros Hne. contradiction.
    + reflexivity.
  - apply optZ_eqb_false in E. split; [|split].
    + intros Heq. contradiction.
    + intros _. split; reflexivity.
    + reflexivity.
Qed.

(** C3 at concrete inputs: with the lamp selected, a click on the lamp
    deselects silently and a click on the sofa selects it with one event. *)
Lemma handleObjectClick_toggle_example :
  (clickedObjectId (fst (handleObjectClick Samples.lampHoveredAndClicked Samples.lamp)) = None
   /\ snd (handleObjectClick Samples.lampHoveredAndClicked Samples.lamp) = [])
  /\ (clickedObjectId (fst (handleObjectClick Samples.lampHoveredAndClicked Samples.sofa)) = Some 1
      /\ snd (handleObjectClick Samples.lampHoveredAndClicked Samples.sofa)
         = [OnObjectClick Samples.sofa]).
Proof.
  split.
  - apply (proj1 (handleObjectClick_toggle Samples.lampHoveredAndClicked Samples.lamp)).
    reflexivity.
  - apply (proj1 (proj2 (handleObjectClick_toggle Samples.lampHoveredAndClicked Samples.sofa))).
    simpl. discriminate.
Defined.

End Selection.

(* ===================================================================== *)
(** * Hover hit-testing                                                   *)
(* ===================================================================== *)

Section HitTesting.
Import ObjectDetectionView.

Variables (p : Props) (r : Refs) (s : State) (mouseX mouseY : number).

(** Regions that are not hit are skipped by the loop. *)
Lemma firstHit_skips (missed rest : list SegmentedObject) :
  (forall o, In o missed -> hit p r s mouseX mouseY o = false) ->
  firstHit p r s mouseX mouseY (missed ++ rest) = firstHit p r s mouseX mouseY rest.
Proof.
  induction missed as [|o missed IH]; intros Hmiss; simpl; [reflexivity|].
  rewrite (Hmiss o) by (left; reflexivity).
  apply IH. intros o' Ho'. apply Hmiss. right. exact Ho'.
Qed.

Lemma firstHit_none (visited : list SegmentedObject) :
  (forall o, In o visited -> hit p r s mouseX mouseY o = false) ->
  firstHit p r s mouseX mouseY visited = None.
Proof.
  intros Hmiss. rewrite <- (app_nil_r visited).
  rewrite firstHit_skips by exact Hmiss. reflexivity.
Qed.


Lemma hitTest_no_hit :
  (forall o, In o (objects p) -> hit p r s mouseX mouseY o = false) ->
  hitTest p r s mouseX mouseY = None.
Proof.
  intros Hmiss. unfold hitTest. apply firstHit_none.
  intros o Ho. apply Hmiss. apply in_rev. exact Ho.
Qed.

End HitTesting.

Section HitGeometry.
Import ObjectDetectionView.

(** With finite, non-zero geometry the loop's test says that the pointer
    lies in the region's rectangle scaled to the displayed image. *)
Lemma hit_scaled_rectangle (p : Props) (r : Refs) (s : State)
    (imgRect containerRect : DOMRect) (obj : SegmentedObject)
    (dW dH ox oy oW oH a1 b1 a2 b2 mx my : Q) :
  imageRef r = Some imgRect -> containerRef r = Some containerRect ->
  imageInfo s = mkInfo (Finite dW) (Finite dH) (Finite ox) (Finite oy) ->
  imageWidth p = Finite oW -> imageHeight p = Finite oH ->
  bbox obj = mkBBox (Finite a1) (Finite b1) (Finite a2) (Finite b2) ->
  ~ (dW == 0)%Q -> ~ (dH == 0)%Q -> ~ (oW == 0)%Q -> ~ (oH == 0)%Q ->
  hit p r s (Finite mx) (Finite my) obj = true <->
  (a1 * (dW / oW) <= mx <= a2 * (dW / oW)
   /\ b1 * (dH / oH) <= my <= b2 * (dH / oH))%Q.
Proof.
  intros Himg Hcont Hinfo Hw Hh Hbox HdW HdH HoW HoH.
  unfold hit, getDisplayBbox. rewrite Himg, Hcont, Hinfo, Hw, Hh, Hbox.
  cbn [displayWidth displayHeight offsetX offsetY x1 y1 x2 y2].
  rewrite !strict_eq_zero_false by assumption. cbn [orb].
  rewrite !div_finite by assumption.
  unfold containsPointer, geb.
  cbn [d_x1 d_y1 d_x2 d_y2 offsetX offsetY add sub mul neg].
  rewrite !andb_true_iff, !leb_finite. split.
  - intros [[[H1 H2] H3] H4]. repeat split; lra.
  - intros [[H1 H2] [H3 H4]]. repeat split; lra.
Qed.

End HitGeometry.

Section HoverHandler.
Import ObjectDetectionView.

Lemma handleMouseMove_nonempty (p : Props) (r : Refs) (s : State) (e : MouseEvent)
    (imgRect containerRect : DOMRect) :
  imageRef r = Some imgRect -> containerRef r = Some containerRect ->
  objects p <> [] ->
  outsideImage imgRect (fst (mousePosition imgRect e)) (snd (mousePosition imgRect e)) = false ->
  handleMouseMove p r s e
  = setHoveredObjectId
      (hitTest p r s (fst (mousePosition imgRect e)) (snd (mousePosition imgRect e))) s.
Proof.
  intros Himg Hcont Hne Hin. unfold handleMouseMove.
  rewrite Himg, Hcont.
  destruct (objects p) as [|o objs] eqn:Hobjs; [contradiction|].
  simpl length.
  replace (Z.of_nat (S (length objs)) =? 0) with false by (symmetry; apply Z.eqb_neq; lia).
  destruct (mousePosition imgRect e) as [mx my]. simpl in Hin |- *.
  rewrite Hin. reflexivity.
Qed.




End HoverHandler.

(* ===================================================================== *)
(** * Mask outline extraction                                             *)
(* ===================================================================== *)

Section Outline.
Import ObjectDetectionView.

Lemma in_range (n v : Z) : In v (range n) <-> 0 <= v < n.
Proof.
  unfold range. rewrite in_map_iff. split.
  - intros [k [<- Hk]]. apply in_seq in Hk. lia.
  - intros Hv. exists (Z.to_nat v). split; [lia|]. apply in_seq. lia.
Qed.


Lemma length_range (n : Z) : length (range n) = Z.to_nat n.
Proof. unfold range. rewrite length_map. apply length_seq. Qed.




Lemma flat_map_constant_length {A B : Type} (f : A -> list B) (l : list A) (k : nat) :
  (forall a, In a l -> length (f a) = k) ->
  length (flat_map f l) = (k * length l)%nat.
Proof.
  induction l as [|a l IH]; intros Hf; simpl; [lia|].
  rewrite length_app, (Hf a) by (left; reflexivity).
  rewrite IH by (intros b Hb; apply Hf; right; exact Hb). lia.
Qed.







Lemma neighbourIsEdge_spec (W H : Z) (d : list Z) (nx ny : Z) :
  neighbourIsEdge W H d (nx, ny) = true <->
  outOfBounds W H nx ny \/ le128 (alphaAt W d nx ny) = true.
Proof.
  unfold neighbourIsEdge, outOfBounds.
  destruct (nx <? 0) eqn:E1; [apply Z.ltb_lt in E1; simpl; intuition lia|].
  destruct (nx >=? W) eqn:E2; [apply Z.geb_le in E2; simpl; intuition lia|].
  destruct (ny <? 0) eqn:E3; [apply Z.ltb_lt in E3; simpl; intuition lia|].
  destruct (ny >=? H) eqn:E4; [apply Z.geb_le in E4; simpl; intuition lia|].
  simpl. apply Z.ltb_ge in E1, E3.
  rewrite Z.geb_leb in E2, E4. apply Z.leb_gt in E2, E4.
  intuition lia.
Qed.

Lemma isEdge_spec (W H : Z) (d : list Z) (x y : Z) :
  isEdge W H d x y = true <->
  exists nx ny,
    ((nx, ny) = (x - 1, y) \/ (nx, ny) = (x + 1, y)
     \/ (nx, ny) = (x, y - 1) \/ (nx, ny) = (x, y + 1))
    /\ (outOfBounds W H nx ny \/ le128 (alphaAt W d nx ny) = true).
Proof.
  unfold isEdge. rewrite existsb_exists. split.
  - intros [[nx ny] [Hin Hn]]. exists nx, ny.
    apply neighbourIsEdge_spec in Hn. split; [|exact Hn].
    simpl in Hin. intuition congruence.
  - intros (nx & ny & Hin & Hn). exists (nx, ny).
    split; [|apply neighbourIsEdge_spec; exact Hn].
    simpl. intuition congruence.
Qed.

Lemma gt128_not_le128 (v : option Z) : gt128 v = true -> le128 v = false.
Proof.
  destruct v as [a|]; simpl; [|reflexivity].
  intros Ha. apply Z.ltb_lt in Ha. apply Z.leb_gt. exact Ha.
Qed.

Lemma opaque_spec (W H : Z) (d : list Z) :
  opaque W H d = true ->
  forall x y, 0 <= x < W -> 0 <= y < H -> gt128 (alphaAt W d x y) = true.
Proof.
  unfold opaque. intros Hop x y Hx Hy.
  rewrite forallb_forall in Hop.
  specialize (Hop y (proj2 (in_range H y) Hy)).
  rewrite forallb_forall in Hop.
  exact (Hop x (proj2 (in_range W x) Hx)).
Qed.

(** On an opaque raster a pixel is an edge exactly on the border. *)
Lemma isEdge_opaque (W H : Z) (d : list Z) (x y : Z) :
  opaque W H d = true -> 0 <= x < W -> 0 <= y < H ->
  isEdge W H d x y = (x =? 0) || (x =? W - 1) || (y =? 0) || (y =? H - 1).
Proof.
  intros Hop Hx Hy.
  pose proof (opaque_spec W H d Hop) as Ha.
  apply eq_true_iff_eq. rewrite isEdge_spec.
  rewrite !orb_true_iff, !Z.eqb_eq. split.
  - intros (nx & ny & Hn & [Hout | Hle]).
    + unfold outOfBounds in Hout.
      destruct Hn as [Hn | [Hn | [Hn | Hn]]]; injection Hn as -> ->; lia.
    + destruct (Z_lt_dec nx 0); [destruct Hn as [Hn | [Hn | [Hn | Hn]]]; injection Hn as -> ->; lia|].
      destruct (Z_lt_dec ny 0); [destruct Hn as [Hn | [Hn | [Hn | Hn]]]; injection Hn as -> ->; lia|].
      destruct (Z_le_dec W nx); [destruct Hn as [Hn | [Hn | [Hn | Hn]]]; injection Hn as -> ->; lia|].
      destruct (Z_le_dec H ny); [destruct Hn as [Hn | [Hn | [Hn | Hn]]]; injection Hn as -> ->; lia|].
      rewrite (gt128_not_le128 _ (Ha nx ny ltac:(lia) ltac:(lia))) in Hle.
      discriminate.
  - intros [[[-> | ->] | ->] | ->].
    + exists (0 - 1), y. split; [auto|]. left. unfold outOfBounds. lia.
    + exists (W - 1 + 1), y. split; [auto|]. left. unfold outOfBounds. lia.
    + exists x, (0 - 1). split; [auto|]. left. unfold outOfBounds. lia.
    + exists x, (H - 1 + 1). split; [auto 6|]. left. unfold outOfBounds. lia.
Qed.

Lemma paintCell_opaque (W H : Z) (d : list Z) (x y : Z) :
  opaque W H d = true -> 0 <= x < W -> 0 <= y < H ->
  paintCell W H d y x
  = if (x =? 0) || (x =? W - 1) || (y =? 0) || (y =? H - 1) then [(x, y)] else [].
Proof.
  intros Hop Hx Hy. unfold paintCell.
  rewrite (opaque_spec W H d Hop x y Hx Hy), (isEdge_opaque W H d x y Hop Hx Hy).
  reflexivity.
Qed.










(** The promise of [createOutline] is never rejected. *)
Lemma createOutline_never_rejects (br : Browser) (maskUrl : string) :
  exists url, createOutline br maskUrl = Resolved url.
Proof.
  unfold createOutline.
  destruct (loadImage br maskUrl) as [img|]; [|eauto].
  destruct (maskContext br); simpl; [|eauto].
  destruct (outlineContext br); simpl; eauto.
Qed.

Lemma outlineLayerImage_fallback (acc : gmap Z string) (s : State)
    (obj : SegmentedObject) (maskUrl : string) :
  outlineLayerImage (snd (outlineSettled acc s obj (Resolved maskUrl))) obj maskUrl
  = maskUrl.
Proof.
  unfold outlineLayerImage, outlineSettled. simpl.
  rewrite lookup_insert_eq. destruct (truthy maskUrl); reflexivity.
Qed.

(** C8: when the mask fails to decode, or a 2d context is unavailable,
    [createOutline] resolves (it never rejects) with the raw mask url
    itself, and the outline layer of the region then shows that raw
    mask. *)
Theorem createOutline_falls_back (br : Browser) (maskUrl : string) :
  loadImage br maskUrl = None \/ maskContext br = false \/ outlineContext br = false ->
  createOutline br maskUrl = Resolved maskUrl
  /\ forall acc s obj,
       outlineLayerImage
         (snd (outlineSettled acc s obj (createOutline br maskUrl))) obj maskUrl
       = maskUrl.
Proof.
  intros Hfail.
  assert (Hres : createOutline br maskUrl = Resolved maskUrl).
  { unfold createOutline.
    destruct (loadImage br maskUrl) as [img|]; [|reflexivity].
    destruct Hfail as [Hload | [Hctx | Hctx]]; [discriminate | |].
    - rewrite Hctx. reflexivity.
    - rewrite Hctx. destruct (maskContext br); reflexivity. }
  split; [exact Hres|].
  intros acc s obj. rewrite Hres. apply outlineLayerImage_fallback.
Qed.

(** C8 at a concrete input: the sofa's mask in a browser that cannot
    decode it. *)
Lemma createOutline_falls_back_example :
  createOutline Samples.noDecode (maskUrlOf Samples.sofa)
  = Resolved (maskUrlOf Samples.sofa).
Proof.
  apply (createOutline_falls_back Samples.noDecode (maskUrlOf Samples.sofa)).
  left. reflexivity.
Defined.

End Outline.

(* ===================================================================== *)
(** * The drag box of the selector                                        *)
(* ===================================================================== *)

Section DragBox.
Import BoundingBoxSelector.

Lemma min_isMinOf (a b : number) :
  isFinite a = true -> isFinite b = true -> isMinOf (min a b) a b.
Proof.
  intros Ha Hb. apply isFinite_inv in Ha as [qa ->]. apply isFinite_inv in Hb as [qb ->].
  pose proof (min_max_finite qa qb) as H. unfold isMinOf, le. tauto.
Qed.

Lemma max_isMaxOf (a b : number) :
  isFinite a = true -> isFinite b = true -> isMaxOf (max a b) a b.
Proof.
  intros Ha Hb. apply isFinite_inv in Ha as [qa ->]. apply isFinite_inv in Hb as [qb ->].
  pose proof (min_max_finite qa qb) as H. unfold isMaxOf, le. tauto.
Qed.

Lemma min_le_max (a b : number) :
  isFinite a = true -> isFinite b = true -> le (min a b) (max a b).
Proof.
  intros Ha Hb. apply isFinite_inv in Ha as [qa ->]. apply isFinite_inv in Hb as [qb ->].
  exact (proj1 (min_max_finite qa qb)).
Qed.

Lemma dragBox_symmetric (a b : Pos) :
  isFinite (originalX a) = true -> isFinite (originalY a) = true ->
  isFinite (originalX b) = true -> isFinite (originalY b) = true ->
  box_eq (dragBox a b) (dragBox b a).
Proof.
  intros Hax Hay Hbx Hby. unfold box_eq, dragBox. simpl.
  apply isFinite_inv in Hax as [ax ->]. apply isFinite_inv in Hay as [ay ->].
  apply isFinite_inv in Hbx as [bx ->]. apply isFinite_inv in Hby as [by' ->].
  repeat split; first [apply min_comm_finite | apply max_comm_finite].
Qed.

(** C6: a pointer move during a drag stores and emits (once, through
    [onBboxChange], in original pixel space) the box whose [x1], [y1]
    are the per-axis minima and whose [x2], [y2] are the per-axis maxima
    of the start and the current point; so [x1 <= x2] and [y1 <= y2],
    and swapping the two endpoints gives the same box. *)
Theorem pointerMove_emits_normalised_box (p : Props) (r : Refs) (s : State)
    (e : MouseEvent) (start pos : Pos) :
  enabled p = true -> onBboxChange p = true ->
  isDrawing s = true -> startPos s = Some start ->
  getRelativeCoordinates r s e = Some pos ->
  isFinite (originalX start) = true -> isFinite (originalY start) = true ->
  isFinite (originalX pos) = true -> isFinite (originalY pos) = true ->
  bbox (fst (pointerMove p r s e)) = Some (dragBox start pos)
  /\ snd (pointerMove p r s e) = [OnBboxChange (Some (dragBox start pos))]
  /\ le (x1 (dragBox start pos)) (x2 (dragBox start pos))
  /\ le (y1 (dragBox start pos)) (y2 (dragBox start pos))
  /\ isMinOf (x1 (dragBox start pos)) (originalX start) (originalX pos)
  /\ isMaxOf (x2 (dragBox start pos)) (originalX start) (originalX pos)
  /\ isMinOf (y1 (dragBox start pos)) (originalY start) (originalY pos)
  /\ isMaxOf (y2 (dragBox start pos)) (originalY start) (originalY pos)
  /\ box_eq (dragBox start pos) (dragBox pos start).
Proof.
  intros Hen Hcb Hdraw Hstart Hpos Hsx Hsy Hpx Hpy.
  assert (Hmove : handleMouseMove p r s e
                  = {| state_after :=
                         {| isDrawing := isDrawing s;
                            bbox := Some (dragBox start pos);
                            startPos := startPos s;
                            currentPos := Some pos;
                            originalImageSize := originalImageSize s |};
                       bbox_write := WroteObject (dragBox start pos);
                       direct := [] |}).
  { unfold handleMouseMove. rewrite Hdraw, Hen, Hpos, Hstart. reflexivity. }
  unfold pointerMove, dispatch, bboxEffect. rewrite Hmove. simpl. rewrite Hcb.
  split; [reflexivity|]. split; [reflexivity|].
  split; [apply min_le_max; assumption|].
  split; [apply min_le_max; assumption|].
  split; [apply min_isMinOf; assumption|].
  split; [apply max_isMaxOf; assumption|].
  split; [apply min_isMinOf; assumption|].
  split; [apply max_isMaxOf; assumption|].
  apply dragBox_symmetric; assumption.
Qed.

(** C6 at a concrete input: a drag that started at original (200, 200)
    and moves to original (360, 300) emits that box. *)
Lemma pointerMove_emits_box_example :
  snd (pointerMove Samples.selectorProps Samples.mounted Samples.selectorDrawing
         Samples.overPillow)
  = [OnBboxChange (Some {| x1 := of_Z 200; y1 := of_Z 200;
                            x2 := of_Z 360; y2 := of_Z 300 |})].
Proof.
  exact (proj1 (proj2 (pointerMove_emits_normalised_box
           Samples.selectorProps Samples.mounted Samples.selectorDrawing
           Samples.overPillow
           {| x := of_Z 100; y := of_Z 100; originalX := of_Z 200; originalY := of_Z 200 |}
           {| x := of_Z 180; y := of_Z 150; originalX := of_Z 360; originalY := of_Z 300 |}
           eq_refl eq_refl eq_refl eq_refl eq_refl eq_refl eq_refl eq_refl eq_refl))).
Defined.

End DragBox.

(* ===================================================================== *)
(** * Coordinate mapping between original and display space               *)
(* ===================================================================== *)

Section CoordinateMapping.
Import ObjectDetectionView.

(** [getDisplayBbox] returns nothing while the view has no geometry:
    every one of the six guards is effective. *)
Lemma getDisplayBbox_guarded (p : Props) (r : Refs) (s : State) (b : BBox) :
  imageRef r = None \/ containerRef r = None
  \/ strict_eq (displayWidth (imageInfo s)) zero = true
  \/ strict_eq (displayHeight (imageInfo s)) zero = true
  \/ strict_eq (imageWidth p) zero = true
  \/ strict_eq (imageHeight p) zero = true ->
  getDisplayBbox p r s b = None.
Proof.
  unfold getDisplayBbox.
  intros [H | [H | [H | [H | [H | H]]]]]; rewrite ?H;
    destruct (imageRef r), (containerRef r); try reflexivity; try discriminate;
    rewrite ?H, ?orb_true_r; reflexivity.
Qed.

(** With a displayed image of non-zero size and finite inputs, the
    position that [getRelativeCoordinates] returns has finite (integer)
    original coordinates. *)
Lemma getRelativeCoordinates_finite (t : BoundingBoxSelector.State) (e : MouseEvent)
    (pos : BoundingBoxSelector.Pos)
    (cl ct cw ch il it dW dH oW oH ex ey : Q) :
  BoundingBoxSelector.originalImageSize t
  = BoundingBoxSelector.mkSize (Finite oW) (Finite oH) ->
  e = mkMouse (Finite ex) (Finite ey) ->
  ~ (dW == 0)%Q -> ~ (dH == 0)%Q ->
  BoundingBoxSelector.getRelativeCoordinates
    (mkRefs (Some (mkRect (Finite cl) (Finite ct) (Finite cw) (Finite ch)))
            (Some (mkRect (Finite il) (Finite it) (Finite dW) (Finite dH))))
    t e = Some pos ->
  exists X Y,
    BoundingBoxSelector.originalX pos = of_Z X
    /\ BoundingBoxSelector.originalY pos = of_Z Y.
Proof.
  intros Hsize -> HdW HdH.
  unfold BoundingBoxSelector.getRelativeCoordinates. rewrite Hsize.
  cbn [containerRef imageRef rect_left rect_top rect_width rect_height
       clientX clientY BoundingBoxSelector.width BoundingBoxSelector.height].
  destruct (strict_eq (Finite oW) zero); [discriminate|].
  match goal with |- (if ?c then _ else _) = _ -> _ => destruct c end;
    [discriminate|].
  rewrite !div_finite by assumption.
  intros [= <-]. cbn [BoundingBoxSelector.originalX BoundingBoxSelector.originalY
                      sub add neg mul round].
  eauto.
Qed.

(** Scaling a coordinate of the image stays inside the displayed image. *)
Lemma scaled_in_display (v full shown : Q) :
  (0 < full -> 0 < shown -> 0 <= v <= full ->
   0 <= v * (shown / full) <= shown)%Q.
Proof.
  intros Hfull Hshown [H0 H1].
  assert (Hk : (0 < shown / full)%Q).
  { apply Qlt_shift_div_l; [exact Hfull | lra]. }
  assert (Hkf : (shown / full * full == shown)%Q) by (field; lra).
  split.
  - apply Qmult_le_0_compat; lra.
  - rewrite <- Hkf at 2. rewrite (Qmult_comm (shown / full) full).
    apply Qmult_le_compat_r; lra.
Qed.

(** One axis of the round trip: scaled to the display, shifted by the
    offset into container coordinates, out to the viewport and back. *)
Lemma axis_roundtrip (origin offset v full shown : Q) :
  (0 < full -> 0 < shown ->
   (origin + (offset + v * (shown / full)) + - origin + - offset) * (full / shown) == v)%Q.
Proof. intros Hfull Hshown. field. split; lra. Qed.

(** The round trip in exact arithmetic: with one geometry snapshot
    shared by both directions (display and original sizes positive), a
    point inside the image bounds, its edges included, mapped to display
    space by [getDisplayBbox] and back by [getRelativeCoordinates]
    returns within one pixel of itself on each axis.  In doubles this
    holds a pixel inside the image and fails on its edge: see
    [toOriginal_toDisplay_roundtrip] below. *)
Lemma roundtrip_in_exact_arithmetic (p : Props) (s : State)
    (t : BoundingBoxSelector.State)
    (cl ct cw ch il it dW dH oW oH px py : Q) :
  let containerRect := mkRect (Finite cl) (Finite ct) (Finite cw) (Finite ch) in
  let imgRect := mkRect (Finite il) (Finite it) (Finite dW) (Finite dH) in
  let r := mkRefs (Some containerRect) (Some imgRect) in
  imageInfo s = updateImageInfo imgRect containerRect ->
  imageWidth p = Finite oW -> imageHeight p = Finite oH ->
  BoundingBoxSelector.originalImageSize t
  = BoundingBoxSelector.mkSize (Finite oW) (Finite oH) ->
  (0 < dW)%Q -> (0 < dH)%Q -> (0 < oW)%Q -> (0 < oH)%Q ->
  (0 <= px <= oW)%Q -> (0 <= py <= oH)%Q ->
  exists d pos X Y,
    getDisplayBbox p r s (pointBox px py) = Some d
    /\ BoundingBoxSelector.getRelativeCoordinates r t
         (pointerAt containerRect (d_x1 d) (d_y1 d)) = Some pos
    /\ BoundingBoxSelector.originalX pos = of_Z X
    /\ BoundingBoxSelector.originalY pos = of_Z Y
    /\ (px - 1 <= inject_Z X <= px + 1)%Q
    /\ (py - 1 <= inject_Z Y <= py + 1)%Q.
Proof.
  intros containerRect imgRect r Hinfo Hw Hh Hsize HdW HdH HoW HoH Hpx Hpy.
  unfold getDisplayBbox, BoundingBoxSelector.getRelativeCoordinates.
  rewrite Hinfo, Hw, Hh, Hsize.
  cbn [r imgRect containerRect imageRef containerRef updateImageInfo displayWidth
       displayHeight offsetX offsetY rect_width rect_height rect_left rect_top
       BoundingBoxSelector.width BoundingBoxSelector.height].
  rewrite !strict_eq_zero_false by lra. cbn [orb].
  rewrite !div_finite by lra.
  pose proof (scaled_in_display px oW dW HoW HdW Hpx) as Hsx.
  pose proof (scaled_in_display py oH dH HoH HdH Hpy) as Hsy.
  pose proof (axis_roundtrip cl (il + - cl) px oW dW HoW HdW) as Hrx.
  pose proof (axis_roundtrip ct (it + - ct) py oH dH HoH HdH) as Hry.
  do 4 eexists. split; [reflexivity|].
  cbn [pointerAt clientX clientY d_x1 d_y1 pointBox x1 y1 add sub mul neg
       rect_left rect_top containerRect].
  rewrite (ltb_finite_false _ (il + - cl)) by lra.
  rewrite (gtb_finite_false _ (il + - cl + dW)) by lra.
  rewrite (ltb_finite_false _ (it + - ct)) by lra.
  rewrite (gtb_finite_false _ (it + - ct + dH)) by lra.
  cbn [orb mul round BoundingBoxSelector.originalX BoundingBoxSelector.originalY].
  split; [reflexivity|]. split; [reflexivity|]. split; [reflexivity|].
  match goal with
  | |- (_ <= inject_Z (Qfloor (?qx + _)) <= _)%Q /\ (_ <= inject_Z (Qfloor (?qy + _)) <= _)%Q =>
      pose proof (round_nearest qx) as Hnx; pose proof (round_nearest qy) as Hny
  end.
  split; split; lra.
Qed.

(** C10 at the failing input: the image element is mounted but still
    0x0 (its rect is at (60, 30)), the original size is already known
    (800x600), and the pointer is exactly on that corner.  The display
    width and height are zero, yet [getRelativeCoordinates] does not
    return null: it divides by them and returns a position whose
    original coordinates are [NaN]. *)
Theorem getRelativeCoordinates_unsized_image :
  strict_eq (rect_width Samples.unsizedImgRect) zero = true
  /\ strict_eq (rect_height Samples.unsizedImgRect) zero = true
  /\ option_map BoundingBoxSelector.originalX
       (BoundingBoxSelector.getRelativeCoordinates Samples.mountedUnsized
          Samples.selectorIdle Samples.atImageCorner) = Some NaN
  /\ option_map BoundingBoxSelector.originalY
       (BoundingBoxSelector.getRelativeCoordinates Samples.mountedUnsized
          Samples.selectorIdle Samples.atImageCorner) = Some NaN.
Proof.
  unfold BoundingBoxSelector.getRelativeCoordinates. simpl.
  repeat split.
Qed.

End CoordinateMapping.

(* ===================================================================== *)
(** * Validation before upload                                            *)
(* ===================================================================== *)

Section Validation.
Import ImageUtils.

(** The size test in megabytes is the test in bytes. *)
Lemma fileSizeMB_test (size : Z) :
  gtb (div (of_Z size) (of_Z (1024 * 1024))) (of_Z 10) = (10 * 1024 * 1024 <? size).
Proof.
  unfold of_Z. rewrite div_finite by discriminate.
  apply eq_true_iff_eq. unfold gtb. rewrite ltb_finite, Z.ltb_lt.
  unfold Qlt, Qdiv, Qmult, Qinv. simpl. lia.
Qed.

(** [validateImageFile] by cases; its second size test never fires. *)
Lemma validateImageFile_cases (file : File) :
  validateImageFile file
  = if negb (String.prefix "image/" (file_type file)) then Some PleaseSelectImage
    else if 10 * 1024 * 1024 <? file_size file
         then Some (FileTooLarge (div (of_Z (file_size file)) (of_Z (1024 * 1024))))
         else None.
Proof.
  unfold validateImageFile.
  destruct (negb (String.prefix "image/" (file_type file))); [reflexivity|].
  rewrite fileSizeMB_test.
  destruct (10 * 1024 * 1024 <? file_size file) eqn:E; [reflexivity|].
  apply Z.ltb_ge in E.
  replace (file_size file >? 10 * 1024 * 1024) with false; [reflexivity|].
  symmetry. rewrite Z.gtb_ltb. apply Z.ltb_ge. exact E.
Qed.

Lemma validateImageDimensions_cases (br : Browser) (file : File) :
  validateImageDimensions br file
  = match decode br file with
    | Some d =>
        if ltb (width d) (of_Z 400) || ltb (height d) (of_Z 400)
        then Some (ImageTooSmall (width d) (height d))
        else None
    | None => Some FailedToReadDimensions
    end.
Proof.
  unfold validateImageDimensions, getImageDimensions.
  destruct (decode br file); reflexivity.
Qed.

(** Closes each of the five equivalences once the outcome is known. *)
Ltac settle_outcomes :=
  repeat split; intros;
  repeat match goal with
         | H : _ /\ _ |- _ => destruct H
         | H : exists _, _ |- _ => destruct H
         end;
  try discriminate; try congruence; eauto.

(** C9 (as stated, refuted): an 11 MiB text file exceeds the size
    ceiling yet fails with [InvalidType], not [TooLarge]; and a 2 MiB
    PNG that does not decode fails, with a message of its own that is
    none of the three kinds. *)
Lemma validate_order_and_decode_example :
  (10 * 1024 * 1024 <? file_size Samples.bigText) = true
  /\ option_map kind (validate Samples.uploadBrowser Samples.bigText) = Some InvalidType
  /\ String.prefix "image/" (file_type Samples.corruptPng) = true
  /\ (10 * 1024 * 1024 <? file_size Samples.corruptPng) = false
  /\ decode Samples.uploadBrowser Samples.corruptPng = None
  /\ validate Samples.uploadBrowser Samples.corruptPng = Some FailedToReadDimensions.
Proof. repeat split. Qed.

(** C9 (amended): the checks run in order and the first failure wins.
    Validation fails with [InvalidType] iff the MIME type is not an
    image type; with [TooLarge] iff the type is an image type and the
    size exceeds 10 MiB; with [TooSmall] iff type and size pass, the
    file decodes and its width or height is below 400; with the
    read-failure message iff type and size pass and the file does not
    decode; and it succeeds iff type and size pass and the file decodes
    to at least 400 x 400. *)
Theorem validate_outcomes (br : Browser) (file : File) :
  let isImage := String.prefix "image/" (file_type file) in
  let tooBig := 10 * 1024 * 1024 <? file_size file in
  (option_map kind (validate br file) = Some InvalidType <-> isImage = false)
  /\ (option_map kind (validate br file) = Some TooLarge <->
      isImage = true /\ tooBig = true)
  /\ (option_map kind (validate br file) = Some TooSmall <->
      isImage = true /\ tooBig = false
      /\ exists d, decode br file = Some d
                   /\ ltb (width d) (of_Z 400) || ltb (height d) (of_Z 400) = true)
  /\ (validate br file = Some FailedToReadDimensions <->
      isImage = true /\ tooBig = false /\ decode br file = None)
  /\ (validate br file = None <->
      isImage = true /\ tooBig = false
      /\ exists d, decode br file = Some d
                   /\ ltb (width d) (of_Z 400) || ltb (height d) (of_Z 400) = false).
Proof.
  intros isImage tooBig. unfold validate.
  rewrite validateImageFile_cases, validateImageDimensions_cases.
  fold isImage tooBig.
  destruct isImage; simpl; [|settle_outcomes].
  destruct tooBig; simpl; [settle_outcomes|].
  destruct (decode br file) as [d|]; [|settle_outcomes].
  destruct (ltb (width d) (of_Z 400) || ltb (height d) (of_Z 400)) eqn:Hsmall;
    simpl; settle_outcomes.
Qed.

(** C9 at concrete inputs: a 300x300 image fails with [TooSmall], an
    11 MiB image file fails with [TooLarge], and a 500x500 image of
    2 MiB passes. *)
Lemma validate_outcomes_examples :
  option_map kind (validate Samples.uploadBrowser Samples.thumbPng) = Some TooSmall
  /\ option_map kind (validate Samples.uploadBrowser Samples.hugeJpeg) = Some TooLarge
  /\ validate Samples.uploadBrowser Samples.squareJpeg = None.
Proof.
  split; [|split].
  - apply (proj1 (proj2 (proj2 (validate_outcomes Samples.uploadBrowser Samples.thumbPng)))).
    split; [reflexivity|]. split; [reflexivity|].
    exists (Samples.dims 300 300). split; reflexivity.
  - apply (proj1 (proj2 (validate_outcomes Samples.uploadBrowser Samples.hugeJpeg))).
    split; reflexivity.
  - apply (proj2 (proj2 (proj2 (proj2 (validate_outcomes Samples.uploadBrowser Samples.squareJpeg))))).
    split; [reflexivity|]. split; [reflexivity|].
    exists (Samples.dims 500 500). split; reflexivity.
Defined.

End Validation.

(* ===================================================================== *)
(** * Resizing before upload                                              *)
(* ===================================================================== *)

Section Resize.
Import ImageUtils.

Lemma round_nearestInteger (q : Q) : nearestInteger (Qfloor (q + (1 # 2))) q.
Proof.
  unfold nearestInteger. pose proof (round_nearest q) as [Hle Hlt]. split; assumption.
Qed.

(** The scaled side [round (side * M / long)], for [long > 0]. *)
Lemma scaled_side (side M long : Z) :
  0 < long ->
  round (div (mul (of_Z side) (of_Z M)) (of_Z long))
  = of_Z (Qfloor (inject_Z side * inject_Z M / inject_Z long + (1 # 2))).
Proof.
  intros Hlong. unfold of_Z at 1 2 3. cbn [mul].
  rewrite div_finite; [reflexivity|].
  intros Heq. unfold Qeq in Heq. simpl in Heq. lia.
Qed.

(** The scaled side never exceeds the bound when it belongs to the
    side that is not the longer one. *)
Lemma scaled_side_le (side M long : Z) :
  0 < long -> 0 < M -> 0 <= side <= long ->
  Qfloor (inject_Z side * inject_Z M / inject_Z long + (1 # 2)) <= M.
Proof.
  intros Hlong HM Hside.
  pose proof (round_nearest (inject_Z side * inject_Z M / inject_Z long)) as [Hle _].
  assert (HqM : (inject_Z side * inject_Z M / inject_Z long <= inject_Z M)%Q).
  { apply Qle_shift_div_r.
    - change 0%Q with (inject_Z 0). rewrite <- Zlt_Qlt. exact Hlong.
    - rewrite <- !inject_Z_mult, <- Zle_Qle. nia. }
  apply Z.lt_succ_r. rewrite Zlt_Qlt. unfold Z.succ. rewrite inject_Z_plus.
  change (inject_Z 1) with 1%Q. lra.
Qed.

Lemma newDimensions_cases (W H M : Z) :
  0 < W -> 0 < H -> 0 < M ->
  newDimensions (of_Z W) (of_Z H) (of_Z M)
  = if (M <? W) || (M <? H) then
      if H <? W
      then (of_Z M, of_Z (Qfloor (inject_Z H * inject_Z M / inject_Z W + (1 # 2))))
      else (of_Z (Qfloor (inject_Z W * inject_Z M / inject_Z H + (1 # 2))), of_Z M)
    else (of_Z W, of_Z H).
Proof.
  intros HW HH HM. unfold newDimensions.
  rewrite !gtb_of_Z.
  destruct ((M <? W) || (M <? H)); [|reflexivity].
  destruct (H <? W); rewrite scaled_side by assumption; reflexivity.
Qed.

Lemma preprocessImage_encodes (br : Browser) (file : File) (d : Dimensions)
    (maxDimension quality : number) :
  canvasContext br = true -> decode br file = Some d ->
  preprocessImage br file maxDimension quality
  = match toBlob br file
            (fst (newDimensions (width d) (height d) maxDimension))
            (snd (newDimensions (width d) (height d) maxDimension))
            "image/jpeg" quality with
    | Some blob =>
        Resolved {| file_blob := blob;
                    file_name := file_name file;
                    file_type := "image/jpeg";
                    file_lastModified := now br |}
    | None => Rejected "Image conversion failed"
    end.
Proof.
  intros Hctx Hdec. unfold preprocessImage. rewrite Hctx, Hdec. simpl negb. cbv iota.
  destruct (newDimensions (width d) (height d) maxDimension) as [w h]. reflexivity.
Qed.

(** C2 (as stated, refuted): a 1000x800 PNG is within the 1920 bound,
    yet [preprocessImage] does not hand it back: it resolves with a new
    JPEG file that holds the blob produced by the canvas encoder. *)
Lemma preprocessImage_reencodes_small_example :
  decode Samples.uploadBrowser Samples.roomPng = Some (Samples.dims 1000 800)
  /\ file_type Samples.roomPng = "image/png"%string
  /\ preprocessImage Samples.uploadBrowser Samples.roomPng (of_Z 1920) (Finite (9 # 10))
     = Resolved {| file_blob := {| blob_data := 101; blob_size := 300000 |};
                   file_name := "room.png";
                   file_type := "image/jpeg";
                   file_lastModified := 1700000001000 |}
  /\ preprocessImage Samples.uploadBrowser Samples.roomPng (of_Z 1920) (Finite (9 # 10))
     <> Resolved Samples.roomPng.
Proof.
  split; [reflexivity|]. split; [reflexivity|]. split; [reflexivity|].
  intros Heq. discriminate Heq.
Qed.

(** C2 (amended): [preprocessImage] draws the decoded image on a canvas
    of [w] x [h] and resolves with a new JPEG file made of the blob the
    canvas encoder returns, whatever the size of the input.  When the
    longer side exceeds [maxDimension], the longer side of [w] x [h] is
    [maxDimension] and the other one is the aspect-preserving value
    rounded to the nearest integer (4000x2000 at 1920 gives 1920x960);
    otherwise [w] x [h] is the input size, and the image is re-encoded
    all the same.  The pass-through without re-encoding is the caller's:
    [processImageFile] keeps the file itself when neither side exceeds
    1920 and calls [preprocessImage] only otherwise. *)
Theorem preprocessImage_resizes_and_reencodes (br : Browser) (file : File)
    (W H M : Z) (quality : number) :
  0 < W -> 0 < H -> 0 < M ->
  canvasContext br = true ->
  decode br file = Some {| width := of_Z W; height := of_Z H |} ->
  exists w h,
    newDimensions (of_Z W) (of_Z H) (of_Z M) = (of_Z w, of_Z h)
    /\ preprocessImage br file (of_Z M) quality
       = match toBlob br file (of_Z w) (of_Z h) "image/jpeg" quality with
         | Some blob =>
             Resolved {| file_blob := blob;
                         file_name := file_name file;
                         file_type := "image/jpeg";
                         file_lastModified := now br |}
         | None => Rejected "Image conversion failed"
         end
    /\ (M < Z.max W H ->
        Z.max w h = M
        /\ (H < W -> w = M
                     /\ nearestInteger h (inject_Z H * inject_Z M / inject_Z W))
        /\ (W <= H -> h = M
                      /\ nearestInteger w (inject_Z W * inject_Z M / inject_Z H)))
    /\ (Z.max W H <= M -> w = W /\ h = H)
    /\ (Z.max W H <= 1920 ->
        resizeIfNeeded br file {| width := of_Z W; height := of_Z H |} = inr file)
    /\ newDimensions (of_Z 4000) (of_Z 2000) (of_Z 1920) = (of_Z 1920, of_Z 960).
Proof.
  intros HW HH HM Hctx Hdec.
  pose proof (newDimensions_cases W H M HW HH HM) as Hnew.
  pose proof (preprocessImage_encodes br file _ (of_Z M) quality Hctx Hdec) as Henc.
  cbn [width height] in Henc.
  assert (Hpass : Z.max W H <= 1920 ->
                  resizeIfNeeded br file {| width := of_Z W; height := of_Z H |} = inr file).
  { intros Hmax. unfold resizeIfNeeded. cbn [width height]. rewrite !gtb_of_Z.
    replace (1920 <? W) with false by (symmetry; apply Z.ltb_ge; lia).
    replace (1920 <? H) with false by (symmetry; apply Z.ltb_ge; lia).
    reflexivity. }
  destruct ((M <? W) || (M <? H)) eqn:Hover.
  - apply orb_true_iff in Hover. rewrite !Z.ltb_lt in Hover.
    destruct (H <? W) eqn:Hwide.
    + apply Z.ltb_lt in Hwide.
      exists M, (Qfloor (inject_Z H * inject_Z M / inject_Z W + (1 # 2))).
      rewrite Hnew in Henc. cbn [fst snd] in Henc.
      pose proof (scaled_side_le H M W HW HM ltac:(lia)) as Hle.
      split; [exact Hnew|]. split; [exact Henc|].
      split; [|split; [lia | split; [exact Hpass | reflexivity]]].
      intros _. split; [lia|]. split.
      * intros _. split; [reflexivity | apply round_nearestInteger].
      * intros Hnot. lia.
    + apply Z.ltb_ge in Hwide.
      exists (Qfloor (inject_Z W * inject_Z M / inject_Z H + (1 # 2))), M.
      rewrite Hnew in Henc. cbn [fst snd] in Henc.
      pose proof (scaled_side_le W M H HH HM ltac:(lia)) as Hle.
      split; [exact Hnew|]. split; [exact Henc|].
      split; [|split; [lia | split; [exact Hpass | reflexivity]]].
      intros _. split; [lia|]. split.
      * intros Hnot. lia.
      * intros _. split; [reflexivity | apply round_nearestInteger].
  - apply orb_false_iff in Hover. rewrite !Z.ltb_ge in Hover.
    exists W, H. rewrite Hnew in Henc. cbn [fst snd] in Henc.
    split; [exact Hnew|]. split; [exact Henc|].
    split; [lia|]. split; [auto|]. split; [exact Hpass | reflexivity].
Qed.

(** C2 at a concrete input: the 4000x2000 JPEG at 1920. *)
Lemma preprocessImage_resizes_wide_example :
  exists w h,
    newDimensions (of_Z 4000) (of_Z 2000) (of_Z 1920) = (of_Z w, of_Z h)
    /\ Z.max w h = 1920
    /\ preprocessImage Samples.uploadBrowser Samples.wideJpeg (of_Z 1920) (Finite (85 # 100))
       = match toBlob Samples.uploadBrowser Samples.wideJpeg (of_Z w) (of_Z h)
                 "image/jpeg" (Finite (85 # 100)) with
         | Some blob =>
             Resolved {| file_blob := blob;
                         file_name := file_name Samples.wideJpeg;
                         file_type := "image/jpeg";
                         file_lastModified := now Samples.uploadBrowser |}
         | None => Rejected "Image conversion failed"
         end.
Proof.
  destruct (preprocessImage_resizes_and_reencodes Samples.uploadBrowser Samples.wideJpeg
              4000 2000 1920 (Finite (85 # 100))
              ltac:(lia) ltac:(lia) ltac:(lia) eq_refl eq_refl)
    as (w & h & Hdims & Henc & Hover & _).
  exists w, h. split; [exact Hdims|]. split; [|exact Henc].
  apply Hover. simpl. lia.
Defined.

End Resize.

(* ===================================================================== *)
(** * Further properties of the detection view                            *)
(* ===================================================================== *)

Section HoverInvariant.
Import ObjectDetectionView.

Lemma firstHit_some (p : Props) (r : Refs) (s : State) (mouseX mouseY : number)
    (visited : list SegmentedObject) (id : Z) :
  firstHit p r s mouseX mouseY visited = Some id ->
  exists o, In o visited /\ object_id o = id /\ hit p r s mouseX mouseY o = true.
Proof.
  induction visited as [|o visited IH]; simpl; [discriminate|].
  destruct (hit p r s mouseX mouseY o) eqn:Hhit.
  - intros [= <-]. exists o. auto.
  - intros Hrest. destruct (IH Hrest) as (o' & Hin & Hid & Hhit').
    exists o'. auto.
Qed.

(** X1: a pointer move touches nothing but the hovered id, and the
    hovered id it leaves is the old one (early return), none, or the id
    of a region of the current list whose display rect contains the
    pointer. *)
Theorem handleMouseMove_hover_sound (p : Props) (r : Refs) (s : State) (e : MouseEvent) :
  clickedObjectId (handleMouseMove p r s e) = clickedObjectId s
  /\ maskImages (handleMouseMove p r s e) = maskImages s
  /\ maskOutlines (handleMouseMove p r s e) = maskOutlines s
  /\ imageInfo (handleMouseMove p r s e) = imageInfo s
  /\ (handleMouseMove p r s e = s
      \/ hoveredObjectId (handleMouseMove p r s e) = None
      \/ exists imgRect o,
           imageRef r = Some imgRect /\ In o (objects p)
           /\ hoveredObjectId (handleMouseMove p r s e) = Some (object_id o)
           /\ hit p r s (fst (mousePosition imgRect e))
                (snd (mousePosition imgRect e)) o = true).
Proof.
  unfold handleMouseMove.
  destruct (imageRef r) as [imgRect|]; [|repeat split; left; reflexivity].
  destruct (containerRef r) as [containerRect|]; [|repeat split; left; reflexivity].
  destruct (Z.of_nat (length (objects p)) =? 0); [repeat split; left; reflexivity|].
  unfold mousePosition. cbn [fst snd].
  set (mx := sub (clientX e) (rect_left imgRect)).
  set (my := sub (clientY e) (rect_top imgRect)).
  destruct (outsideImage imgRect mx my).
  { repeat split. right. left. reflexivity. }
  split; [reflexivity|]. split; [reflexivity|]. split; [reflexivity|].
  split; [reflexivity|].
  destruct (hitTest p r s mx my) as [id|] eqn:Hhit; [|right; left; reflexivity].
  right. right. unfold hitTest in Hhit.
  apply firstHit_some in Hhit as (o & Hin & Hid & Hho).
  exists imgRect, o. cbn [hoveredObjectId setHoveredObjectId]. rewrite <- Hid.
  split; [reflexivity|]. split; [apply in_rev; exact Hin|].
  split; [reflexivity|exact Hho].
Qed.

(** X2: while the view has no usable geometry (a display or image
    dimension is zero) no region is rendered, and a pointer move inside
    the image over a non-empty list ends with no hovered region. *)
Theorem no_geometry_no_overlay (p : Props) (r : Refs) (s : State) (e : MouseEvent)
    (imgRect containerRect : DOMRect) :
  imageRef r = Some imgRect -> containerRef r = Some containerRect ->
  strict_eq (displayWidth (imageInfo s)) zero = true
  \/ strict_eq (displayHeight (imageInfo s)) zero = true
  \/ strict_eq (imageWidth p) zero = true
  \/ strict_eq (imageHeight p) zero = true ->
  (forall obj, renderObject p r s obj = None)
  /\ (objects p <> [] ->
      outsideImage imgRect (fst (mousePosition imgRect e))
        (snd (mousePosition imgRect e)) = false ->
      hoveredObjectId (handleMouseMove p r s e) = None).
Proof.
  intros Himg Hcont Hzero.
  assert (Hnone : forall b, getDisplayBbox p r s b = None).
  { intros b. apply getDisplayBbox_guarded. tauto. }
  split.
  - intros obj. unfold renderObject. rewrite Hnone. reflexivity.
  - intros Hne Hin.
    rewrite (handleMouseMove_nonempty p r s e imgRect containerRect Himg Hcont Hne Hin).
    simpl. apply hitTest_no_hit. intros o _. unfold hit. rewrite Hnone. reflexivity.
Qed.

End HoverInvariant.

Section RenderPolicy.
Import ObjectDetectionView.

(** X3: the rendering policy of one region.  The hover outline and the
    segmentation highlight are never shown together; the label appears
    exactly when the region is hovered and not clicked, and then always
    in the highlighted style; the hit area takes pointer events exactly
    when the region is neither hovered nor clicked; and a clicked region
    whose mask is missing shows no outline, no highlight and no label. *)
Theorem renderObject_policy (p : Props) (r : Refs) (s : State)
    (obj : SegmentedObject) (v : RegionOverlay) :
  renderObject p r s obj = Some v ->
  let isHovered := optZ_eqb (hoveredObjectId s) (object_id obj) in
  let isClicked := optZ_eqb (clickedObjectId s) (object_id obj) in
  (hoverOutline v = true -> segmentationHighlight v = None)
  /\ hoverOutline v = isHovered && negb isClicked
  /\ categoryLabel v = (if isHovered && negb isClicked then Some true else None)
  /\ hitAreaActive v = negb isHovered && negb isClicked
  /\ clickableArea v = negb (hitAreaActive v)
  /\ (segmentationHighlight v <> None <->
      isClicked = true
      /\ exists url, maskImages s !! object_id obj = Some url /\ truthy url = true)
  /\ (isClicked = true -> maskImages s !! object_id obj = None ->
      hoverOutline v = false /\ segmentationHighlight v = None
      /\ categoryLabel v = None /\ clickableArea v = true).
Proof.
  unfold renderObject.
  destruct (getDisplayBbox p r s (bbox obj)) as [d|]; [|discriminate].
  intros [= <-]. cbn zeta.
  cbn [hoverOutline segmentationHighlight categoryLabel hitAreaActive clickableArea].
  destruct (maskImages s !! object_id obj) as [u|] eqn:Hu;
    [destruct (truthy u) eqn:Ht|];
    destruct (optZ_eqb (hoveredObjectId s) (object_id obj)),
             (optZ_eqb (clickedObjectId s) (object_id obj));
    cbn [orb andb negb];
    repeat split; intros;
    repeat match goal with
           | H : _ /\ _ |- _ => destruct H
           | H : exists _, _ |- _ => destruct H
           end;
    try discriminate; try congruence; eauto.
Qed.

(** X4: two consecutive clicks on one region call [onObjectClick]
    exactly once, whatever was selected before; afterwards the region is
    selected if it was selected at the start, and nothing is selected
    otherwise (a previous selection of another region is not restored). *)
Theorem handleObjectClick_twice (s : State) (R : SegmentedObject) :
  let first := handleObjectClick s R in
  let second := handleObjectClick (fst first) R in
  (snd first ++ snd second)%list = [OnObjectClick R]
  /\ clickedObjectId (fst second)
     = (if optZ_eqb (clickedObjectId s) (object_id R)
        then Some (object_id R) else None).
Proof.
  cbn zeta. unfold handleObjectClick.
  destruct (optZ_eqb (clickedObjectId s) (object_id R)) eqn:E;
    cbn [fst snd clickedObjectId setClickedObjectId optZ_eqb].
  - split; reflexivity.
  - rewrite Z.eqb_refl. cbn [fst snd clickedObjectId setClickedObjectId].
    split; reflexivity.
Qed.

End RenderPolicy.

Section MaskMaps.
Import ObjectDetectionView.

Section FoldInsert.
Variables (keep : SegmentedObject -> bool) (value : SegmentedObject -> string).

Lemma lookup_fold_other (objs : list SegmentedObject) (m : gmap Z string) (k : Z) :
  (forall o, In o objs -> keep o = true -> object_id o <> k) ->
  fold_left (storeObject keep value) objs m !! k = m !! k.
Proof.
  revert m. induction objs as [|o objs IH]; intros m Hother; simpl; [reflexivity|].
  rewrite IH by (intros o' Ho'; apply Hother; right; exact Ho').
  unfold storeObject. destruct (keep o) eqn:Hk; [|reflexivity].
  apply lookup_insert_ne. apply Hother; [left; reflexivity | exact Hk].
Qed.

Lemma lookup_fold_stored (objs : list SegmentedObject) (m : gmap Z string)
    (o : SegmentedObject) :
  List.NoDup (map object_id objs) -> In o objs -> keep o = true ->
  fold_left (storeObject keep value) objs m !! object_id o = Some (value o).
Proof.
  revert m. induction objs as [|o' objs IH]; intros m Hnd Hin Hk; [destruct Hin|].
  simpl in Hnd. apply NoDup_cons_iff in Hnd as [Hnotin Hnd].
  simpl. destruct Hin as [-> | Hin].
  - rewrite lookup_fold_other.
    + unfold storeObject. rewrite Hk. apply lookup_insert_eq.
    + intros o1 Ho1 _ Heq. apply Hnotin. rewrite <- Heq. apply in_map. exact Ho1.
  - apply IH; assumption.
Qed.

End FoldInsert.

(** X5: the raw mask urls stored when the region list changes.  An
    object with a mask is stored under its id with its data url (ids
    being distinct); an id that belongs to no object with a mask has no
    entry, so nothing of an earlier list is kept. *)
Theorem newMaskImages_lookup (objs : list SegmentedObject) :
  (List.NoDup (map object_id objs) ->
   forall o, In o objs -> truthy (mask_base64 o) = true ->
     newMaskImages objs !! object_id o = Some (maskUrlOf o))
  /\ (forall k,
        (forall o, In o objs -> truthy (mask_base64 o) = true -> object_id o <> k) ->
        newMaskImages objs !! k = None).
Proof.
  split.
  - intros Hnd o Hin Hmask.
    exact (lookup_fold_stored (fun o => truthy (mask_base64 o)) maskUrlOf objs ∅ o Hnd Hin Hmask).
  - intros k Hother.
    exact (lookup_fold_other (fun o => truthy (mask_base64 o)) maskUrlOf objs ∅ k Hother).
Qed.

Lemma settleOne_fst (br : Browser) (st : gmap Z string * State) (o : SegmentedObject) :
  fst (settleOne br st o)
  = storeObject (fun o => truthy (mask_base64 o)) (outlineUrlOf br) (fst st) o.
Proof.
  unfold settleOne, storeObject, outlineUrlOf.
  destruct (truthy (mask_base64 o)); [|reflexivity].
  destruct (createOutline_never_rejects br (maskUrlOf o)) as [url ->]. reflexivity.
Qed.

Lemma settleOne_snd (br : Browser) (st : gmap Z string * State) (o : SegmentedObject) :
  maskOutlines (snd (settleOne br st o))
  = if truthy (mask_base64 o) then fst (settleOne br st o) else maskOutlines (snd st).
Proof.
  unfold settleOne.
  destruct (truthy (mask_base64 o)); [|reflexivity].
  destruct (createOutline_never_rejects br (maskUrlOf o)) as [url ->]. reflexivity.
Qed.

Lemma settled_ownEntries (br : Browser) (run : EffectRun) (s : State) (k : nat)
    (obj : SegmentedObject) :
  ownEntries br run -> run_objects run !! k = Some obj ->
  ownEntries br {| run_objects := run_objects run;
                   newMaskOutlines := fst (settleOne br (newMaskOutlines run, s) obj) |}.
Proof.
  intros Hown Hobj key url. cbn [newMaskOutlines run_objects].
  rewrite settleOne_fst. unfold storeObject. cbn [fst].
  destruct (truthy (mask_base64 obj)) eqn:Hmask; [|apply Hown].
  rewrite lookup_insert_Some. intros [[<- <-] | [_ Hold]]; [|apply Hown; exact Hold].
  exists obj. split; [|auto].
  apply list_elem_of_In. apply (list_elem_of_lookup_2 _ k). exact Hobj.
Qed.

Lemma maskStep_ownEntries (br : Browser) (m : Mounted) (a : MaskStep) :
  allOwnEntries br m -> allOwnEntries br (maskStep br m a).
Proof.
  intros Hall. destruct a as [p r | i k]; cbn [maskStep].
  - intros j run. cbn [runs]. rewrite lookup_snoc_Some.
    intros [[_ Hold] | [_ <-]]; [exact (Hall j run Hold)|].
    intros key url. cbn [newMaskOutlines]. rewrite lookup_empty. discriminate.
  - destruct (runs m !! i) as [run|] eqn:Hrun; [|exact Hall].
    destruct (run_objects run !! k) as [obj|] eqn:Hobj; [|exact Hall].
    intros j run'. cbn [runs]. rewrite list_lookup_insert_Some.
    intros [(_ & <- & _) | [_ Hold]]; [|exact (Hall j run' Hold)].
    apply (settled_ownEntries br run (view m) k obj); [exact (Hall i run Hrun) | exact Hobj].
Qed.

Lemma maskRun_ownEntries (br : Browser) (trace : list MaskStep) (m : Mounted) :
  allOwnEntries br m -> allOwnEntries br (maskRun br m trace).
Proof.
  revert m. induction trace as [|a trace IH]; intros m Hall; [exact Hall|].
  cbn [maskRun fold_left]. apply IH. apply maskStep_ownEntries. exact Hall.
Qed.

(** Replacing the region list does not touch the outline cache. *)
Lemma objectsChanged_keeps_outlines (p : Props) (r : Refs) (s : State) :
  maskOutlines (fst (objectsChanged p r s)) = maskOutlines s.
Proof.
  unfold objectsChanged. destruct (imageRef r), (containerRef r); reflexivity.
Qed.

Lemma maskRun_replacements (br : Browser) (trace : list MaskStep) (m : Mounted) :
  (forall a, In a trace -> exists p r, a = ObjectsReplaced p r) ->
  maskOutlines (view (maskRun br m trace)) = maskOutlines (view m).
Proof.
  revert m. induction trace as [|a trace IH]; intros m Honly; [reflexivity|].
  cbn [maskRun fold_left].
  destruct (Honly a (or_introl eq_refl)) as (p & r & ->).
  etransitivity; [apply IH; intros a' Ha'; apply Honly; right; exact Ha'|].
  cbn [maskStep view]. apply objectsChanged_keeps_outlines.
Qed.

(** X6: the outline cache over the life of the component.  Replacing
    the region list does not touch [maskOutlines].  When the outline of
    a masked object settles, the cache becomes a copy of the map of the
    effect run that started that [createOutline], with the new outline
    added, whichever run that is: every entry of the cache is then the
    outline of a masked object of that run's own list, and an id that
    belongs to no masked object of that list has no entry.  So when a
    promise of an earlier run settles after one of the current run, the
    cache goes back to the entries of the earlier list and drops those
    of the current one. *)
Theorem maskOutlines_last_settled (br : Browser) (s : State)
    (trace : list MaskStep) (i k : nat) (run : EffectRun) (obj : SegmentedObject) :
  let before := maskRun br (unmounted s) trace in
  let after := maskStep br before (OutlineSettled i k) in
  runs before !! i = Some run ->
  run_objects run !! k = Some obj ->
  truthy (mask_base64 obj) = true ->
  ((forall a, In a trace -> exists p r, a = ObjectsReplaced p r) ->
   maskOutlines (view before) = maskOutlines s)
  /\ maskOutlines (view after)
     = <[object_id obj := outlineUrlOf br obj]> (newMaskOutlines run)
  /\ (forall key url, maskOutlines (view after) !! key = Some url ->
        exists o, In o (run_objects run) /\ truthy (mask_base64 o) = true
                  /\ object_id o = key /\ url = outlineUrlOf br o)
  /\ (forall key,
        (forall o, In o (run_objects run) -> truthy (mask_base64 o) = true ->
                   object_id o <> key) ->
        maskOutlines (view after) !! key = None).
Proof.
  intros before after Hrun Hobj Hmask.
  assert (Hinit : allOwnEntries br (unmounted s)).
  { intros j run' Hj. cbn in Hj. rewrite lookup_nil in Hj. discriminate. }
  pose proof (maskRun_ownEntries br trace (unmounted s) Hinit) as Hall.
  fold before in Hall.
  assert (Hcache : maskOutlines (view after)
                   = <[object_id obj := outlineUrlOf br obj]> (newMaskOutlines run)).
  { unfold after. cbn [maskStep]. rewrite Hrun, Hobj. cbn [view].
    rewrite settleOne_snd, Hmask, settleOne_fst.
    unfold storeObject. rewrite Hmask. reflexivity. }
  assert (Hown : forall key url, maskOutlines (view after) !! key = Some url ->
            exists o, In o (run_objects run) /\ truthy (mask_base64 o) = true
                      /\ object_id o = key /\ url = outlineUrlOf br o).
  { intros key url. rewrite Hcache, lookup_insert_Some.
    intros [[<- <-] | [_ Hold]].
    - exists obj. split; [|auto].
      apply list_elem_of_In. apply (list_elem_of_lookup_2 _ k). exact Hobj.
    - exact (Hall i run Hrun key url Hold). }
  split; [|split; [exact Hcache | split; [exact Hown|]]].
  - intros Honly. exact (maskRun_replacements br trace (unmounted s) Honly).
  - intros key Hother.
    destruct (maskOutlines (view after) !! key) as [url|] eqn:Hk; [|reflexivity].
    destruct (Hown key url Hk) as (o & Hin & Hm & Hid & _).
    exfalso. exact (Hother o Hin Hm Hid).
Qed.

End MaskMaps.

Section ThinMasks.
Import ObjectDetectionView.

(** X8: on a fully opaque raster that is at most two pixels wide or at
    most two pixels high every pixel has a neighbour outside the raster,
    so the outline is the whole mask: [W * H] pixels are painted. *)
Theorem outlinePixels_thin_opaque (W H : Z) (d : list Z) :
  0 <= W -> 0 <= H -> W <= 2 \/ H <= 2 ->
  opaque W H d = true ->
  Z.of_nat (length (outlinePixels W H d)) = W * H.
Proof.
  intros HW HH Hthin Hop. unfold outlinePixels.
  rewrite (flat_map_constant_length _ _ (Z.to_nat W)).
  - rewrite length_range. nia.
  - intros y Hy. apply in_range in Hy. unfold rowPixels.
    rewrite <- (length_range W). rewrite <- (Nat.mul_1_l (length (range W))).
    apply flat_map_constant_length. intros x Hx. apply in_range in Hx.
    rewrite (paintCell_opaque W H d x y Hop Hx Hy).
    replace ((x =? 0) || (x =? W - 1) || (y =? 0) || (y =? H - 1)) with true;
      [reflexivity|].
    symmetry. rewrite !orb_true_iff, !Z.eqb_eq. lia.
Qed.

End ThinMasks.

(* ===================================================================== *)
(** * Further properties of the box selector                              *)
(* ===================================================================== *)

Section SelectorMapping.
Import BoundingBoxSelector.

Lemma ltb_finite_false_inv (a b : Q) : ltb (Finite a) (Finite b) = false -> (b <= a)%Q.
Proof.
  intros Hf. apply Qnot_lt_le. intros Hlt. apply ltb_finite in Hlt. congruence.
Qed.

Lemma gtb_finite_false_inv (a b : Q) : gtb (Finite a) (Finite b) = false -> (a <= b)%Q.
Proof. unfold gtb. apply ltb_finite_false_inv. Qed.

(** The mapping reads the state only through [originalImageSize]. *)
Lemma getRelativeCoordinates_size_only (r : Refs) (s t : State) (e : MouseEvent) :
  originalImageSize s = originalImageSize t ->
  getRelativeCoordinates r s e = getRelativeCoordinates r t e.
Proof. intros Hsize. unfold getRelativeCoordinates. rewrite Hsize. reflexivity. Qed.

End SelectorMapping.

Section SelectorLife.
Import BoundingBoxSelector.

Lemma finiteRect_inv (rect : DOMRect) :
  finiteRect rect = true ->
  exists l t w h, rect = mkRect (Finite l) (Finite t) (Finite w) (Finite h).
Proof.
  unfold finiteRect. rewrite !andb_true_iff. intros [[[Hl Ht] Hw] Hh].
  destruct rect as [l t w h]. cbn in Hl, Ht, Hw, Hh.
  apply isFinite_inv in Hl as [ql ->]. apply isFinite_inv in Ht as [qt ->].
  apply isFinite_inv in Hw as [qw ->]. apply isFinite_inv in Hh as [qh ->].
  eauto.
Qed.

Lemma strict_eq_zero_inv (q : Q) : strict_eq (Finite q) zero = false -> ~ (q == 0)%Q.
Proof.
  cbn. intros Hf Heq. apply Qeq_bool_iff in Heq.
  change (inject_Z 0) with 0%Q in Hf. congruence.
Qed.

(** With measured geometry and finite inputs the mapped position has
    finite original coordinates. *)
Lemma measured_position_finite (r : Refs) (s : State) (e : MouseEvent) (pos : Pos) :
  measuredRefs r = true ->
  isFinite (clientX e) = true -> isFinite (clientY e) = true ->
  isFinite (width (originalImageSize s)) = true ->
  isFinite (height (originalImageSize s)) = true ->
  getRelativeCoordinates r s e = Some pos ->
  isFinite (originalX pos) = true /\ isFinite (originalY pos) = true.
Proof.
  unfold measuredRefs. intros Hr Hex Hey Hw Hh Hpos.
  destruct r as [[rect|] [imgRect|]]; cbn in Hr; try discriminate.
  rewrite !andb_true_iff, !negb_true_iff in Hr.
  destruct Hr as [[[Hrect Himg] HdW] HdH].
  apply finiteRect_inv in Hrect as (cl & ct & cw & ch & ->).
  apply finiteRect_inv in Himg as (il & it & dW & dH & ->).
  cbn in HdW, HdH.
  destruct e as [ex ey]. cbn in Hex, Hey.
  apply isFinite_inv in Hex as [qx ->]. apply isFinite_inv in Hey as [qy ->].
  destruct (originalImageSize s) as [w h] eqn:Hsize. cbn in Hw, Hh.
  apply isFinite_inv in Hw as [oW ->]. apply isFinite_inv in Hh as [oH ->].
  destruct (getRelativeCoordinates_finite s _ pos cl ct cw ch il it dW dH oW oH qx qy
              Hsize eq_refl (strict_eq_zero_inv dW HdW) (strict_eq_zero_inv dH HdH) Hpos)
    as (X & Y & -> & ->).
  split; reflexivity.
Qed.

Lemma leb_of_Z (a b : Z) : leb (of_Z a) (of_Z b) = (a <=? b).
Proof.
  unfold of_Z. cbn [leb]. apply eq_true_iff_eq.
  rewrite Qle_bool_iff, Z.leb_le. rewrite <- Zle_Qle. reflexivity.
Qed.

Lemma min_of_Z (a b : Z) : min (of_Z a) (of_Z b) = of_Z (Z.min a b).
Proof.
  unfold min. change (of_Z a) with (Finite (inject_Z a)) at 1.
  change (of_Z b) with (Finite (inject_Z b)) at 1.
  cbv iota. fold (of_Z a). fold (of_Z b). rewrite leb_of_Z.
  destruct (a <=? b) eqn:E; [apply Z.leb_le in E | apply Z.leb_gt in E];
    f_equal; lia.
Qed.

Lemma max_of_Z (a b : Z) : max (of_Z a) (of_Z b) = of_Z (Z.max a b).
Proof.
  unfold max. change (of_Z a) with (Finite (inject_Z a)) at 1.
  change (of_Z b) with (Finite (inject_Z b)) at 1.
  cbv iota. fold (of_Z a). fold (of_Z b). rewrite leb_of_Z.
  destruct (a <=? b) eqn:E; [apply Z.leb_le in E | apply Z.leb_gt in E];
    f_equal; lia.
Qed.

Lemma dragBox_normalised (start pos : Pos) :
  integerPos start -> integerPos pos -> normalised (dragBox start pos).
Proof.
  intros (SX & SY & Hsx & Hsy) (PX & PY & Hpx & Hpy).
  exists (Z.min SX PX), (Z.min SY PY), (Z.max SX PX), (Z.max SY PY).
  unfold dragBox. rewrite Hsx, Hsy, Hpx, Hpy.
  rewrite !min_of_Z, !max_of_Z. split; [reflexivity | lia].
Qed.

End SelectorLife.

Section SelectorGestures.
Import BoundingBoxSelector.

(** X11: a click on the clear button resets the selector to idle with no
    box and no positions, keeps the measured original size, and calls
    [onBboxChange(null)] once directly and, when a box was stored, a
    second time through the effect on [bbox]. *)
Theorem clear_resets_and_emits (p : Props) (s : State) :
  fst (step p s ClickClear)
  = {| isDrawing := false; bbox := None; startPos := None; currentPos := None;
       originalImageSize := originalImageSize s |}
  /\ snd (step p s ClickClear)
     = (if onBboxChange p then
          match bbox s with
          | Some _ => [OnBboxChange None; OnBboxChange None]
          | None => [OnBboxChange None]
          end
        else []).
Proof.
  cbn [step]. unfold dispatch, handleClear, bboxEffect.
  cbn [fst snd state_after bbox_write direct bbox bboxCellChanged].
  split; [reflexivity|].
  destruct (onBboxChange p), (bbox s); reflexivity.
Qed.

(** X12: a complete drag.  A press inside the image, a move inside the
    image and a release leave the selector idle with the normalised box
    of the two points stored; the consumer hears [null] first if an
    older box was replaced, then the new box on the move, and the same
    box once more on the release. *)
Theorem complete_drag (p : Props) (s : State) (r1 r2 : Refs) (e1 e2 : MouseEvent)
    (pos1 pos2 : Pos) :
  enabled p = true -> onBboxChange p = true ->
  getRelativeCoordinates r1 s e1 = Some pos1 ->
  getRelativeCoordinates r2 s e2 = Some pos2 ->
  run p s [MouseDown r1 e1; MouseMove r2 e2; MouseUp]
  = ({| isDrawing := false;
        bbox := Some (dragBox pos1 pos2);
        startPos := Some pos1;
        currentPos := Some pos2;
        originalImageSize := originalImageSize s |},
     (match bbox s with Some _ => [OnBboxChange None] | None => [] end
      ++ [OnBboxChange (Some (dragBox pos1 pos2));
          OnBboxChange (Some (dragBox pos1 pos2))])%list).
Proof.
  intros Hen Hcb Hp1 Hp2.
  cbn [run step]. unfold dispatch at 1, handleMouseDown. rewrite Hen, Hp1.
  cbn [negb state_after bbox_write direct app].
  set (s1 := {| isDrawing := true; bbox := None; startPos := Some pos1;
                currentPos := Some pos1; originalImageSize := originalImageSize s |}).
  assert (Hp2' : getRelativeCoordinates r2 s1 e2 = Some pos2).
  { rewrite <- Hp2. apply getRelativeCoordinates_size_only. reflexivity. }
  unfold dispatch at 1, handleMouseMove. rewrite Hen, Hp2'.
  cbn [s1 isDrawing startPos negb orb state_after bbox_write direct app bbox
       originalImageSize].
  unfold dispatch, handleMouseUp, bboxEffect.
  cbn [isDrawing negb state_after bbox_write direct bbox bboxCellChanged andb
       startPos currentPos originalImageSize app].
  rewrite Hcb. destruct (bbox s); reflexivity.
Qed.

(** X13: pointer events that do nothing.  A press or a move changes no
    state and emits nothing when the selector is disabled or the pointer
    is not on the image (or the original size is not known yet); a move
    or a release does nothing when no drag is in progress. *)
Theorem inert_pointer_events (p : Props) (s : State) (r : Refs) (e : MouseEvent) :
  (enabled p = false ->
     step p s (MouseDown r e) = (s, []) /\ step p s (MouseMove r e) = (s, []))
  /\ (getRelativeCoordinates r s e = None ->
     step p s (MouseDown r e) = (s, []) /\ step p s (MouseMove r e) = (s, []))
  /\ (isDrawing s = false ->
     step p s (MouseMove r e) = (s, []) /\ step p s MouseUp = (s, [])
     /\ step p s MouseLeave = (s, [])).
Proof.
  cbn [step]. unfold dispatch, handleMouseDown, handleMouseMove, handleMouseUp, bboxEffect.
  split; [|split].
  - intros ->. cbn [negb]. rewrite orb_true_r. split; reflexivity.
  - intros ->. destruct (enabled p), (isDrawing s); split; reflexivity.
  - intros ->. cbn [negb orb]. repeat split; reflexivity.
Qed.

Lemma min_self (a : number) : min a a = a.
Proof. unfold min. destruct a; try reflexivity. destruct (leb _ _); reflexivity. Qed.

Lemma max_self (a : number) : max a a = a.
Proof. unfold max. destruct a; try reflexivity. destruct (leb _ _); reflexivity. Qed.

Lemma step_positions_coincide (p : Props) (s : State) (a : Action) :
  (bbox s = None -> startPos s = currentPos s) ->
  bbox (fst (step p s a)) = None ->
  startPos (fst (step p s a)) = currentPos (fst (step p s a)).
Proof.
  intros Hinv.
  destruct a as [r e | r e | | | | size]; cbn [step]; unfold dispatch; cbn [fst].
  - unfold handleMouseDown. destruct (negb (enabled p)); [exact Hinv|].
    destruct (getRelativeCoordinates r s e); [reflexivity | exact Hinv].
  - unfold handleMouseMove.
    destruct (negb (isDrawing s) || negb (enabled p)); [exact Hinv|].
    destruct (getRelativeCoordinates r s e); [|exact Hinv].
    destruct (startPos s) eqn:Hs; [discriminate|].
    cbn [unhandled state_after]. rewrite Hs. exact Hinv.
  - unfold handleMouseUp. destruct (negb (isDrawing s)); exact Hinv.
  - unfold handleMouseUp. destruct (negb (isDrawing s)); exact Hinv.
  - reflexivity.
  - exact Hinv.
Qed.

Lemma run_positions_coincide (p : Props) (actions : list Action) (s : State) :
  (bbox s = None -> startPos s = currentPos s) ->
  bbox (fst (run p s actions)) = None ->
  startPos (fst (run p s actions)) = currentPos (fst (run p s actions)).
Proof.
  revert s. induction actions as [|a actions IH]; intros s Hinv; [exact Hinv|].
  cbn [run]. pose proof (step_positions_coincide p s a Hinv) as Hstep.
  destruct (step p s a) as [s1 out1]. cbn [fst] in Hstep.
  specialize (IH s1 Hstep). destruct (run p s1 actions) as [s2 out2]. exact IH.
Qed.

(** X14: whenever no box is stored, the start and the current position
    of the selector coincide; so the preview that [getDisplayBbox] falls
    back to while no box exists is always a rectangle of zero width and
    height. *)
Theorem preview_without_box_is_a_point (p : Props) (actions : list Action)
    (r : Refs) (preview : BoundingBox) :
  bbox (fst (run p initialState actions)) = None ->
  getDisplayBbox r (fst (run p initialState actions)) = Some preview ->
  startPos (fst (run p initialState actions))
  = currentPos (fst (run p initialState actions))
  /\ x1 preview = x2 preview /\ y1 preview = y2 preview.
Proof.
  intros Hnone Hprev.
  pose proof (run_positions_coincide p actions initialState (fun _ => eq_refl) Hnone)
    as Hsame.
  split; [exact Hsame|].
  unfold getDisplayBbox in Hprev. rewrite Hnone, Hsame in Hprev.
  destruct (imageRef r); [|discriminate]. destruct (containerRef r); [|discriminate].
  destruct (strict_eq _ _); [discriminate|].
  destruct (currentPos (fst (run p initialState actions))) as [pos|]; [|discriminate].
  injection Hprev as <-. cbn [x1 x2 y1 y2].
  rewrite !min_self, !max_self. split; reflexivity.
Qed.

End SelectorGestures.

Section TwoMappers.
Import BoundingBoxSelector.

(** X15: the two display mappings agree.  On one geometry snapshot,
    whenever the detection view maps a box to a display rect, the
    selector's [getDisplayBbox] maps the same stored box to the same
    four corners. *)
Theorem display_mappings_agree (vp : ObjectDetectionView.Props)
    (vs : ObjectDetectionView.State) (r : Refs) (t : State)
    (imgRect containerRect : DOMRect) (b : BoundingBox)
    (d : ObjectDetectionView.DisplayBbox) :
  imageRef r = Some imgRect -> containerRef r = Some containerRect ->
  ObjectDetectionView.imageInfo vs
  = ObjectDetectionView.updateImageInfo imgRect containerRect ->
  ObjectDetectionView.imageWidth vp = width (originalImageSize t) ->
  ObjectDetectionView.imageHeight vp = height (originalImageSize t) ->
  bbox t = Some b ->
  ObjectDetectionView.getDisplayBbox vp r vs
    (mkBBox (x1 b) (y1 b) (x2 b) (y2 b)) = Some d ->
  getDisplayBbox r t
  = Some {| x1 := ObjectDetectionView.d_x1 d; y1 := ObjectDetectionView.d_y1 d;
            x2 := ObjectDetectionView.d_x2 d; y2 := ObjectDetectionView.d_y2 d |}.
Proof.
  intros Himg Hcont Hinfo Hw Hh Hb.
  unfold ObjectDetectionView.getDisplayBbox, getDisplayBbox.
  rewrite Himg, Hcont, Hinfo, Hw, Hh, Hb.
  cbn [ObjectDetectionView.updateImageInfo ObjectDetectionView.displayWidth
       ObjectDetectionView.displayHeight ObjectDetectionView.offsetX
       ObjectDetectionView.offsetY].
  destruct (strict_eq (rect_width imgRect) zero); [discriminate|].
  destruct (strict_eq (rect_height imgRect) zero); [discriminate|].
  destruct (strict_eq (width (originalImageSize t)) zero); [discriminate|].
  destruct (strict_eq (height (originalImageSize t)) zero); [discriminate|].
  cbn [orb]. intros [= <-]. reflexivity.
Qed.

End TwoMappers.

(* ===================================================================== *)
(** * Further properties of the upload path                               *)
(* ===================================================================== *)

Section UploadPath.
Import ImageUtils.

(** X16: [validateImageFile] has three outcomes only.  Its second size
    test (in bytes) can never fire: every file above 10 MiB is already
    rejected by the test in megabytes, so the 'File size exceeds' message
    is never produced. *)
Theorem validateImageFile_outcomes (file : File) :
  (validateImageFile file = None
   /\ String.prefix "image/" (file_type file) = true
   /\ file_size file <= 10 * 1024 * 1024)
  \/ (validateImageFile file = Some PleaseSelectImage
      /\ String.prefix "image/" (file_type file) = false)
  \/ (exists fileSizeMB,
        validateImageFile file = Some (FileTooLarge fileSizeMB)
        /\ String.prefix "image/" (file_type file) = true
        /\ 10 * 1024 * 1024 < file_size file).
Proof.
  rewrite validateImageFile_cases.
  destruct (String.prefix "image/" (file_type file)); cbn [negb];
    [|right; left; split; reflexivity].
  destruct (10 * 1024 * 1024 <? file_size file) eqn:E.
  - right. right. eexists. split; [reflexivity|]. split; [reflexivity|].
    apply Z.ltb_lt. exact E.
  - left. split; [reflexivity|]. split; [reflexivity|]. apply Z.ltb_ge. exact E.
Qed.

(** X17: what [processImageFile] lets through.  A file it keeps (and
    sends to detection) is never above 10 MiB; it comes from an upload
    with an image MIME type, of at most 10 MiB, that decodes to at least
    400 x 400; and it is the uploaded file itself when neither side
    exceeds 1920, and otherwise a JPEG of the same name made by
    [preprocessImage]. *)
Theorem processImageFile_accepts (br : Browser) (file kept : File) :
  processImageFile br file = inr kept ->
  file_size kept <= 10 * 1024 * 1024
  /\ String.prefix "image/" (file_type file) = true
  /\ file_size file <= 10 * 1024 * 1024
  /\ exists d,
       decode br file = Some d
       /\ ltb (width d) (of_Z 400) || ltb (height d) (of_Z 400) = false
       /\ (gtb (width d) (of_Z 1920) || gtb (height d) (of_Z 1920) = false ->
           kept = file)
       /\ (gtb (width d) (of_Z 1920) || gtb (height d) (of_Z 1920) = true ->
           preprocessImage br file (of_Z 1920) (Finite (85 # 100)) = Resolved kept
           /\ file_type kept = "image/jpeg"%string
           /\ file_name kept = file_name file).
Proof.
  unfold processImageFile, validate.
  rewrite validateImageFile_cases, validateImageDimensions_cases.
  destruct (String.prefix "image/" (file_type file)); cbn [negb]; [|discriminate].
  destruct (10 * 1024 * 1024 <? file_size file) eqn:Hsize; [discriminate|].
  apply Z.ltb_ge in Hsize.
  unfold getImageDimensions.
  destruct (decode br file) as [d|] eqn:Hdec; [|discriminate].
  destruct (ltb (width d) (of_Z 400) || ltb (height d) (of_Z 400)) eqn:Hsmall;
    [discriminate|].
  unfold resizeIfNeeded.
  destruct (gtb (width d) (of_Z 1920) || gtb (height d) (of_Z 1920)) eqn:Hbig.
  - destruct (preprocessImage br file (of_Z 1920) (Finite (85 # 100)))
      as [processed|reason] eqn:Hpre; [|discriminate].
    destruct (file_size processed >? 10 * 1024 * 1024) eqn:Hkept; [discriminate|].
    intros [= <-]. rewrite Z.gtb_ltb in Hkept. apply Z.ltb_ge in Hkept.
    split; [exact Hkept|]. split; [reflexivity|]. split; [exact Hsize|].
    exists d. split; [reflexivity|]. split; [exact Hsmall|].
    split; [intros Hno; congruence|]. intros _. split; [reflexivity|].
    unfold preprocessImage in Hpre.
    destruct (negb (canvasContext br)); [discriminate|].
    rewrite Hdec in Hpre.
    destruct (newDimensions (width d) (height d) (of_Z 1920)) as [w h].
    destruct (toBlob br file w h "image/jpeg" (Finite (85 # 100))); [|discriminate].
    injection Hpre as <-. split; reflexivity.
  - destruct (file_size file >? 10 * 1024 * 1024) eqn:Hkept; [discriminate|].
    intros [= <-].
    split; [exact Hsize|]. split; [reflexivity|]. split; [exact Hsize|].
    exists d. split; [reflexivity|]. split; [exact Hsmall|].
    split; [reflexivity | intros Hyes; congruence].
Qed.

(** X18: resizing is idempotent.  The dimensions that [newDimensions]
    yields never exceed [maxDimension], so computing new dimensions for
    an image that was already resized to the same bound changes
    nothing. *)
Theorem newDimensions_idempotent (W H M : Z) :
  0 < W -> 0 < H -> 0 < M -> M < Z.max W H ->
  exists w h,
    newDimensions (of_Z W) (of_Z H) (of_Z M) = (of_Z w, of_Z h)
    /\ w <= M /\ h <= M
    /\ newDimensions (of_Z w) (of_Z h) (of_Z M) = (of_Z w, of_Z h).
Proof.
  intros HW HH HM Hover.
  assert (Hkeep : forall w h, w <= M -> h <= M ->
            newDimensions (of_Z w) (of_Z h) (of_Z M) = (of_Z w, of_Z h)).
  { intros w h Hw Hh. unfold newDimensions. rewrite !gtb_of_Z.
    replace (M <? w) with false by (symmetry; apply Z.ltb_ge; exact Hw).
    replace (M <? h) with false by (symmetry; apply Z.ltb_ge; exact Hh).
    reflexivity. }
  rewrite (newDimensions_cases W H M HW HH HM).
  replace ((M <? W) || (M <? H)) with true
    by (symmetry; rewrite orb_true_iff, !Z.ltb_lt; lia).
  destruct (H <? W) eqn:Hwide.
  - apply Z.ltb_lt in Hwide.
    pose proof (scaled_side_le H M W HW HM ltac:(lia)) as Hle.
    do 2 eexists. split; [reflexivity|]. split; [lia|]. split; [exact Hle|].
    apply Hkeep; [lia | exact Hle].
  - apply Z.ltb_ge in Hwide.
    pose proof (scaled_side_le W M H HH HM ltac:(lia)) as Hle.
    do 2 eexists. split; [reflexivity|]. split; [exact Hle|]. split; [lia|].
    apply Hkeep; [exact Hle | lia].
Qed.

End UploadPath.

(* ===================================================================== *)
(** * The API client and the search side of the page                      *)
(* ===================================================================== *)

Section ApiClient.
Import Api.

(** X20: the shared [catch] block throws an [ApiError] whatever it
    caught; an [ApiError] passes through unchanged, anything else gets
    status 0; so passing a failure through the block twice is the same
    as once. *)
Theorem rethrow_normalises (base : string) (err : Thrown) :
  (exists message status, rethrow base err = ApiError message status)
  /\ rethrow base (rethrow base err) = rethrow base err
  /\ (forall message status,
        err = ApiError message status -> rethrow base err = err)
  /\ ((forall message status, err <> ApiError message status) ->
      exists message, rethrow base err = ApiError message (of_Z 0)).
Proof.
  destruct err as [m | m st | m |]; cbn [rethrow].
  - destruct (includes "fetch" m); repeat split; eauto; intros; discriminate.
  - repeat split; eauto. intros Hno. exfalso. exact (Hno m st eq_refl).
  - repeat split; eauto. intros; discriminate.
  - repeat split; eauto. intros; discriminate.
Qed.

Lemma positive_is_truthy (k : number) : gtb k (of_Z 0) = true -> truthyNumber k = true.
Proof.
  destruct k as [q | | |]; cbn; try reflexivity; try discriminate.
  intros Hgt. apply negb_true_iff in Hgt. apply negb_true_iff.
  destruct (Qeq_bool q 0) eqn:E; [|reflexivity].
  apply Qeq_bool_iff in E. exfalso.
  assert (Hle : (q <= inject_Z 0)%Q) by (rewrite E; apply Qle_refl).
  apply Qle_bool_iff in Hle. congruence.
Qed.

(** X21: the form that [searchProducts] posts always carries exactly one
    image and exactly one [top_k], and the [top_k] is positive: the
    caller's value when that is greater than 0, and 20 otherwise (for a
    missing, zero, negative or NaN value).  [assigned_category] is sent
    exactly when a non-empty category was given. *)
Theorem searchFormData_fields (image : ImageUtils.File) (options : option SearchOptions) :
  field "image" (searchFormData image options) = [FileValue image]
  /\ field "top_k" (searchFormData image options) = [NumberText (topK options)]
  /\ gtb (topK options) (of_Z 0) = true
  /\ (forall o k, options = Some o -> options_top_k o = Some k ->
        topK options = if gtb k (of_Z 0) then k else of_Z 20)
  /\ (forall o, options = Some o -> options_top_k o = None -> topK options = of_Z 20)
  /\ (options = None -> topK options = of_Z 20)
  /\ field "assigned_category" (searchFormData image options)
     = match options with
       | Some o =>
           match options_category o with
           | Some c => if truthyString c then [TextValue c] else []
           | None => []
           end
       | None => []
       end.
Proof.
  assert (Hk : forall k,
            (if truthyNumber k && gtb k (of_Z 0) then k else of_Z 20)
            = (if gtb k (of_Z 0) then k else of_Z 20)).
  { intros k. destruct (gtb k (of_Z 0)) eqn:Hgt.
    - rewrite (positive_is_truthy k Hgt). reflexivity.
    - rewrite andb_false_r. reflexivity. }
  unfold searchFormData, field.
  destruct options as [[cat tk]|]; cbn [options_category options_top_k topK].
  - split; [destruct cat as [c|]; [destruct (truthyString c)|]; reflexivity|].
    split; [destruct cat as [c|]; [destruct (truthyString c)|]; reflexivity|].
    split.
    { destruct tk as [k|]; [|reflexivity]. rewrite Hk.
      destruct (gtb k (of_Z 0)) eqn:Hgt; [exact Hgt | reflexivity]. }
    split; [intros o k [= <-]; cbn [options_top_k]; intros ->; apply Hk|].
    split; [intros o [= <-]; cbn [options_top_k]; intros ->; reflexivity|].
    split; [intros Hf; discriminate Hf|].
    destruct cat as [c|]; [destruct (truthyString c)|]; reflexivity.
  - split; [reflexivity|]. split; [reflexivity|]. split; [reflexivity|].
    split; [intros o k Hf; discriminate Hf|].
    split; [intros o Hf; discriminate Hf|].
    split; reflexivity.
Qed.

End ApiClient.

Section SearchSide.
Import Api SearchInterface.

(** X22: when a detection run has ended, the loading flag is off, the
    uploaded image and the search results are as before, and the page is
    in exactly one of two conditions: regions are listed and no error is
    shown, or no region is listed and an error is shown.  After a
    failure the list is empty: the regions of an earlier image never
    stay. *)
Theorem runDetection_regions_or_error
    (response : Outcome DetectionSegmentationResponse) (s : State) :
  let s' := runDetectionAndSegmentation response s in
  detectionLoading s' = false
  /\ image s' = image s /\ searchResults s' = searchResults s
  /\ selectedCategory s' = selectedCategory s
  /\ (error s' = None <-> detectedObjects s' <> [])
  /\ (forall err, response = Threw err ->
        detectedObjects s' = [] /\ error s' <> None)
  /\ (forall resp, response = Returned resp ->
        detectedObjects s' = response_objects resp
        /\ imageWidth s' = image_width resp /\ imageHeight s' = image_height resp).
Proof.
  cbn zeta. unfold runDetectionAndSegmentation.
  destruct response as [resp|err];
    cbn [detectionLoading image searchResults selectedCategory error detectedObjects
         imageWidth imageHeight].
  - split; [reflexivity|]. split; [reflexivity|]. split; [reflexivity|].
    split; [reflexivity|]. split.
    + destruct (response_objects resp) as [|o objs]; cbn; split;
        intros H; try discriminate; try reflexivity; contradiction.
    + split; [intros err Hf; discriminate Hf|].
      intros resp' [= <-]. repeat split.
  - split; [reflexivity|]. split; [reflexivity|]. split; [reflexivity|].
    split; [reflexivity|]. split.
    + split; intros H; [discriminate | contradiction].
    + split; [intros err' _; split; [reflexivity | discriminate]|].
      intros resp Hf. discriminate Hf.
Qed.

(** X23: the search started by a click on a region.  With an image
    present exactly one form is posted, for that image, with the
    region's category and [top_k] 20; when the search has ended the
    loading flag is off, the selected category is the region's, and the
    results are the hits of the response, or empty after a failure, in
    which case an error is shown.  Without an image nothing is posted,
    the old results stay and 'No image available' is shown. *)
Theorem handleObjectClick_search (api : FormData -> Outcome SearchResponse)
    (s : State) (object : SegmentedObject) :
  let s' := fst (handleObjectClick api s object) in
  let posted := snd (handleObjectClick api s object) in
  searchLoading s' = false
  /\ selectedCategory s' = Some (category object)
  /\ detectedObjects s' = detectedObjects s /\ image s' = image s
  /\ (image s = None ->
      posted = [] /\ searchResults s' = searchResults s
      /\ error s' = Some "No image available"%string)
  /\ (forall img, image s = Some img ->
      exists form,
        posted = [form]
        /\ field "image" form = [FileValue img]
        /\ field "top_k" form = [NumberText (of_Z 20)]
        /\ field "assigned_category" form
           = (if truthyString (category object) then [TextValue (category object)] else [])
        /\ (forall resp, api form = Returned resp -> searchResults s' = hits resp)
        /\ (forall err, api form = Threw err ->
              searchResults s' = [] /\ error s' <> None)).
Proof.
  cbn zeta. unfold handleObjectClick.
  destruct (image s) as [img|] eqn:Himg.
  - set (form := searchFormData img _).
    assert (Hfields :
              field "image" form = [FileValue img]
              /\ field "top_k" form = [NumberText (of_Z 20)]
              /\ field "assigned_category" form
                 = (if truthyString (category object)
                    then [TextValue (category object)] else [])).
    { unfold form, searchFormData, field.
      destruct (truthyString (category object)) eqn:Hc;
        cbn [options_category options_top_k]; rewrite Hc; repeat split. }
    destruct (api form) as [resp|err] eqn:Hapi;
      cbn [fst snd searchLoading selectedCategory detectedObjects image
           searchResults error].
    + split; [reflexivity|]. split; [reflexivity|]. split; [reflexivity|].
      split; [reflexivity|]. split; [discriminate|].
      intros img' [= <-]. exists form. split; [reflexivity|].
      destruct Hfields as (Hf1 & Hf2 & Hf3).
      split; [exact Hf1|]. split; [exact Hf2|]. split; [exact Hf3|].
      rewrite Hapi. split; [intros resp' [= <-]; reflexivity|].
      intros err Hf. discriminate Hf.
    + split; [reflexivity|]. split; [reflexivity|]. split; [reflexivity|].
      split; [reflexivity|]. split; [discriminate|].
      intros img' [= <-]. exists form. split; [reflexivity|].
      destruct Hfields as (Hf1 & Hf2 & Hf3).
      split; [exact Hf1|]. split; [exact Hf2|]. split; [exact Hf3|].
      rewrite Hapi. split; [intros resp Hf; discriminate Hf|].
      intros err' _. split; [reflexivity | discriminate].
  - cbn [fst snd searchLoading selectedCategory detectedObjects image
         searchResults error].
    split; [reflexivity|]. split; [reflexivity|]. split; [reflexivity|].
    split; [reflexivity|]. split; [intros _; repeat split|].
    intros img Hf. discriminate Hf.
Qed.

(** X24: from the view to the request.  A click on the region that is
    already selected deselects it and starts no search: nothing is
    posted and the search state is untouched.  A click on any other
    region selects it and, when an image is present, posts exactly one
    search form. *)
Theorem regionClicked_requests (api : FormData -> Outcome SearchResponse)
    (view : ObjectDetectionView.State) (s : State) (object : SegmentedObject) :
  (ObjectDetectionView.clickedObjectId view = Some (object_id object) ->
     regionClicked api view s object
     = (ObjectDetectionView.setClickedObjectId None view, s, []))
  /\ (ObjectDetectionView.clickedObjectId view <> Some (object_id object) ->
     regionClicked api view s object
     = (ObjectDetectionView.setClickedObjectId (Some (object_id object)) view,
        fst (handleObjectClick api s object),
        snd (handleObjectClick api s object))
     /\ (image s <> None ->
         length (snd (handleObjectClick api s object)) = 1%nat)
     /\ (image s = None -> snd (handleObjectClick api s object) = [])).
Proof.
  unfold regionClicked, ObjectDetectionView.handleObjectClick. split.
  - intros Hsel. apply optZ_eqb_true in Hsel. rewrite Hsel. reflexivity.
  - intros Hnot. apply optZ_eqb_false in Hnot. rewrite Hnot.
    cbn [fold_left fst snd app].
    destruct (handleObjectClick api s object) as [s2 forms] eqn:Hclick.
    cbn [fst snd]. split; [reflexivity|].
    unfold handleObjectClick in Hclick.
    destruct (image s) as [img|].
    + split; [|intros Hf; discriminate Hf]. intros _.
      destruct (api _); injection Hclick as _ <-; reflexivity.
    + split; [intros Hf; contradiction|]. intros _.
      injection Hclick as _ <-. reflexivity.
Qed.

End SearchSide.

(* ===================================================================== *)
(** * The catalog form and the product cards                              *)
(* ===================================================================== *)

Section CatalogForm.
Import Api CatalogManager.

(** X25: the attributes field.  After an edit the field shows the
    'Invalid JSON format' error exactly when the text is not blank and
    does not parse; [parseAttributes] yields a value exactly when the
    text is not blank and parses to an object or an array.  So a text
    that parses to a number, a string, a boolean or null raises no error
    and yet is left out of the request. *)
Theorem attributes_error_and_value (rt : Runtime) (value : string) (s : State) :
  let s' := handleAttributesChange rt value s in
  attributesJson s' = value
  /\ (attributesError s' = Some InvalidJson <->
      truthyString (trim rt value) = true /\ jsonParse rt value = None)
  /\ (attributesError s' = None <->
      truthyString (trim rt value) = false \/ jsonParse rt value <> None)
  /\ (forall j, parseAttributes rt s' = Some j <->
        truthyString (trim rt value) = true
        /\ jsonParse rt value = Some j /\ isObject j = true)
  /\ (forall j, truthyString (trim rt value) = true ->
        jsonParse rt value = Some j -> isObject j = false ->
        attributesError s' = None /\ parseAttributes rt s' = None).
Proof.
  cbn zeta. unfold handleAttributesChange, parseAttributes.
  cbn [attributesJson attributesError].
  destruct (truthyString (trim rt value)); cbn [negb];
    destruct (jsonParse rt value) as [parsed|]; try destruct (isObject parsed) eqn:Hobj;
    repeat split; intros;
    repeat match goal with
           | H : _ /\ _ |- _ => destruct H
           | H : _ \/ _ |- _ => destruct H
           end;
    try discriminate; try congruence; auto.
  all: try (right; discriminate).
Qed.

(** X26: submitting the form.  [upsertCatalogItem] is called at most
    once, and only when the trimmed SKU is not empty, a category is
    chosen, an image is attached and the attributes show no error; it
    then gets the trimmed SKU, that category and image, and the parsed
    attributes.  The first check that fails decides the message.  When
    the submission has ended the loading flag is off; a success clears
    the whole form, a failure leaves every field as it was. *)
Theorem handleSubmit_gate (rt : Runtime) (api : Request -> Outcome CatalogUpsertResponse)
    (s : State) :
  let s' := fst (handleSubmit rt api s) in
  let requests := snd (handleSubmit rt api s) in
  (requests = [] \/
   exists img,
     image s = Some img
     /\ requests = [{| request_skuId := trim rt (skuId s);
                       request_category := category s;
                       request_image := img;
                       request_attributes := parseAttributes rt s |}])
  /\ (requests <> [] <->
      truthyString (trim rt (skuId s)) = true /\ truthyString (category s) = true
      /\ image s <> None /\ attributesError s = None)
  /\ (requests = [] ->
      error s'
      = Some (if negb (truthyString (trim rt (skuId s))) then SkuRequired
              else if negb (truthyString (category s)) then CategoryRequired
              else match image s with
                   | None => ImageRequired
                   | Some _ => FixJson
                   end)
      /\ skuId s' = skuId s /\ category s' = category s /\ image s' = image s
      /\ attributesJson s' = attributesJson s /\ loading s' = loading s)
  /\ (forall request response,
        requests = [request] -> api request = Returned response ->
        s' = {| skuId := ""; category := ""; image := None; preview := None;
                attributesJson := ""; attributesError := None; loading := false;
                success := Some (sku_id response, image_id response);
                error := None |})
  /\ (forall request err,
        requests = [request] -> api request = Threw err ->
        loading s' = false /\ error s' <> None /\ success s' = None
        /\ skuId s' = skuId s /\ category s' = category s /\ image s' = image s
        /\ attributesJson s' = attributesJson s).
Proof.
  cbn zeta. unfold handleSubmit.
  destruct (truthyString (trim rt (skuId s))) eqn:Hsku; cbn [negb].
  2:{ cbn [fst snd]. split; [left; reflexivity|].
      split; [split; [intros H; contradiction | intros (Hf & _); discriminate Hf]|].
      split; [intros _; repeat split|].
      split; intros ? ? Hf; discriminate Hf. }
  destruct (truthyString (category s)) eqn:Hcat; cbn [negb].
  2:{ cbn [fst snd]. split; [left; reflexivity|].
      split; [split; [intros H; contradiction | intros (_ & Hf & _); discriminate Hf]|].
      split; [intros _; repeat split|].
      split; intros ? ? Hf; discriminate Hf. }
  destruct (image s) as [img|] eqn:Himg.
  2:{ cbn [fst snd]. split; [left; reflexivity|].
      split; [split; [intros H; contradiction | intros (_ & _ & Hf & _); contradiction]|].
      split; [intros _; cbn [setError error skuId category image attributesJson loading];
              rewrite ?Himg; repeat split|].
      split; intros ? ? Hf; discriminate Hf. }
  destruct (attributesError s) as [e|] eqn:Hattr.
  { cbn [fst snd]. split; [left; reflexivity|].
    split; [split; [intros H; contradiction | intros (_ & _ & _ & Hf); discriminate Hf]|].
    split; [intros _; cbn [setError error skuId category image attributesJson loading];
            rewrite ?Himg; repeat split|].
    split; intros ? ? Hf; discriminate Hf. }
  set (request := {| request_skuId := trim rt (skuId s);
                     request_category := category s;
                     request_image := img;
                     request_attributes := parseAttributes rt s |}).
  destruct (api request) as [response|err] eqn:Hapi; cbn [fst snd].
  - split; [right; exists img; split; reflexivity|].
    split; [split; [intros _; repeat split; discriminate | intros _; discriminate]|].
    split; [intros Hf; discriminate Hf|].
    split.
    + intros request' response' [= <-]. rewrite Hapi. intros [= <-]. reflexivity.
    + intros request' err' [= <-]. rewrite Hapi. intros Hf. discriminate Hf.
  - split; [right; exists img; split; reflexivity|].
    split; [split; [intros _; repeat split; discriminate | intros _; discriminate]|].
    split; [intros Hf; discriminate Hf|].
    split.
    + intros request' response' [= <-]. rewrite Hapi. intros Hf. discriminate Hf.
    + intros request' err' [= <-] _. cbn. repeat split; try assumption; discriminate.
Qed.

(** X27: the catalog form and the search page decide differently on the
    same file.  The catalog form attaches a selected file exactly when
    its MIME type is an image type and it decodes to at least 400 x 400,
    whatever its size.  So every file that passes the search page's
    validation is attached by the catalog form too, while a file above
    10 MiB is attached by the catalog form alone.  A dropped file that
    is no image is ignored without any message, a selected one raises
    'Please select an image file'. *)
Theorem catalog_accepts (br : ImageUtils.Browser) (file : ImageUtils.File)
    (W H : Z) (s : State) :
  ImageUtils.decode br file
  = Some {| ImageUtils.width := of_Z W; ImageUtils.height := of_Z H |} ->
  (image (handleFileSelect br (Some file) s) = Some file <->
     (String.prefix "image/" (ImageUtils.file_type file) = true
      /\ 400 <= W /\ 400 <= H)
     \/ image s = Some file)
  /\ handleDrop br (Some file) s
     = (if String.prefix "image/" (ImageUtils.file_type file)
        then handleFileSelect br (Some file) s else s)
  /\ (String.prefix "image/" (ImageUtils.file_type file) = false ->
      error (handleFileSelect br (Some file) s) = Some PleaseSelectImage)
  /\ (ImageUtils.validate br file = None ->
      image (handleFileSelect br (Some file) s) = Some file
      /\ error (handleFileSelect br (Some file) s) = None)
  /\ (String.prefix "image/" (ImageUtils.file_type file) = true ->
      400 <= W -> 400 <= H -> 10 * 1024 * 1024 < ImageUtils.file_size file ->
      image (handleFileSelect br (Some file) s) = Some file
      /\ ImageUtils.validate br file <> None).
Proof.
  intros Hdec.
  assert (Hvalid : validateImageDimensions br file
                   = ((400 <=? W) && (400 <=? H),
                      if (400 <=? W) && (400 <=? H) then None
                      else Some (ImageTooSmall (of_Z W) (of_Z H)))).
  { unfold validateImageDimensions. rewrite Hdec.
    cbn [ImageUtils.width ImageUtils.height]. unfold geb.
    assert (Hle : forall a b, leb (of_Z a) (of_Z b) = (a <=? b)).
    { intros a b. apply eq_true_iff_eq. unfold of_Z.
      rewrite leb_finite, Z.leb_le, <- Zle_Qle. reflexivity. }
    rewrite !Hle. reflexivity. }
  assert (Hsearch : ImageUtils.validate br file = None <->
                    String.prefix "image/" (ImageUtils.file_type file) = true
                    /\ ImageUtils.file_size file <= 10 * 1024 * 1024
                    /\ 400 <= W /\ 400 <= H).
  { unfold ImageUtils.validate.
    rewrite validateImageFile_cases, validateImageDimensions_cases, Hdec.
    cbn [ImageUtils.width ImageUtils.height]. rewrite !ltb_of_Z.
    destruct (String.prefix "image/" (ImageUtils.file_type file)); cbn [negb];
      [|split; [discriminate | intros [Hf _]; discriminate Hf]].
    destruct (10 * 1024 * 1024 <? ImageUtils.file_size file) eqn:Hsize.
    { apply Z.ltb_lt in Hsize. split; [discriminate | intros (_ & Hf & _); lia]. }
    apply Z.ltb_ge in Hsize.
    destruct ((W <? 400) || (H <? 400)) eqn:Hsmall.
    - apply orb_true_iff in Hsmall. rewrite !Z.ltb_lt in Hsmall.
      split; [discriminate | intros (_ & _ & HW & HH); lia].
    - apply orb_false_iff in Hsmall. rewrite !Z.ltb_ge in Hsmall.
      split; [intros _; repeat split; lia | reflexivity]. }
  unfold handleFileSelect, handleDrop, acceptImage. rewrite Hvalid.
  destruct (String.prefix "image/" (ImageUtils.file_type file)) eqn:Htype; cbn [negb].
  - destruct ((400 <=? W) && (400 <=? H)) eqn:Hbig.
    + apply andb_true_iff in Hbig. rewrite !Z.leb_le in Hbig.
      cbn [image error]. split; [split; [intros _; left; repeat split; lia | reflexivity]|].
      split; [reflexivity|]. split; [discriminate|].
      split; [intros _; split; reflexivity|].
      intros _ _ _ Hsize. split; [reflexivity|].
      intros Hv. apply Hsearch in Hv. lia.
    + apply andb_false_iff in Hbig. rewrite !Z.leb_gt in Hbig.
      cbn [image error setError]. split.
      { split; [intros Hi; right; exact Hi|].
        intros [(_ & HW & HH) | Hi]; [lia | exact Hi]. }
      split; [reflexivity|]. split; [discriminate|].
      split; [intros Hv; apply Hsearch in Hv; lia|].
      intros _ HW HH _. lia.
  - cbn [image error setError]. split.
    { split; [intros Hi; right; exact Hi|].
      intros [(Hf & _) | Hi]; [discriminate Hf | exact Hi]. }
    split; [reflexivity|]. split; [reflexivity|].
    split; [intros Hv; apply Hsearch in Hv; destruct Hv as [Hf _]; discriminate Hf|].
    intros Hf. discriminate Hf.
Qed.

End CatalogForm.

Section Cards.
Import Api ProductCards.

(** X28: the title of a product card is the English name when that is
    present and not empty, else the Arabic name when that is present
    and not empty, else the id; so a card has an empty title only if
    the id itself is empty. *)
Theorem productName_fallback (hit : SearchHit) :
  (forall en, name_english hit = Some en -> truthyString en = true ->
     productName hit = en)
  /\ (forall ar,
        (name_english hit = None \/ name_english hit = Some ""%string) ->
        name_arabic hit = Some ar -> truthyString ar = true ->
        productName hit = ar)
  /\ ((name_english hit = None \/ name_english hit = Some ""%string) ->
      (name_arabic hit = None \/ name_arabic hit = Some ""%string) ->
      productName hit = pinecone_id hit)
  /\ (truthyString (pinecone_id hit) = true -> truthyString (productName hit) = true).
Proof.
  unfold productName, orElse.
  destruct (name_english hit) as [en|]; [destruct (truthyString en) eqn:Hen|];
    (destruct (name_arabic hit) as [ar|]; [destruct (truthyString ar) eqn:Har|]);
    try destruct (truthyString (pinecone_id hit)) eqn:Hid;
    repeat split; intros;
    repeat match goal with
           | H : _ \/ _ |- _ => destruct H
           | H : Some _ = Some _ |- _ => injection H as H; subst
           end;
    repeat match goal with
           | H : truthyString ?x = _ |- context [truthyString ?x] => rewrite H
           end;
    cbn [truthyString] in *; try discriminate; try congruence; auto.
Qed.

(** X29: the two kinds of product card treat the price differently.
    The card of the results page shows amount and unit whenever an
    amount is present; the card of the side panel (and the modal) shows
    them only for a truthy amount, and for an amount of 0 or NaN renders
    the bare number.  They agree exactly when the amount is absent or
    truthy.  The unit is 'SAR' when none, or an empty one, is given. *)
Theorem price_lines (hit : SearchHit) :
  (resultsPagePrice hit = sidePanelPrice hit <->
     price_amount hit = None
     \/ exists amount, price_amount hit = Some amount /\ truthyNumber amount = true)
  /\ (forall amount, price_amount hit = Some amount -> truthyNumber amount = false ->
        resultsPagePrice hit = Price amount (unitOf hit)
        /\ sidePanelPrice hit = BareNumber amount)
  /\ ((price_unit hit = None \/ price_unit hit = Some ""%string) ->
      unitOf hit = "SAR"%string)
  /\ (forall u, price_unit hit = Some u -> truthyString u = true -> unitOf hit = u).
Proof.
  unfold resultsPagePrice, sidePanelPrice, unitOf, orElse.
  destruct (price_amount hit) as [amount|]; [destruct (truthyNumber amount) eqn:Ht|];
    (destruct (price_unit hit) as [u|]; [destruct (truthyString u) eqn:Hu|]);
    repeat split; intros;
    repeat match goal with
           | H : _ \/ _ |- _ => destruct H
           | H : exists _, _ |- _ => destruct H
           | H : _ /\ _ |- _ => destruct H
           | H : Some _ = Some _ |- _ => injection H as H; subst
           end;
    cbn [truthyString] in *; try discriminate; try congruence; eauto.
Qed.

Lemma cardsFrom_ranks (index : nat) (hits : list SearchHit) :
  map rank (cardsFrom index hits) = seq (index + 1) (length hits).
Proof.
  revert index. induction hits as [|hit hits IH]; intros index; simpl; [reflexivity|].
  rewrite IH. replace (S index + 1)%nat with (S (index + 1)) by lia. reflexivity.
Qed.

Lemma cardsFrom_no_badge (index : nat) (hits : list SearchHit) :
  (0 < index)%nat ->
  map bestMatch (cardsFrom index hits) = repeat false (length hits).
Proof.
  revert index. induction hits as [|hit hits IH]; intros index Hpos; simpl; [reflexivity|].
  rewrite IH by lia. f_equal. apply Nat.eqb_neq. lia.
Qed.

(** X30: the cards of the results page come one per hit, in the order of
    the hits, ranked 1, 2, ..., N; the 'Best Match' badge is on the
    first card and on no other. *)
Theorem cards_ranked (hits : list SearchHit) :
  map card_hit (cards hits) = hits
  /\ map rank (cards hits) = seq 1 (length hits)
  /\ map bestMatch (cards hits)
     = match hits with
       | [] => []
       | _ :: rest => true :: repeat false (length rest)
       end.
Proof.
  unfold cards. split; [|split].
  - generalize 0%nat. induction hits as [|hit hits IH]; intros index; simpl;
      [reflexivity | rewrite IH; reflexivity].
  - apply (cardsFrom_ranks 0 hits).
  - destruct hits as [|hit rest]; [reflexivity|]. simpl.
    rewrite cardsFrom_no_badge by lia. reflexivity.
Qed.

End Cards.

(* ===================================================================== *)
(** * Rounding error of binary64                                          *)
(* ===================================================================== *)

Section Rounding.
Import Binary64.

Lemma pow2_pos (e : Z) : (0 < pow2 e)%Q.
Proof. apply Qpower_0_lt. reflexivity. Qed.

Lemma pow2_add (a b : Z) : (pow2 (a + b) == pow2 a * pow2 b)%Q.
Proof. apply Qpower_plus. discriminate. Qed.

Lemma pow2_le (a b : Z) : (a <= b)%Z -> (pow2 a <= pow2 b)%Q.
Proof. intros H. apply Qpower_le_compat_l; [exact H | discriminate]. Qed.

Lemma pow2_le_inv (a b : Z) : (pow2 a <= pow2 b)%Q -> (a <= b)%Z.
Proof. intros H. apply (Qpower_le_compat_l_inv 2); [exact H | reflexivity]. Qed.

Lemma pow2_Z (n : Z) : (0 <= n)%Z -> (pow2 n == inject_Z (2 ^ n))%Q.
Proof. intros H. unfold pow2. rewrite Zpower_Qpower by exact H. reflexivity. Qed.

Lemma pow2_half (e : Z) : (pow2 (e - 1) == pow2 e * (1 # 2))%Q.
Proof.
  replace (e - 1)%Z with (e + -1)%Z by lia. rewrite pow2_add. reflexivity.
Qed.

(** The leading bit of a positive rational is not above it. *)
Lemma ilog2_le (q : Q) : (0 < q)%Q -> (pow2 (ilog2 q) <= q)%Q.
Proof.
  intros Hq. unfold ilog2.
  set (a := Z.log2 (Qnum q)). set (b := Z.log2 (Z.pos (Qden q))).
  destruct (Qle_bool (pow2 (a - b)) q) eqn:E; [apply Qle_bool_iff; exact E|].
  destruct q as [n d]. cbn [Qnum Qden] in a, b.
  assert (Hn : (0 < n)%Z) by (unfold Qlt in Hq; cbn in Hq; lia).
  destruct (Z.log2_spec n Hn) as [Hna _]. fold a in Hna.
  destruct (Z.log2_spec (Z.pos d) (Pos2Z.is_pos d)) as [_ Hdb]. fold b in Hdb.
  assert (Ha0 : (0 <= a)%Z) by apply Z.log2_nonneg.
  assert (Hb0 : (0 <= b)%Z) by apply Z.log2_nonneg.
  replace (a - b - 1)%Z with (a + - (b + 1))%Z by lia.
  rewrite pow2_add. unfold pow2 at 2. rewrite Qpower_opp. fold (pow2 (b + 1)).
  rewrite (pow2_Z a Ha0), (pow2_Z (b + 1)) by lia.
  rewrite (Qmake_Qdiv n d).
  assert (H1 : (inject_Z (2 ^ a) <= inject_Z n)%Q) by (rewrite <- Zle_Qle; exact Hna).
  assert (H2 : (inject_Z (Z.pos d) <= inject_Z (2 ^ (b + 1)))%Q)
    by (rewrite <- Zle_Qle; replace (b + 1)%Z with (Z.succ b) by lia; lia).
  assert (H3 : (0 < inject_Z (Z.pos d))%Q) by (rewrite <- (Zlt_Qlt 0); lia).
  assert (H4 : (0 < inject_Z (2 ^ a))%Q)
    by (rewrite <- (Zlt_Qlt 0); apply Z.pow_pos_nonneg; lia).
  set (x := inject_Z (2 ^ a)) in *. set (y := inject_Z (2 ^ (b + 1))) in *.
  set (u := inject_Z n) in *. set (v := inject_Z (Z.pos d)) in *.
  apply Qle_shift_div_l; [exact H3|].
  assert (Hy : (0 < y)%Q) by lra.
  assert (Hinv : (0 < / y)%Q) by (apply Qinv_lt_0_compat; exact Hy).
  assert (Hone : (/ y * y == 1)%Q) by (field; lra).
  assert (Hle : (/ y * v <= 1)%Q).
  { rewrite <- Hone. apply Qmult_le_l; [exact Hinv | exact H2]. }
  assert (Hx : (x * (/ y * v) <= x * 1)%Q).
  { apply Qmult_le_l; [exact H4 | exact Hle]. }
  lra.
Qed.

Lemma ilog2_bound (q : Q) (k : Z) : (0 < q)%Q -> (q <= pow2 k)%Q -> (ilog2 q <= k)%Z.
Proof.
  intros Hq Hk. apply pow2_le_inv.
  apply Qle_trans with q; [apply ilog2_le; exact Hq | exact Hk].
Qed.

Lemma nearestEven_near (y : Q) :
  (y - (1 # 2) <= inject_Z (nearestEven y) <= y + (1 # 2))%Q.
Proof.
  unfold nearestEven.
  pose proof (Qfloor_le y) as Hlo. pose proof (Qlt_floor y) as Hhi.
  rewrite inject_Z_plus in Hhi. change (inject_Z 1) with 1%Q in Hhi.
  set (f := Qfloor y) in *.
  destruct (y - inject_Z f ?= 1 # 2)%Q eqn:E.
  - apply Qeq_alt in E.
    destruct (Z.even f); [|rewrite inject_Z_plus; change (inject_Z 1) with 1%Q]; lra.
  - apply Qlt_alt in E. lra.
  - apply Qgt_alt in E. rewrite inject_Z_plus. change (inject_Z 1) with 1%Q. lra.
Qed.

Lemma nearestEven_nonneg (y : Q) : (0 <= y)%Q -> (0 <= nearestEven y)%Z.
Proof.
  intros Hy. unfold nearestEven.
  assert (Hf : (0 <= Qfloor y)%Z).
  { change 0%Z with (Qfloor 0). apply Qfloor_resp_le. exact Hy. }
  destruct (y - inject_Z (Qfloor y) ?= 1 # 2)%Q; [destruct (Z.even (Qfloor y))| |]; lia.
Qed.

(** A positive rational of at most [2^k] is rounded by at most [2^(k-53)]. *)
Lemma roundPositive_near (a : Q) (k : Z) :
  (0 < a)%Q -> (a <= pow2 k)%Q -> (-1021 <= k)%Z ->
  (a - pow2 (k - 53) <= roundPositive a <= a + pow2 (k - 53))%Q
  /\ (0 <= roundPositive a)%Q.
Proof.
  intros Ha Hk Hmin. unfold roundPositive.
  assert (He : (quantum a - 1 <= k - 53)%Z).
  { unfold quantum. pose proof (ilog2_bound a k Ha Hk). lia. }
  pose proof (pow2_pos (quantum a)) as Hq. set (e := quantum a) in *.
  pose proof (pow2_le (e - 1) (k - 53) He) as Htol.
  rewrite pow2_half in Htol.
  pose proof (nearestEven_near (a / pow2 e)) as Hnear.
  assert (Hy : (a / pow2 e * pow2 e == a)%Q) by (field; lra).
  assert (Hy0 : (0 <= a / pow2 e)%Q).
  { apply Qle_shift_div_l; [exact Hq | lra]. }
  pose proof (nearestEven_nonneg _ Hy0) as Hm0.
  rewrite Zle_Qle in Hm0. change (inject_Z 0) with 0%Q in Hm0.
  set (m := inject_Z (nearestEven (a / pow2 e))) in *.
  set (y := (a / pow2 e)%Q) in *.
  destruct Hnear as [Hn1 Hn2].
  assert (H1 : ((y - (1 # 2)) * pow2 e <= m * pow2 e)%Q)
    by (apply Qmult_le_compat_r; lra).
  assert (H2 : (m * pow2 e <= (y + (1 # 2)) * pow2 e)%Q)
    by (apply Qmult_le_compat_r; lra).
  assert (H3 : (0 <= m * pow2 e)%Q) by (apply Qmult_le_0_compat; lra).
  repeat split; lra.
Qed.

Lemma pow2_1024_big (k : Z) (r : Q) :
  (k <= 1000)%Z -> (r <= pow2 k + pow2 (k - 53))%Q -> Qle_bool (pow2 1024) r = false.
Proof.
  intros Hk Hr. destruct (Qle_bool (pow2 1024) r) eqn:E; [|reflexivity].
  apply Qle_bool_iff in E.
  pose proof (pow2_le (k - 53) k ltac:(lia)) as H1.
  pose proof (pow2_le (k + 1) 1001 ltac:(lia)) as H2.
  rewrite pow2_add in H2. change (pow2 1) with 2%Q in H2.
  assert (H3 : (pow2 1001 < pow2 1024)%Q)
    by (apply Qpower_lt_compat_l; [lia | reflexivity]).
  lra.
Qed.

(** Rounding to binary64: an exact result of magnitude at most [2^k]
    is finite after rounding, moves by at most [2^(k-53)], and keeps its
    sign. *)
Lemma round64_near (x : Q) (k : Z) :
  (- pow2 k <= x <= pow2 k)%Q -> (-1021 <= k <= 1000)%Z ->
  exists q, round64 x = Finite q
            /\ (x - pow2 (k - 53) <= q <= x + pow2 (k - 53))%Q
            /\ (0 <= x -> 0 <= q)%Q /\ (x <= 0 -> q <= 0)%Q.
Proof.
  intros [Hlo Hhi] [Hmin Hmax]. unfold round64.
  pose proof (pow2_pos (k - 53)) as Htol.
  destruct (x ?= 0)%Q eqn:E.
  - apply Qeq_alt in E. exists 0%Q. split; [reflexivity|]. repeat split; lra.
  - apply Qlt_alt in E.
    assert (Ha : (0 < - x)%Q) by lra. assert (Hk : (- x <= pow2 k)%Q) by lra.
    destruct (roundPositive_near (- x) k Ha Hk Hmin) as [[H1 H2] H3].
    cbv zeta. rewrite (pow2_1024_big k) by (first [exact Hmax | lra]).
    exists (Qred (- roundPositive (- x))). split; [reflexivity|].
    rewrite Qred_correct. repeat split; lra.
  - apply Qgt_alt in E.
    assert (Hk : (x <= pow2 k)%Q) by lra.
    destruct (roundPositive_near x k E Hk Hmin) as [[H1 H2] H3].
    cbv zeta. rewrite (pow2_1024_big k) by (first [exact Hmax | lra]).
    exists (Qred (roundPositive x)). split; [reflexivity|].
    rewrite Qred_correct. repeat split; lra.
Qed.



Lemma grade16 : grade 16 65536 (1 # 137438953472).
Proof. repeat split; discriminate. Qed.

Lemma grade17 : grade 17 131072 (1 # 68719476736).
Proof. repeat split; discriminate. Qed.

Lemma grade20 : grade 20 1048576 (1 # 8589934592).
Proof. repeat split; discriminate. Qed.

Lemma round64_within (k : Z) (B tol x : Q) :
  grade k B tol -> (- B <= x <= B)%Q ->
  exists q, round64 x = Finite q
            /\ (x - tol <= q <= x + tol)%Q
            /\ (0 <= x -> 0 <= q)%Q /\ (x <= 0 -> q <= 0)%Q.
Proof.
  intros (HB & Htol & Hk) Hx.
  destruct (round64_near x k) as (q & Hq & Hnear & Hsign); [lra | exact Hk|].
  exists q. split; [exact Hq|]. split; [lra | exact Hsign].
Qed.

Lemma add_within (k : Z) (B tol a b : Q) :
  grade k B tol -> (- B <= a + b <= B)%Q ->
  exists q, add (Finite a) (Finite b) = Finite q
            /\ (a + b - tol <= q <= a + b + tol)%Q
            /\ (0 <= a + b -> 0 <= q)%Q /\ (a + b <= 0 -> q <= 0)%Q.
Proof. intros Hg Hx. exact (round64_within k B tol (a + b) Hg Hx). Qed.

Lemma sub_within (k : Z) (B tol a b : Q) :
  grade k B tol -> (- B <= a - b <= B)%Q ->
  exists q, sub (Finite a) (Finite b) = Finite q
            /\ (a - b - tol <= q <= a - b + tol)%Q
            /\ (0 <= a - b -> 0 <= q)%Q /\ (a - b <= 0 -> q <= 0)%Q.
Proof. intros Hg Hx. exact (round64_within k B tol (a + - b) Hg Hx). Qed.

Lemma mul_within (k : Z) (B tol a b : Q) :
  grade k B tol -> (- B <= a * b <= B)%Q ->
  exists q, mul (Finite a) (Finite b) = Finite q
            /\ (a * b - tol <= q <= a * b + tol)%Q
            /\ (0 <= a * b -> 0 <= q)%Q /\ (a * b <= 0 -> q <= 0)%Q.
Proof. intros Hg Hx. exact (round64_within k B tol (a * b) Hg Hx). Qed.

Lemma div_within (k : Z) (B tol a b : Q) :
  grade k B tol -> ~ (b == 0)%Q -> (- B <= a / b <= B)%Q ->
  exists q, div (Finite a) (Finite b) = Finite q
            /\ (a / b - tol <= q <= a / b + tol)%Q
            /\ (0 <= a / b -> 0 <= q)%Q /\ (a / b <= 0 -> q <= 0)%Q.
Proof.
  intros Hg Hb Hx. unfold div. rewrite (div_finite a b Hb).
  exact (round64_within k B tol (a / b) Hg Hx).
Qed.

End Rounding.

Section Monotone.
Import Binary64.

(** The leading bit of a positive rational: the rational is below the
    next power of two. *)
Lemma ilog2_lt (q : Q) : (0 < q)%Q -> (q < pow2 (ilog2 q + 1))%Q.
Proof.
  intros Hq. unfold ilog2.
  set (a := Z.log2 (Qnum q)). set (b := Z.log2 (Z.pos (Qden q))).
  destruct (Qle_bool (pow2 (a - b)) q) eqn:E.
  - destruct q as [n d]. cbn [Qnum Qden] in a, b.
    assert (Hn : (0 < n)%Z) by (unfold Qlt in Hq; cbn in Hq; lia).
    destruct (Z.log2_spec n Hn) as [_ Hna]. fold a in Hna.
    destruct (Z.log2_spec (Z.pos d) (Pos2Z.is_pos d)) as [Hdb _]. fold b in Hdb.
    assert (Ha0 : (0 <= a)%Z) by apply Z.log2_nonneg.
    assert (Hb0 : (0 <= b)%Z) by apply Z.log2_nonneg.
    replace (a - b + 1)%Z with ((a + 1) + - b)%Z by lia.
    rewrite pow2_add. unfold pow2 at 2. rewrite Qpower_opp. fold (pow2 b).
    rewrite (pow2_Z (a + 1)), (pow2_Z b) by lia.
    rewrite (Qmake_Qdiv n d).
    assert (H1 : (inject_Z n < inject_Z (2 ^ (a + 1)))%Q)
      by (rewrite <- Zlt_Qlt; replace (a + 1)%Z with (Z.succ a) by lia; exact Hna).
    assert (H2 : (inject_Z (2 ^ b) <= inject_Z (Z.pos d))%Q)
      by (rewrite <- Zle_Qle; exact Hdb).
    assert (H3 : (0 < inject_Z (2 ^ b))%Q)
      by (rewrite <- (Zlt_Qlt 0); apply Z.pow_pos_nonneg; lia).
    assert (H4 : (0 < inject_Z n)%Q) by (rewrite <- (Zlt_Qlt 0); exact Hn).
    set (x := inject_Z (2 ^ (a + 1))) in *. set (y := inject_Z (2 ^ b)) in *.
    set (u := inject_Z n) in *. set (v := inject_Z (Z.pos d)) in *.
    apply Qlt_shift_div_r; [lra|].
    assert (Hinv : (0 < / y)%Q) by (apply Qinv_lt_0_compat; exact H3).
    assert (Hone : (/ y * y == 1)%Q) by (field; lra).
    assert (Hge : (1 <= / y * v)%Q).
    { rewrite <- Hone. apply Qmult_le_l; [exact Hinv | exact H2]. }
    assert (Hx : (x * 1 <= x * (/ y * v))%Q).
    { apply Qmult_le_l; [lra | exact Hge]. }
    lra.
  - replace (a - b - 1 + 1)%Z with (a - b)%Z by lia.
    apply Qnot_le_lt. intros Hle. apply Qle_bool_iff in Hle. congruence.
Qed.

Lemma pow2_lt_inv (a b : Z) : (pow2 a < pow2 b)%Q -> (a < b)%Z.
Proof. intros H. apply (Qpower_lt_compat_l_inv 2); [exact H | reflexivity]. Qed.

Lemma ilog2_mono (a b : Q) : (0 < a)%Q -> (a <= b)%Q -> (ilog2 a <= ilog2 b)%Z.
Proof.
  intros Ha Hab.
  pose proof (ilog2_le a Ha) as H1.
  pose proof (ilog2_lt b ltac:(lra)) as H2.
  assert (H : (pow2 (ilog2 a) < pow2 (ilog2 b + 1))%Q) by lra.
  apply pow2_lt_inv in H. lia.
Qed.

Lemma nearestEven_bounds (y : Q) :
  (Qfloor y <= nearestEven y <= Qfloor y + 1)%Z.
Proof.
  unfold nearestEven.
  destruct (y - inject_Z (Qfloor y) ?= 1 # 2)%Q; [destruct (Z.even (Qfloor y))| |]; lia.
Qed.

Lemma nearestEven_mono (y z : Q) : (y <= z)%Q -> (nearestEven y <= nearestEven z)%Z.
Proof.
  intros Hyz.
  pose proof (Qfloor_resp_le y z Hyz) as Hf.
  pose proof (nearestEven_bounds y) as Hy. pose proof (nearestEven_bounds z) as Hz.
  destruct (Z.eq_dec (Qfloor y) (Qfloor z)) as [Heq | Hne]; [|lia].
  unfold nearestEven. rewrite <- Heq.
  destruct (y - inject_Z (Qfloor y) ?= 1 # 2)%Q eqn:Ey;
    destruct (z - inject_Z (Qfloor y) ?= 1 # 2)%Q eqn:Ez;
    try (destruct (Z.even (Qfloor y))); try lia;
    repeat match goal with
           | H : (_ ?= _)%Q = Eq |- _ => apply Qeq_alt in H
           | H : (_ ?= _)%Q = Lt |- _ => apply Qlt_alt in H
           | H : (_ ?= _)%Q = Gt |- _ => apply Qgt_alt in H
           end; lra.
Qed.

Lemma nearestEven_Z (n : Z) : nearestEven (inject_Z n) = n.
Proof.
  unfold nearestEven. rewrite Qfloor_Z.
  replace (inject_Z n - inject_Z n ?= 1 # 2)%Q with Lt; [reflexivity|].
  symmetry. apply Qlt_alt.
  assert (E : (inject_Z n - inject_Z n == 0)%Q) by ring.
  rewrite E. reflexivity.
Qed.

(** Rounding keeps the order of positive rationals. *)
Lemma roundPositive_mono (a b : Q) :
  (0 < a)%Q -> (a <= b)%Q -> (roundPositive a <= roundPositive b)%Q.
Proof.
  intros Ha Hab. assert (Hb : (0 < b)%Q) by lra.
  pose proof (ilog2_mono a b Ha Hab) as Hlog.
  unfold roundPositive.
  pose proof (pow2_pos (quantum a)) as Hqa. pose proof (pow2_pos (quantum b)) as Hqb.
  destruct (Z.eq_dec (quantum a) (quantum b)) as [Heq | Hne].
  - rewrite Heq. apply Qmult_le_compat_r; [|lra].
    rewrite <- Zle_Qle. apply nearestEven_mono.
    apply Qmult_le_compat_r; [exact Hab|].
    apply Qlt_le_weak. apply Qinv_lt_0_compat. exact Hqb.
  - set (L := ilog2 b).
    assert (Hcase : (quantum b = L - 52 /\ quantum a < L - 52 /\ ilog2 a + 1 <= L)%Z).
    { unfold quantum in *. fold L in Hlog |- *. lia. }
    destruct Hcase as (Heb & Hea & HaL).
    assert (HaltL : (a <= pow2 L)%Q).
    { apply Qle_trans with (pow2 (ilog2 a + 1));
        [apply Qlt_le_weak; apply ilog2_lt; exact Ha | apply pow2_le; exact HaL]. }
    assert (HLb : (pow2 L <= b)%Q) by (apply ilog2_le; exact Hb).
    apply Qle_trans with (pow2 L).
    + (* the smaller one does not pass [2^L] *)
      set (ea := quantum a) in *.
      assert (Hsplit : (pow2 L == pow2 (L - ea) * pow2 ea)%Q).
      { rewrite <- pow2_add. replace (L - ea + ea)%Z with L by lia. reflexivity. }
      assert (Hint : (pow2 (L - ea) == inject_Z (2 ^ (L - ea)))%Q)
        by (apply pow2_Z; lia).
      assert (Hy : (a / pow2 ea <= inject_Z (2 ^ (L - ea)))%Q).
      { apply Qle_shift_div_r; [exact Hqa|]. rewrite <- Hint, <- Hsplit. exact HaltL. }
      apply nearestEven_mono in Hy. rewrite nearestEven_Z in Hy.
      rewrite Zle_Qle in Hy. rewrite Hsplit, Hint.
      apply Qmult_le_compat_r; [exact Hy | lra].
    + (* the larger one does not fall below [2^L] *)
      rewrite Heb.
      assert (Hsplit : (pow2 L == pow2 52 * pow2 (L - 52))%Q).
      { rewrite <- pow2_add. replace (52 + (L - 52))%Z with L by lia. reflexivity. }
      assert (Hint : (pow2 52 == inject_Z (2 ^ 52))%Q) by (apply pow2_Z; lia).
      pose proof (pow2_pos (L - 52)) as HqL.
      assert (Hy : (inject_Z (2 ^ 52) <= b / pow2 (L - 52))%Q).
      { apply Qle_shift_div_l; [exact HqL|]. rewrite <- Hint, <- Hsplit. exact HLb. }
      apply nearestEven_mono in Hy. rewrite nearestEven_Z in Hy.
      rewrite Zle_Qle in Hy. rewrite Hsplit, Hint.
      apply Qmult_le_compat_r; [exact Hy | lra].
Qed.

Lemma roundPositive_nonneg (a : Q) : (0 < a)%Q -> (0 <= roundPositive a)%Q.
Proof.
  intros Ha. unfold roundPositive. pose proof (pow2_pos (quantum a)) as Hq.
  apply Qmult_le_0_compat; [|lra].
  change 0%Q with (inject_Z 0). rewrite <- Zle_Qle. apply nearestEven_nonneg.
  apply Qle_shift_div_l; [exact Hq | lra].
Qed.

(** Rounding to binary64 keeps the order. *)
Lemma round64_mono (x y qx qy : Q) :
  (x <= y)%Q -> round64 x = Finite qx -> round64 y = Finite qy -> (qx <= qy)%Q.
Proof.
  intros Hxy. unfold round64.
  destruct (x ?= 0)%Q eqn:Ex; destruct (y ?= 0)%Q eqn:Ey;
    repeat match goal with
           | H : (_ ?= _)%Q = Eq |- _ => apply Qeq_alt in H
           | H : (_ ?= _)%Q = Lt |- _ => apply Qlt_alt in H
           | H : (_ ?= _)%Q = Gt |- _ => apply Qgt_alt in H
           end; cbv zeta;
    repeat match goal with
           | |- context [Qle_bool ?a ?b] => destruct (Qle_bool a b)
           end;
    intros Hx Hy; try discriminate;
    injection Hx as <-; injection Hy as <-; rewrite ?Qred_correct;
    first
      [ lra
      | pose proof (roundPositive_nonneg y ltac:(lra)); lra
      | pose proof (roundPositive_nonneg (- x) ltac:(lra)); lra
      | pose proof (roundPositive_nonneg (- x) ltac:(lra));
        pose proof (roundPositive_nonneg y ltac:(lra)); lra
      | pose proof (roundPositive_mono (- y) (- x) ltac:(lra) ltac:(lra)); lra
      | pose proof (roundPositive_mono x y ltac:(lra) Hxy); lra ].
Qed.

End Monotone.

(* ===================================================================== *)
(** * The round trip in binary64                                          *)
(* ===================================================================== *)

Section RoundedMapping.
Import Binary64.

Lemma product_within (a e A E : Q) :
  (0 <= a <= A -> - E <= e <= E -> - (A * E) <= a * e <= A * E)%Q.
Proof. intros Ha He. nra. Qed.


(** A ratio of two sizes between 1 and 65536. *)
Lemma ratio_bounds (u num den : Q) :
  (1 <= num <= 65536 -> 1 <= den <= 65536 -> u * den == num ->
   0 < u /\ 1 <= u * 65536 /\ u <= 65536)%Q.
Proof. intros Hn Hd Hu. repeat split; nra. Qed.

Lemma ratio_is (a b : Q) : (1 <= b -> a / b * b == a)%Q.
Proof. intros Hb. field. lra. Qed.




End RoundedMapping.

Section RoundTrip64.
Import ObjectDetectionView.





End RoundTrip64.

Section RoundedReduction.
Import Binary64.

Lemma grade32 : grade 32 4294967296 (1 # 2097152).
Proof. repeat split; discriminate. Qed.

Lemma grade1 : grade 1 2 (1 # 4503599627370496).
Proof. repeat split; discriminate. Qed.

Lemma grade8 : grade 8 256 (1 # 35184372088832).
Proof. repeat split; discriminate. Qed.

(** Two quotients by the same divisor (at least 1) differ by no more
    than their dividends. *)
Lemma quotient_within (w e O d x tol : Q) :
  (1 <= O -> w * O == d -> e * O == x -> - tol <= d - x <= tol ->
   - tol <= w - e <= tol)%Q.
Proof. intros HO Hw He Hd. split; nra. Qed.

Lemma quotient_unit (e O x : Q) :
  (1 <= O -> e * O == x -> 0 <= x <= O -> 0 <= e <= 1)%Q.
Proof. intros HO He Hx. split; nra. Qed.

Lemma quotient_nonneg (w O d : Q) : (1 <= O -> w * O == d -> 0 <= d -> 0 <= w)%Q.
Proof. intros HO Hw Hd. nra. Qed.

Lemma floor_between (v : Q) (lo hi : Z) :
  (inject_Z lo - (1 # 2) <= v)%Q -> (v < inject_Z hi + (1 # 2))%Q ->
  (lo <= Qfloor (v + (1 # 2)) <= hi)%Z.
Proof.
  intros Hlo Hhi. pose proof (round_nearest v) as [Hle Hlt].
  assert (E1 : (inject_Z (lo - 1) == inject_Z lo - 1)%Q)
    by (unfold Z.sub; rewrite inject_Z_plus; reflexivity).
  assert (E2 : (inject_Z (hi + 1) == inject_Z hi + 1)%Q)
    by (rewrite inject_Z_plus; reflexivity).
  assert (H1 : (inject_Z (lo - 1) < inject_Z (Qfloor (v + (1 # 2))))%Q) by lra.
  assert (H2 : (inject_Z (Qfloor (v + (1 # 2))) < inject_Z (hi + 1))%Q) by lra.
  rewrite <- Zlt_Qlt in H1, H2. lia.
Qed.

(** An integer within 1/2 + 1/1000 of the integer [c] is [c]. *)
Lemma integer_pinned (n c : Z) :
  (inject_Z c - (1 # 2) - (1 # 1000) <= inject_Z n
   <= inject_Z c + (1 # 2) + (1 # 1000))%Q ->
  n = c.
Proof.
  intros [Hlo Hhi].
  assert (E1 : (inject_Z (c - 1) == inject_Z c - 1)%Q)
    by (unfold Z.sub; rewrite inject_Z_plus; reflexivity).
  assert (E2 : (inject_Z (c + 1) == inject_Z c + 1)%Q)
    by (rewrite inject_Z_plus; reflexivity).
  assert (H1 : (inject_Z (c - 1) < inject_Z n)%Q) by lra.
  assert (H2 : (inject_Z n < inject_Z (c + 1))%Q) by lra.
  rewrite <- Zlt_Qlt in H1, H2. lia.
Qed.

(** [calculateReduction] in doubles, for sizes of at most 4 GiB: an
    integer between 0 and 100 that is within 1/2 + 1/1000 of the exact
    percentage. *)
Lemma calculateReduction_near (original new : Z) :
  (0 < original <= 4294967296)%Z -> (0 <= new <= original)%Z ->
  exists percent : Z,
    Rounded.calculateReduction (of_Z original) (of_Z new) = of_Z percent
    /\ (0 <= percent <= 100)%Z
    /\ ((inject_Z original - inject_Z new) / inject_Z original * 100
        - (1 # 2) - (1 # 1000)
        <= inject_Z percent
        <= (inject_Z original - inject_Z new) / inject_Z original * 100
           + (1 # 2) + (1 # 1000))%Q.
Proof.
  intros Ho Hn.
  assert (HO : (1 <= inject_Z original <= 4294967296)%Q).
  { split; [change 1%Q with (inject_Z 1) | change 4294967296%Q with (inject_Z 4294967296)];
      rewrite <- Zle_Qle; lia. }
  assert (HN : (0 <= inject_Z new <= inject_Z original)%Q).
  { split; [change 0%Q with (inject_Z 0)|]; rewrite <- Zle_Qle; lia. }
  set (O := inject_Z original) in *. set (N := inject_Z new) in *.
  unfold Rounded.calculateReduction, of_Z. fold O N.
  destruct (sub_within 32 _ _ O N grade32) as (d & Ed & Hd & Hd0 & _); [lra|].
  pose proof (ratio_is d O (proj1 HO)) as Hw.
  pose proof (ratio_is (O - N) O (proj1 HO)) as He.
  set (w := (d / O)%Q) in *. set (e := ((O - N) / O)%Q) in *.
  pose proof (quotient_within w e O d (O - N) (1 # 2097152) (proj1 HO) Hw He
                ltac:(lra)) as Hwe.
  pose proof (quotient_unit e O (O - N) (proj1 HO) He ltac:(lra)) as He01.
  pose proof (quotient_nonneg w O d (proj1 HO) Hw (Hd0 ltac:(lra))) as Hw0.
  destruct (div_within 1 _ _ d O grade1) as (q & Eq & Hq & Hq0 & _);
    [lra | fold w; lra | fold w in Hq, Hq0].
  destruct (mul_within 8 _ _ q 100 grade8) as (v & Ev & Hv & Hv0 & _); [lra|].
  rewrite Ed, Eq. change (Finite (inject_Z 100)) with (Finite 100). rewrite Ev.
  cbn [round]. exists (Qfloor (v + (1 # 2))).
  split; [reflexivity|].
  pose proof (round_nearest v) as [Hle Hlt].
  pose proof (Hq0 Hw0) as Hqpos.
  assert (Hvpos : (0 <= v)%Q) by (apply Hv0; lra).
  split; [|lra].
  apply floor_between;
    [change (inject_Z 0) with 0%Q | change (inject_Z 100) with 100%Q]; lra.
Qed.

(** X19: [calculateReduction] in doubles.  For an original size of at
    most 4 GiB and a new size between 0 and the original size, the
    result is an integer percentage between 0 and 100 that differs from
    the exact percentage by at most 1/2 + 1/1000 (so it is a nearest
    integer except next to a tie); it is 0 for equal sizes and 100 for
    a new size of 0.  For an original size of 0 the result is [NaN]
    when the new size is 0 too, and [-Infinity] otherwise. *)
Theorem calculateReduction_range (original new : Z) :
  (0 < original <= 4294967296)%Z -> (0 <= new <= original)%Z ->
  (exists percent : Z,
     Rounded.calculateReduction (of_Z original) (of_Z new) = of_Z percent
     /\ (0 <= percent <= 100)%Z
     /\ ((inject_Z original - inject_Z new) / inject_Z original * 100
         - (1 # 2) - (1 # 1000)
         <= inject_Z percent
         <= (inject_Z original - inject_Z new) / inject_Z original * 100
            + (1 # 2) + (1 # 1000))%Q)
  /\ Rounded.calculateReduction (of_Z original) (of_Z original) = of_Z 0
  /\ Rounded.calculateReduction (of_Z original) (of_Z 0) = of_Z 100
  /\ Rounded.calculateReduction (of_Z 0) (of_Z new)
     = (if new =? 0 then NaN else NegInf).
Proof.
  intros Ho Hn.
  assert (HO : (1 <= inject_Z original)%Q).
  { change 1%Q with (inject_Z 1). rewrite <- Zle_Qle. lia. }
  split; [exact (calculateReduction_near original new Ho Hn)|]. split; [|split].
  - destruct (calculateReduction_near original original Ho ltac:(lia))
      as (percent & -> & _ & Hnear).
    f_equal.
    assert (E : ((inject_Z original - inject_Z original) / inject_Z original * 100 == 0)%Q)
      by (field; lra).
    rewrite E in Hnear.
    apply (integer_pinned percent 0). change (inject_Z 0) with 0%Q. lra.
  - destruct (calculateReduction_near original 0 Ho ltac:(lia))
      as (percent & -> & _ & Hnear).
    f_equal.
    assert (E : ((inject_Z original - inject_Z 0) / inject_Z original * 100 == 100)%Q)
      by (field; lra).
    rewrite E in Hnear.
    apply (integer_pinned percent 100). change (inject_Z 100) with 100%Q. lra.
  - destruct (Z.eqb_spec new 0) as [-> | Hne]; [reflexivity|].
    assert (HN : (1 <= inject_Z new <= 4294967296)%Q).
    { split; [change 1%Q with (inject_Z 1)
             | change 4294967296%Q with (inject_Z 4294967296)];
        rewrite <- Zle_Qle; lia. }
    unfold Rounded.calculateReduction, of_Z.
    destruct (sub_within 32 _ _ (inject_Z 0) (inject_Z new) grade32)
      as (q & Eq & Hq & _); [change (inject_Z 0) with 0%Q; lra|].
    change (inject_Z 0) with 0%Q in Hq.
    rewrite Eq. unfold div, mul. cbn [JSNum.div].
    change (Qeq_bool (inject_Z 0) 0) with true. cbv iota.
    assert (Hneg : (q < 0)%Q) by lra.
    change ((q ?= 0)%Q = Lt) in Hneg. rewrite Hneg. reflexivity.
Qed.

End RoundedReduction.

Section RoundedSelector.
Import Binary64 BoundingBoxSelector.

Lemma product_le (a b A B : Q) :
  (0 <= a <= A -> 0 <= b <= B -> 0 <= a * b <= A * B)%Q.
Proof. intros Ha Hb. split; nra. Qed.

Lemma quotient_le (w D N : Q) : (1 <= D -> w * D == N -> 0 <= N -> 0 <= w <= N)%Q.
Proof. intros HD Hw HN. split; nra. Qed.

(** One axis of [getRelativeCoordinates] in doubles: [cl] and [il] are
    the left edges of the container and of the image, [dW] the display
    width, [e] the pointer's client coordinate and [n] the original
    width.  When the bounds test passes, the display coordinate is not
    negative and exceeds [dW] by at most [2^-30], and the original
    coordinate is an integer of [0 .. n]. *)
Lemma axis_within64 (cl il dW e : Q) (n : Z) :
  (-65536 <= cl <= 65536)%Q -> (-65536 <= il <= 65536)%Q ->
  (-65536 <= e <= 65536)%Q -> (1 <= dW <= 65536)%Q -> (0 <= n <= 65536)%Z ->
  exists x imgX right,
    sub (Finite e) (Finite cl) = Finite x
    /\ sub (Finite il) (Finite cl) = Finite imgX
    /\ add (Finite imgX) (Finite dW) = Finite right
    /\ ((imgX <= x <= right)%Q ->
        exists dX v,
          sub (Finite x) (Finite imgX) = Finite dX
          /\ mul (Finite dX) (div (of_Z n) (Finite dW)) = Finite v
          /\ (0 <= dX <= dW + (1 # 1073741824))%Q
          /\ (0 <= Qfloor (v + (1 # 2)) <= n)%Z).
Proof.
  intros Hcl Hil He HdW Hn.
  assert (HN : (0 <= inject_Z n <= 65536)%Q).
  { split; [change 0%Q with (inject_Z 0) | change 65536%Q with (inject_Z 65536)];
      rewrite <- Zle_Qle; lia. }
  destruct (sub_within 20 _ _ e cl grade20) as (x & Ex & Hx & _); [lra|].
  destruct (sub_within 20 _ _ il cl grade20) as (imgX & Ei & Hi & _); [lra|].
  destruct (add_within 20 _ _ imgX dW grade20) as (right & Er & Hr & _); [lra|].
  exists x, imgX, right. split; [exact Ex|]. split; [exact Ei|]. split; [exact Er|].
  intros [Hlo Hhi].
  destruct (sub_within 20 _ _ x imgX grade20) as (dX & EdX & HdX & HdX0 & _); [lra|].
  pose proof (HdX0 ltac:(lra)) as HdXpos.
  pose proof (ratio_is (inject_Z n) dW (proj1 HdW)) as Hw.
  set (w := (inject_Z n / dW)%Q) in *.
  pose proof (quotient_le w dW (inject_Z n) (proj1 HdW) Hw (proj1 HN)) as Hw01.
  unfold of_Z.
  destruct (div_within 16 _ _ (inject_Z n) dW grade16) as (sc & Esc & Hsc & Hsc0 & _);
    [lra | fold w; lra | fold w in Hsc, Hsc0].
  pose proof (Hsc0 (proj1 Hw01)) as Hscpos.
  pose proof (product_le dX sc (dW + (1 # 1073741824)) (w + (1 # 137438953472))
                ltac:(lra) ltac:(lra)) as Hprod.
  pose proof (product_le dW (1 # 137438953472) 65536 (1 # 137438953472)
                ltac:(lra) ltac:(lra)) as Hp1.
  destruct (mul_within 17 _ _ dX sc grade17) as (v & Ev & Hv & Hv0 & _); [lra|].
  pose proof (Hv0 (proj1 Hprod)) as Hvpos.
  exists dX, v. split; [exact EdX|]. split; [rewrite Esc; exact Ev|].
  split; [lra|].
  apply floor_between; [change (inject_Z 0) with 0%Q; lra | lra].
Qed.

(** X9: in doubles, with offsets and pointer coordinates of magnitude
    at most 65536, a displayed image between 1 and 65536 pixels wide and
    high and an original image of at most 65536 x 65536 pixels, every
    position that [getRelativeCoordinates] returns has display
    coordinates that are not negative and exceed the display size by at
    most [2^-30], and integer original coordinates inside the original
    image: [0 <= originalX <= width] and [0 <= originalY <= height]. *)
Theorem getRelativeCoordinates_within_image (t : State) (pos : Pos)
    (cl ct cw ch il it dW dH ex ey : Q) (n m : Z) :
  originalImageSize t = mkSize (of_Z n) (of_Z m) ->
  (0 <= n <= 65536)%Z -> (0 <= m <= 65536)%Z ->
  (1 <= dW <= 65536)%Q -> (1 <= dH <= 65536)%Q ->
  (-65536 <= cl <= 65536)%Q -> (-65536 <= ct <= 65536)%Q ->
  (-65536 <= il <= 65536)%Q -> (-65536 <= it <= 65536)%Q ->
  (-65536 <= ex <= 65536)%Q -> (-65536 <= ey <= 65536)%Q ->
  Rounded.BoxSelector.getRelativeCoordinates
    (mkRefs (Some (mkRect (Finite cl) (Finite ct) (Finite cw) (Finite ch)))
            (Some (mkRect (Finite il) (Finite it) (Finite dW) (Finite dH))))
    t (mkMouse (Finite ex) (Finite ey)) = Some pos ->
  exists dx dy X Y,
    pos = mkPos (Finite dx) (Finite dy) (of_Z X) (of_Z Y)
    /\ (0 <= dx <= dW + (1 # 1073741824))%Q
    /\ (0 <= dy <= dH + (1 # 1073741824))%Q
    /\ (0 <= X <= n)%Z /\ (0 <= Y <= m)%Z.
Proof.
  intros Hsize Hn Hm HdW HdH Hcl Hct Hil Hit Hex Hey.
  destruct (axis_within64 cl il dW ex n Hcl Hil Hex HdW Hn)
    as (x & imgX & rx & Ex & Eix & Erx & Hxin).
  destruct (axis_within64 ct it dH ey m Hct Hit Hey HdH Hm)
    as (y & imgY & ry & Ey & Eiy & Ery & Hyin).
  unfold Rounded.BoxSelector.getRelativeCoordinates. rewrite Hsize.
  cbn [containerRef imageRef rect_left rect_top rect_width rect_height
       clientX clientY width height].
  destruct (strict_eq (of_Z n) zero); [discriminate|].
  rewrite Ex, Ey, Eix, Eiy, Erx, Ery.
  destruct (ltb (Finite x) (Finite imgX)) eqn:Hx0; [discriminate|].
  destruct (gtb (Finite x) (Finite rx)) eqn:Hx1; [discriminate|].
  destruct (ltb (Finite y) (Finite imgY)) eqn:Hy0; [discriminate|].
  destruct (gtb (Finite y) (Finite ry)) eqn:Hy1; [discriminate|].
  cbn [orb].
  apply ltb_finite_false_inv in Hx0, Hy0. apply gtb_finite_false_inv in Hx1, Hy1.
  destruct (Hxin (conj Hx0 Hx1)) as (dX & vx & EdX & Evx & HdX & HX).
  destruct (Hyin (conj Hy0 Hy1)) as (dY & vy & EdY & Evy & HdY & HY).
  rewrite EdX, EdY, Evx, Evy. cbn [round].
  intros [= <-].
  exists dX, dY, (Qfloor (vx + (1 # 2))), (Qfloor (vy + (1 # 2))).
  split; [reflexivity|]. split; [exact HdX|]. split; [exact HdY|].
  split; [exact HX | exact HY].
Qed.

(** With measured geometry the mapped position has integer original
    coordinates. *)
Lemma measured_position_integer64 (r : Refs) (s : State) (e : MouseEvent) (pos : Pos) :
  Rounded.BoxSelector.measuredRefs r -> Rounded.BoxSelector.measuredEvent e ->
  Rounded.BoxSelector.naturalSize (originalImageSize s) ->
  Rounded.BoxSelector.getRelativeCoordinates r s e = Some pos ->
  integerPos pos.
Proof.
  intros (cl & ct & cw & ch & il & it & dW & dH & -> & Hcl & Hct & Hil & Hit & HdW & HdH)
         (ex & ey & -> & Hex & Hey) (n & m & Hsize & Hn & Hm).
  destruct (axis_within64 cl il dW ex n Hcl Hil Hex HdW Hn)
    as (x & imgX & rx & Ex & Eix & Erx & Hxin).
  destruct (axis_within64 ct it dH ey m Hct Hit Hey HdH Hm)
    as (y & imgY & ry & Ey & Eiy & Ery & Hyin).
  unfold Rounded.BoxSelector.getRelativeCoordinates. rewrite Hsize.
  cbn [containerRef imageRef rect_left rect_top rect_width rect_height
       clientX clientY width height].
  destruct (strict_eq (of_Z n) zero); [discriminate|].
  rewrite Ex, Ey, Eix, Eiy, Erx, Ery.
  destruct (ltb (Finite x) (Finite imgX)) eqn:Hx0; [discriminate|].
  destruct (gtb (Finite x) (Finite rx)) eqn:Hx1; [discriminate|].
  destruct (ltb (Finite y) (Finite imgY)) eqn:Hy0; [discriminate|].
  destruct (gtb (Finite y) (Finite ry)) eqn:Hy1; [discriminate|].
  cbn [orb].
  apply ltb_finite_false_inv in Hx0, Hy0. apply gtb_finite_false_inv in Hx1, Hy1.
  destruct (Hxin (conj Hx0 Hx1)) as (dX & vx & EdX & Evx & _).
  destruct (Hyin (conj Hy0 Hy1)) as (dY & vy & EdY & Evy & _).
  rewrite EdX, EdY, Evx, Evy. cbn [round].
  intros [= <-]. eexists _, _. split; reflexivity.
Qed.

Lemma step_wellFormed (p : Props) (s : State) (a : Action) :
  Rounded.BoxSelector.wellFormed s -> Rounded.BoxSelector.measuredAction a ->
  Rounded.BoxSelector.wellFormed (fst (Rounded.BoxSelector.step p s a))
  /\ Rounded.BoxSelector.allNormalised (snd (Rounded.BoxSelector.step p s a)).
Proof.
  intros Hwf Ha. pose proof Hwf as (Hsize & Hstart & Hbox).
  assert (Hquiet : Rounded.BoxSelector.wellFormed s
                   /\ Rounded.BoxSelector.allNormalised []).
  { split; [exact Hwf | intros b []]. }
  destruct a as [r e | r e | | | | size];
    cbn [Rounded.BoxSelector.step Rounded.BoxSelector.measuredAction] in *.
  - (* MouseDown *)
    destruct Ha as [Hr He].
    unfold Rounded.BoxSelector.handleMouseDown.
    destruct (enabled p); cbn [negb]; [|exact Hquiet].
    destruct (Rounded.BoxSelector.getRelativeCoordinates r s e) as [pos|] eqn:Hpos;
      [|exact Hquiet].
    pose proof (measured_position_integer64 r s e pos Hr He Hsize Hpos) as Hint.
    unfold dispatch, bboxEffect.
    cbn [fst snd state_after bbox_write direct bbox app]. split.
    + split; [exact Hsize|]. split.
      * cbn [startPos]. intros start [= <-]. exact Hint.
      * cbn [bbox]. discriminate.
    + intros b Hin. destruct (bboxCellChanged (bbox s) WroteNull && onBboxChange p);
        [destruct Hin as [Hin|[]]; discriminate | destruct Hin].
  - (* MouseMove *)
    destruct Ha as [Hr He].
    unfold Rounded.BoxSelector.handleMouseMove.
    destruct (negb (isDrawing s) || negb (enabled p)); [exact Hquiet|].
    destruct (Rounded.BoxSelector.getRelativeCoordinates r s e) as [pos|] eqn:Hpos;
      [|exact Hquiet].
    destruct (startPos s) as [start|] eqn:Hs; [|exact Hquiet].
    pose proof (measured_position_integer64 r s e pos Hr He Hsize Hpos) as Hint.
    pose proof (dragBox_normalised start pos (Hstart start eq_refl) Hint) as Hnorm.
    unfold dispatch, bboxEffect.
    cbn [fst snd state_after bbox_write direct bbox app bboxCellChanged andb]. split.
    + split; [exact Hsize|]. split.
      * cbn [startPos]. intros st [= <-]. exact (Hstart start eq_refl).
      * intros b [= <-]. exact Hnorm.
    + intros b Hin. destruct (onBboxChange p); [|destruct Hin].
      destruct Hin as [[= <-]|[]]. exact Hnorm.
  - (* MouseUp *)
    unfold handleMouseUp. destruct (isDrawing s); cbn [negb]; [|exact Hquiet].
    unfold dispatch, bboxEffect.
    cbn [fst snd state_after bbox_write direct bbox bboxCellChanged andb].
    rewrite app_nil_r. split.
    + split; [exact Hsize|]. split; [exact Hstart | exact Hbox].
    + intros b Hin. destruct (bbox s) as [b0|] eqn:Hb; [|destruct Hin].
      destruct (onBboxChange p); [|destruct Hin].
      destruct Hin as [[= <-]|[]]. apply Hbox. reflexivity.
  - (* MouseLeave *)
    unfold handleMouseUp. destruct (isDrawing s); cbn [negb]; [|exact Hquiet].
    unfold dispatch, bboxEffect.
    cbn [fst snd state_after bbox_write direct bbox bboxCellChanged andb].
    rewrite app_nil_r. split.
    + split; [exact Hsize|]. split; [exact Hstart | exact Hbox].
    + intros b Hin. destruct (bbox s) as [b0|] eqn:Hb; [|destruct Hin].
      destruct (onBboxChange p); [|destruct Hin].
      destruct Hin as [[= <-]|[]]. apply Hbox. reflexivity.
  - (* ClickClear *)
    unfold handleClear, dispatch, bboxEffect.
    cbn [fst snd state_after bbox_write direct bbox]. split.
    + split; [exact Hsize|]. split.
      * cbn [startPos]. discriminate.
      * discriminate.
    + intros b Hin. apply in_app_or in Hin.
      destruct Hin as [Hin|Hin].
      * destruct (onBboxChange p); [destruct Hin as [Hin|[]]; discriminate | destruct Hin].
      * destruct (bboxCellChanged (bbox s) WroteNull && onBboxChange p);
          [destruct Hin as [Hin|[]]; discriminate | destruct Hin].
  - (* ImageLoaded *)
    cbn [fst snd]. split.
    + split; [exact Ha|]. split; [exact Hstart | exact Hbox].
    + intros b [].
Qed.

Lemma run_wellFormed (p : Props) (actions : list Action) (s : State) :
  Rounded.BoxSelector.wellFormed s ->
  Forall Rounded.BoxSelector.measuredAction actions ->
  Rounded.BoxSelector.wellFormed (fst (Rounded.BoxSelector.run p s actions))
  /\ Rounded.BoxSelector.allNormalised (snd (Rounded.BoxSelector.run p s actions)).
Proof.
  revert s. induction actions as [|a actions IH]; intros s Hwf Hall.
  - split; [exact Hwf | intros b []].
  - apply Forall_cons_iff in Hall as [Ha Hall].
    destruct (step_wellFormed p s a Hwf Ha) as [Hwf1 Hout1].
    cbn [Rounded.BoxSelector.run].
    destruct (Rounded.BoxSelector.step p s a) as [s1 out1].
    cbn [fst snd] in Hwf1, Hout1.
    destruct (IH s1 Hwf1 Hall) as [Hwf2 Hout2].
    destruct (Rounded.BoxSelector.run p s1 actions) as [s2 out2]. cbn [fst snd] in *.
    split; [exact Hwf2|].
    intros b Hin. apply in_app_or in Hin as [Hin|Hin]; [apply Hout1 | apply Hout2]; exact Hin.
Qed.

(** X10: in doubles, whatever the user does with a selector whose
    geometry is measured at every pointer event (mounted elements,
    offsets and pointer coordinates of magnitude at most 65536, a
    displayed image between 1 and 65536 pixels wide and high) and whose
    probe image is at most 65536 x 65536 pixels, the box it stores and
    every box it hands to [onBboxChange] has four integer coordinates
    (so none is an infinity or [NaN]) with [x1 <= x2] and [y1 <= y2]. *)
Theorem run_boxes_normalised (p : Props) (actions : list Action) :
  Forall Rounded.BoxSelector.measuredAction actions ->
  (forall b, bbox (fst (Rounded.BoxSelector.run p initialState actions)) = Some b ->
     exists X1 Y1 X2 Y2 : Z,
       b = mkBox (of_Z X1) (of_Z Y1) (of_Z X2) (of_Z Y2) /\ X1 <= X2 /\ Y1 <= Y2)
  /\ (forall b,
        In (OnBboxChange (Some b))
           (snd (Rounded.BoxSelector.run p initialState actions)) ->
        exists X1 Y1 X2 Y2 : Z,
          b = mkBox (of_Z X1) (of_Z Y1) (of_Z X2) (of_Z Y2) /\ X1 <= X2 /\ Y1 <= Y2).
Proof.
  intros Hall.
  assert (Hinit : Rounded.BoxSelector.wellFormed initialState).
  { split; [|split; discriminate].
    exists 0, 0. split; [reflexivity | lia]. }
  destruct (run_wellFormed p actions initialState Hinit Hall) as [(_ & _ & Hbox) Hout].
  split; [exact Hbox | exact Hout].
Qed.

End RoundedSelector.


Section RoundedDisplay.
Import Binary64 ObjectDetectionView.

Lemma grade33 : grade 33 8589934592 (1 # 1048576).
Proof. repeat split; discriminate. Qed.

(** One axis of [getDisplayBbox] in doubles, for the two coordinates
    [a1 <= a2] of a box inside the image: the display coordinates are
    in order, lie within [2^-20] of the displayed image, and the size
    is not negative. *)
Lemma axis_display64 (ox dW oW a1 a2 : Q) :
  (-131072 <= ox <= 131072)%Q -> (1 <= dW <= 65536)%Q -> (1 <= oW <= 65536)%Q ->
  (0 <= a1)%Q -> (a1 <= a2)%Q -> (a2 <= oW)%Q ->
  exists X1 X2 Wd,
    add (Finite ox) (mul (Finite a1) (div (Finite dW) (Finite oW))) = Finite X1
    /\ add (Finite ox) (mul (Finite a2) (div (Finite dW) (Finite oW))) = Finite X2
    /\ mul (sub (Finite a2) (Finite a1)) (div (Finite dW) (Finite oW)) = Finite Wd
    /\ (X1 <= X2)%Q /\ (0 <= Wd)%Q
    /\ (ox - (1 # 1048576) <= X1)%Q /\ (X2 <= ox + dW + (1 # 1048576))%Q.
Proof.
  intros Hox HdW HoW Ha1 Ha12 Ha2.
  pose proof (ratio_is dW oW (proj1 HoW)) as Hu.
  set (u := (dW / oW)%Q) in *.
  destruct (ratio_bounds u dW oW HdW HoW Hu) as (Hu0 & Hu1 & Hu2).
  assert (Hau1 : (0 <= a1 * u <= dW)%Q) by (split; nra).
  assert (Hau2 : (0 <= a2 * u <= dW)%Q) by (split; nra).
  destruct (div_within 16 _ _ dW oW grade16) as (sc & Esc & Hsc & Hsc0 & _);
    [lra | fold u; lra | fold u in Hsc, Hsc0].
  pose proof (Hsc0 ltac:(lra)) as Hscpos.
  pose proof (product_within a1 (sc - u) 65536 (1 # 137438953472)
                ltac:(lra) ltac:(lra)) as Hae1.
  pose proof (product_within a2 (sc - u) 65536 (1 # 137438953472)
                ltac:(lra) ltac:(lra)) as Hae2.
  destruct (mul_within 17 _ _ a1 sc grade17) as (t1 & Et1 & Ht1 & Ht10 & _); [lra|].
  destruct (mul_within 17 _ _ a2 sc grade17) as (t2 & Et2 & Ht2 & _); [lra|].
  assert (Hasc1 : (0 <= a1 * sc)%Q) by (apply Qmult_le_0_compat; lra).
  pose proof (Ht10 Hasc1) as Ht1pos.
  assert (Hprod : (a1 * sc <= a2 * sc)%Q) by (apply Qmult_le_compat_r; lra).
  pose proof (round64_mono (a1 * sc) (a2 * sc) t1 t2 Hprod Et1 Et2) as Ht12.
  destruct (add_within 20 _ _ ox t1 grade20) as (X1 & EX1 & HX1 & _); [lra|].
  destruct (add_within 20 _ _ ox t2 grade20) as (X2 & EX2 & HX2 & _); [lra|].
  assert (Hsum : (ox + t1 <= ox + t2)%Q) by lra.
  pose proof (round64_mono (ox + t1) (ox + t2) X1 X2 Hsum EX1 EX2) as HX12.
  destruct (sub_within 17 _ _ a2 a1 grade17) as (w & Ew & Hw & Hw0 & _); [lra|].
  pose proof (Hw0 ltac:(lra)) as Hwpos.
  pose proof (product_le w sc 65537 65537 ltac:(lra) ltac:(lra)) as Hwsc.
  destruct (mul_within 33 _ _ w sc grade33) as (Wd & EWd & _ & HWd0 & _); [lra|].
  exists X1, X2, Wd.
  split; [rewrite Esc, Et1; exact EX1|]. split; [rewrite Esc, Et2; exact EX2|].
  split; [rewrite Esc, Ew; exact EWd|].
  split; [exact HX12|]. split; [apply HWd0; lra|]. split; lra.
Qed.

(** X7: in doubles, with measured geometry (offsets of magnitude at
    most 131072, display and original sizes between 1 and 65536), the
    display rect of a box that lies inside the original image has its
    corners in order, a width and height that are not negative, and
    lies inside the displayed image up to a rounding error of [2^-20]
    pixels. *)
Theorem getDisplayBbox_inside_image (p : Props) (r : Refs) (s : State)
    (imgRect containerRect : DOMRect)
    (dW dH ox oy oW oH a1 b1 a2 b2 : Q) :
  imageRef r = Some imgRect -> containerRef r = Some containerRect ->
  imageInfo s = mkInfo (Finite dW) (Finite dH) (Finite ox) (Finite oy) ->
  imageWidth p = Finite oW -> imageHeight p = Finite oH ->
  (-131072 <= ox <= 131072)%Q -> (-131072 <= oy <= 131072)%Q ->
  (1 <= dW <= 65536)%Q -> (1 <= dH <= 65536)%Q ->
  (1 <= oW <= 65536)%Q -> (1 <= oH <= 65536)%Q ->
  (0 <= a1)%Q -> (a1 <= a2)%Q -> (a2 <= oW)%Q ->
  (0 <= b1)%Q -> (b1 <= b2)%Q -> (b2 <= oH)%Q ->
  exists X1 Y1 X2 Y2 Wd Hd,
    Rounded.DetectionView.getDisplayBbox p r s
      (mkBBox (Finite a1) (Finite b1) (Finite a2) (Finite b2))
    = Some (mkDisplay (Finite X1) (Finite Y1) (Finite X2) (Finite Y2)
                      (Finite Wd) (Finite Hd))
    /\ (X1 <= X2)%Q /\ (Y1 <= Y2)%Q /\ (0 <= Wd)%Q /\ (0 <= Hd)%Q
    /\ (ox - (1 # 1048576) <= X1)%Q /\ (X2 <= ox + dW + (1 # 1048576))%Q
    /\ (oy - (1 # 1048576) <= Y1)%Q /\ (Y2 <= oy + dH + (1 # 1048576))%Q.
Proof.
  intros Himg Hcont Hinfo Hw Hh Hox Hoy HdW HdH HoW HoH Ha1 Ha12 Ha2 Hb1 Hb12 Hb2.
  destruct (axis_display64 ox dW oW a1 a2 Hox HdW HoW Ha1 Ha12 Ha2)
    as (X1 & X2 & Wd & EX1 & EX2 & EWd & HX & HWd & HX1 & HX2).
  destruct (axis_display64 oy dH oH b1 b2 Hoy HdH HoH Hb1 Hb12 Hb2)
    as (Y1 & Y2 & Hd & EY1 & EY2 & EHd & HY & HHd & HY1 & HY2).
  unfold Rounded.DetectionView.getDisplayBbox.
  rewrite Himg, Hcont, Hinfo, Hw, Hh.
  cbn [displayWidth displayHeight offsetX offsetY x1 y1 x2 y2].
  rewrite !strict_eq_zero_false by lra. cbn [orb].
  rewrite EX1, EX2, EWd, EY1, EY2, EHd.
  exists X1, Y1, X2, Y2, Wd, Hd. split; [reflexivity|].
  repeat split; assumption.
Qed.

End RoundedDisplay.

(* ===================================================================== *)
(** * The further properties on the sample inputs                         *)
(* ===================================================================== *)

Section FurtherExamples.

Lemma sample_ids_distinct :
  List.NoDup (map object_id [Samples.sofa; Samples.pillow; Samples.lamp]).
Proof.
  repeat constructor; cbn; intuition discriminate.
Defined.

(** Before the room photo is measured nothing is drawn for the sofa, and
    a pointer move over the photo clears the stale hovered id. *)
Lemma no_geometry_no_overlay_example :
  ObjectDetectionView.renderObject Samples.roomProps Samples.mounted
    Samples.unmeasuredHovered Samples.sofa = None
  /\ ObjectDetectionView.hoveredObjectId
       (ObjectDetectionView.handleMouseMove Samples.roomProps Samples.mounted
          Samples.unmeasuredHovered Samples.overPillow) = None.
Proof.
  destruct (no_geometry_no_overlay Samples.roomProps Samples.mounted
              Samples.unmeasuredHovered Samples.overPillow
              Samples.imgRect Samples.containerRect eq_refl eq_refl
              (or_introl eq_refl)) as [Hnone Hhover].
  split.
  - apply Hnone.
  - apply Hhover; [discriminate | reflexivity].
Defined.

(** The lamp has no mask: hovered and clicked at once, it shows neither
    outline nor highlight nor label, and stays clickable. *)
Lemma renderObject_policy_example :
  exists v,
    ObjectDetectionView.renderObject Samples.roomProps Samples.mounted
      Samples.lampHoveredAndClicked Samples.lamp = Some v
    /\ ObjectDetectionView.hoverOutline v = false
    /\ ObjectDetectionView.segmentationHighlight v = None
    /\ ObjectDetectionView.categoryLabel v = None
    /\ ObjectDetectionView.clickableArea v = true.
Proof.
  eexists. split; [reflexivity|].
  refine (proj2 (proj2 (proj2 (proj2 (proj2 (proj2
            (renderObject_policy Samples.roomProps Samples.mounted
               Samples.lampHoveredAndClicked Samples.lamp _ eq_refl))))))
            eq_refl eq_refl).
Defined.

(** An opaque mask two pixels wide: all six pixels are outline. *)
Lemma outlinePixels_thin_opaque_example :
  Z.of_nat (length (ObjectDetectionView.outlinePixels 2 3
                      (ObjectDetectionView.data Samples.thinMask))) = 2 * 3.
Proof.
  apply outlinePixels_thin_opaque; [lia | lia | left; lia | reflexivity].
Defined.

Lemma sample_drag_measured :
  Forall Rounded.BoxSelector.measuredAction Samples.dragged.
Proof.
  assert (Hr : Rounded.BoxSelector.measuredRefs Samples.mounted).
  { exists 10%Q, 10%Q, 500%Q, 340%Q, 60%Q, 30%Q, 400%Q, 300%Q.
    split; [reflexivity|]. repeat split; lra. }
  constructor; [exists 800, 600; split; [reflexivity | lia]|].
  constructor.
  { split; [exact Hr|]. exists 160%Q, 130%Q. split; [reflexivity|]. split; lra. }
  constructor.
  { split; [exact Hr|]. exists 240%Q, 180%Q. split; [reflexivity|]. split; lra. }
  constructor; [exact I | constructor].
Qed.

(** The box left by the sample drag has integer corners in order. *)
Lemma run_boxes_normalised_example :
  exists X1 Y1 X2 Y2 : Z,
    Samples.drawn
    = BoundingBoxSelector.mkBox (of_Z X1) (of_Z Y1) (of_Z X2) (of_Z Y2)
    /\ X1 <= X2 /\ Y1 <= Y2.
Proof.
  apply (proj1 (run_boxes_normalised Samples.selectorProps Samples.dragged
                  sample_drag_measured)).
  reflexivity.
Defined.

(** The sample drag on the idle selector: two reports of one box. *)
Lemma complete_drag_example :
  BoundingBoxSelector.run Samples.selectorProps Samples.selectorIdle
    [BoundingBoxSelector.MouseDown Samples.mounted Samples.pressAt;
     BoundingBoxSelector.MouseMove Samples.mounted Samples.overPillow;
     BoundingBoxSelector.MouseUp]
  = ({| BoundingBoxSelector.isDrawing := false;
        BoundingBoxSelector.bbox := Some Samples.drawn;
        BoundingBoxSelector.startPos :=
          Some (BoundingBoxSelector.mkPos (of_Z 100) (of_Z 100) (of_Z 200) (of_Z 200));
        BoundingBoxSelector.currentPos :=
          Some (BoundingBoxSelector.mkPos (of_Z 180) (of_Z 150) (of_Z 360) (of_Z 300));
        BoundingBoxSelector.originalImageSize :=
          BoundingBoxSelector.originalImageSize Samples.selectorIdle |},
     [BoundingBoxSelector.OnBboxChange (Some Samples.drawn);
      BoundingBoxSelector.OnBboxChange (Some Samples.drawn)]).
Proof.
  exact (complete_drag Samples.selectorProps Samples.selectorIdle
           Samples.mounted Samples.mounted Samples.pressAt Samples.overPillow
           (BoundingBoxSelector.mkPos (of_Z 100) (of_Z 100) (of_Z 200) (of_Z 200))
           (BoundingBoxSelector.mkPos (of_Z 180) (of_Z 150) (of_Z 360) (of_Z 300))
           eq_refl eq_refl eq_refl eq_refl).
Defined.

(** Right after the press, the preview is a single point. *)
Lemma preview_without_box_is_a_point_example :
  exists preview,
    BoundingBoxSelector.getDisplayBbox Samples.mounted
      (fst (BoundingBoxSelector.run Samples.selectorProps
              BoundingBoxSelector.initialState Samples.pressed)) = Some preview
    /\ BoundingBoxSelector.x1 preview = BoundingBoxSelector.x2 preview
    /\ BoundingBoxSelector.y1 preview = BoundingBoxSelector.y2 preview.
Proof.
  eexists. split; [reflexivity|].
  refine (proj2 (preview_without_box_is_a_point Samples.selectorProps
                   Samples.pressed Samples.mounted _ eq_refl eq_refl)).
Defined.

(** The box left by the sample drag is previewed by the selector where
    the detection view would draw a region with that box. *)
Lemma display_mappings_agree_example :
  exists d,
    ObjectDetectionView.getDisplayBbox Samples.roomProps Samples.mounted
      Samples.measured (Samples.box 200 200 360 300) = Some d
    /\ BoundingBoxSelector.getDisplayBbox Samples.mounted
         (fst (BoundingBoxSelector.run Samples.selectorProps
                 BoundingBoxSelector.initialState Samples.dragged))
       = Some (BoundingBoxSelector.mkBox
                 (ObjectDetectionView.d_x1 d) (ObjectDetectionView.d_y1 d)
                 (ObjectDetectionView.d_x2 d) (ObjectDetectionView.d_y2 d)).
Proof.
  eexists. split; [reflexivity|].
  refine (display_mappings_agree Samples.roomProps Samples.measured Samples.mounted
            (fst (BoundingBoxSelector.run Samples.selectorProps
                    BoundingBoxSelector.initialState Samples.dragged))
            Samples.imgRect Samples.containerRect Samples.drawn _
            eq_refl eq_refl eq_refl eq_refl eq_refl eq_refl eq_refl).
Defined.

(** The masks of the sample regions: the sofa's url is stored under its
    id, and nothing is stored for the lamp, which has no mask. *)
Lemma newMaskImages_lookup_example :
  ObjectDetectionView.newMaskImages [Samples.sofa; Samples.pillow; Samples.lamp] !! 1
  = Some (ObjectDetectionView.maskUrlOf Samples.sofa)
  /\ ObjectDetectionView.newMaskImages [Samples.sofa; Samples.pillow; Samples.lamp] !! 7
     = None.
Proof.
  destruct (newMaskImages_lookup [Samples.sofa; Samples.pillow; Samples.lamp])
    as [Hstored Habsent].
  split.
  - apply (Hstored (sample_ids_distinct) Samples.sofa); [left; reflexivity | reflexivity].
  - apply Habsent. intros o [<- | [<- | [<- | []]]] Hmask; cbn; discriminate.
Defined.

(** The room's regions are replaced by the chair alone; the chair's
    outline settles first and the sofa's, of the earlier run, after it:
    the cache then holds the sofa and no longer the chair. *)
Lemma maskOutlines_last_settled_example :
  ObjectDetectionView.maskOutlines
    (ObjectDetectionView.view
       (ObjectDetectionView.maskRun Samples.noDecode
          (ObjectDetectionView.unmounted Samples.measured) Samples.staleOutline))
    !! 1
  = Some (ObjectDetectionView.outlineUrlOf Samples.noDecode Samples.sofa)
  /\ ObjectDetectionView.maskOutlines
       (ObjectDetectionView.view
          (ObjectDetectionView.maskRun Samples.noDecode
             (ObjectDetectionView.unmounted Samples.measured) Samples.staleOutline))
       !! 3
     = None.
Proof.
  pose proof (maskOutlines_last_settled Samples.noDecode Samples.measured
                [ObjectDetectionView.ObjectsReplaced Samples.roomProps Samples.mounted;
                 ObjectDetectionView.ObjectsReplaced Samples.chairProps Samples.mounted;
                 ObjectDetectionView.OutlineSettled 1 0]
                0%nat 0%nat
                {| ObjectDetectionView.run_objects :=
                     [Samples.sofa; Samples.pillow; Samples.lamp];
                   ObjectDetectionView.newMaskOutlines := ∅ |}
                Samples.sofa eq_refl eq_refl eq_refl) as Hlast.
  cbv zeta in Hlast. destruct Hlast as (_ & Hcache & _ & Habsent).
  split.
  - change (ObjectDetectionView.maskRun Samples.noDecode
              (ObjectDetectionView.unmounted Samples.measured) Samples.staleOutline)
      with (ObjectDetectionView.maskStep Samples.noDecode
              (ObjectDetectionView.maskRun Samples.noDecode
                 (ObjectDetectionView.unmounted Samples.measured)
                 [ObjectDetectionView.ObjectsReplaced Samples.roomProps Samples.mounted;
                  ObjectDetectionView.ObjectsReplaced Samples.chairProps Samples.mounted;
                  ObjectDetectionView.OutlineSettled 1 0])
              (ObjectDetectionView.OutlineSettled 0 0)).
    rewrite Hcache. apply lookup_insert_eq.
  - apply Habsent.
    intros o [<- | [<- | [<- | []]]] Hmask; cbn; discriminate.
Defined.

(** A disabled selector ignores the press. *)
Lemma inert_pointer_events_example :
  BoundingBoxSelector.step Samples.disabledProps Samples.selectorIdle
    (BoundingBoxSelector.MouseDown Samples.mounted Samples.pressAt)
  = (Samples.selectorIdle, []).
Proof.
  exact (proj1 (proj1 (inert_pointer_events Samples.disabledProps
                         Samples.selectorIdle Samples.mounted Samples.pressAt)
                  eq_refl)).
Defined.

(** The 4000 x 2000 JPEG is kept as a smaller JPEG with the old name. *)
Lemma processImageFile_accepts_example :
  exists kept,
    ImageUtils.processImageFile Samples.uploadBrowser Samples.wideJpeg = inr kept
    /\ ImageUtils.file_size kept <= 10 * 1024 * 1024
    /\ String.prefix "image/" (ImageUtils.file_type Samples.wideJpeg) = true.
Proof.
  eexists. split; [reflexivity|].
  refine (let H := processImageFile_accepts Samples.uploadBrowser Samples.wideJpeg _ eq_refl
          in conj (proj1 H) (proj1 (proj2 H))).
Defined.

(** 4000 x 2000 under a limit of 1920. *)
Lemma newDimensions_idempotent_example :
  exists w h,
    ImageUtils.newDimensions (of_Z 4000) (of_Z 2000) (of_Z 1920) = (of_Z w, of_Z h)
    /\ w <= 1920 /\ h <= 1920
    /\ ImageUtils.newDimensions (of_Z w) (of_Z h) (of_Z 1920) = (of_Z w, of_Z h).
Proof.
  apply (newDimensions_idempotent 4000 2000 1920); lia.
Defined.

(** A click on the sofa with the room photo uploaded: one search request
    for 20 hits of its category, and the (empty) answer is shown. *)
Lemma handleObjectClick_search_example :
  exists form,
    snd (SearchInterface.handleObjectClick Samples.emptySearch Samples.searchPage
           Samples.sofa) = [form]
    /\ Api.field "top_k" form = [Api.NumberText (of_Z 20)]
    /\ Api.field "assigned_category" form = [Api.TextValue "sofa"]
    /\ SearchInterface.searchResults
         (fst (SearchInterface.handleObjectClick Samples.emptySearch
                 Samples.searchPage Samples.sofa)) = [].
Proof.
  destruct (proj2 (proj2 (proj2 (proj2
              (handleObjectClick_search Samples.emptySearch Samples.searchPage
                 Samples.sofa))))) as [_ Hposted].
  destruct (Hposted Samples.roomPng eq_refl)
    as (form & Hform & _ & Htop & Hcategory & Hanswer & _).
  exists form. split; [exact Hform|]. split; [exact Htop|]. split; [exact Hcategory|].
  apply (Hanswer _ eq_refl).
Defined.

(** A second click on the selected sofa deselects it and asks nothing. *)
Lemma regionClicked_requests_example :
  SearchInterface.regionClicked Samples.emptySearch
    (ObjectDetectionView.setClickedObjectId (Some 1) Samples.measured)
    Samples.searchPage Samples.sofa
  = (ObjectDetectionView.setClickedObjectId None
       (ObjectDetectionView.setClickedObjectId (Some 1) Samples.measured),
     Samples.searchPage, []).
Proof.
  exact (proj1 (regionClicked_requests Samples.emptySearch
                  (ObjectDetectionView.setClickedObjectId (Some 1) Samples.measured)
                  Samples.searchPage Samples.sofa) eq_refl).
Defined.

(** The text 42 parses, so the field shows no error, but it is not an
    object, so no attributes are sent. *)
Lemma attributes_error_and_value_example :
  CatalogManager.attributesError
    (CatalogManager.handleAttributesChange Samples.runtime "42" Samples.emptyForm) = None
  /\ CatalogManager.parseAttributes Samples.runtime
       (CatalogManager.handleAttributesChange Samples.runtime "42" Samples.emptyForm)
     = None.
Proof.
  exact (proj2 (proj2 (proj2 (proj2
           (attributes_error_and_value Samples.runtime "42" Samples.emptyForm))))
           (CatalogManager.JsonPrimitive "42") eq_refl eq_refl eq_refl).
Defined.

(** Submitting the filled form resets it and reports the stored ids. *)
Lemma handleSubmit_gate_example :
  fst (CatalogManager.handleSubmit Samples.runtime Samples.catalogBackend
         Samples.filledForm)
  = {| CatalogManager.skuId := ""; CatalogManager.category := "";
       CatalogManager.image := None; CatalogManager.preview := None;
       CatalogManager.attributesJson := ""; CatalogManager.attributesError := None;
       CatalogManager.loading := false;
       CatalogManager.success := Some ("SOFA-1"%string, "img-1"%string);
       CatalogManager.error := None |}.
Proof.
  exact (proj1 (proj2 (proj2 (proj2
           (handleSubmit_gate Samples.runtime Samples.catalogBackend
              Samples.filledForm))))
           {| CatalogManager.request_skuId := "SOFA-1";
              CatalogManager.request_category := "sofa";
              CatalogManager.request_image := Samples.roomPng;
              CatalogManager.request_attributes := None |}
           {| CatalogManager.sku_id := "SOFA-1";
              CatalogManager.image_id := "img-1";
              CatalogManager.upserted := true |}
           eq_refl eq_refl).
Defined.

(** The 1000 x 800 room photo is taken by the catalog form. *)
Lemma catalog_accepts_example :
  CatalogManager.image
    (CatalogManager.handleFileSelect Samples.uploadBrowser (Some Samples.roomPng)
       Samples.emptyForm) = Some Samples.roomPng.
Proof.
  apply (proj2 (proj1 (catalog_accepts Samples.uploadBrowser Samples.roomPng
                         1000 800 Samples.emptyForm eq_refl))).
  left. split; [reflexivity | lia].
Defined.

(** The sofa's box, drawn over the measured room photo (400 x 300 at
    offset (50, 20)), stays inside it.  The bound cannot do without its
    rounding error: the frame of the 3024-pixel-wide photo shown 195
    pixels wide at offset 14 ends right of [14 + 195]. *)
Lemma getDisplayBbox_inside_image_example :
  (exists X1 Y1 X2 Y2 Wd Hd,
     Rounded.DetectionView.getDisplayBbox Samples.roomProps Samples.mounted
       Samples.measured (bbox Samples.sofa)
     = Some (ObjectDetectionView.mkDisplay (Finite X1) (Finite Y1) (Finite X2)
               (Finite Y2) (Finite Wd) (Finite Hd))
     /\ (X1 <= X2)%Q /\ (Y1 <= Y2)%Q /\ (0 <= Wd)%Q /\ (0 <= Hd)%Q
     /\ (50 - (1 # 1048576) <= X1)%Q /\ (X2 <= 50 + 400 + (1 # 1048576))%Q
     /\ (20 - (1 # 1048576) <= Y1)%Q /\ (Y2 <= 20 + 300 + (1 # 1048576))%Q)
  /\ (exists d,
        Rounded.DetectionView.getDisplayBbox Samples.phoneProps Samples.phoneRefs
          Samples.phoneView (Samples.box 0 0 3024 2016) = Some d
        /\ gtb (ObjectDetectionView.d_x2 d) (Finite (14 + 195)) = true).
Proof.
  split.
  - apply (getDisplayBbox_inside_image Samples.roomProps Samples.mounted
             Samples.measured Samples.imgRect Samples.containerRect
             400 300 50 20 800 600 100 200 700 500);
      try reflexivity; lra.
  - eexists. split; vm_compute; reflexivity.
Defined.

(** The pointer over the pillow maps to display (180, 150) and to
    original (360, 300), inside the 800 x 600 photo.  The display
    coordinate can exceed the display size by a rounding error: in the
    layout with fractional pixels it is 895.4000000000001 on an image
    895.4 wide. *)
Lemma getRelativeCoordinates_within_image_example :
  (exists dx dy X Y,
     BoundingBoxSelector.mkPos (of_Z 180) (of_Z 150) (of_Z 360) (of_Z 300)
     = BoundingBoxSelector.mkPos (Finite dx) (Finite dy) (of_Z X) (of_Z Y)
     /\ (0 <= dx <= 400 + (1 # 1073741824))%Q
     /\ (0 <= dy <= 300 + (1 # 1073741824))%Q
     /\ 0 <= X <= 800 /\ 0 <= Y <= 600)
  /\ (exists pos,
        Rounded.BoxSelector.getRelativeCoordinates Samples.fractionalRefs
          Samples.phoneSelector Samples.fractionalPointer = Some pos
        /\ gtb (BoundingBoxSelector.x pos) (Binary64.literal (8954 # 10)) = true).
Proof.
  split.
  - apply (getRelativeCoordinates_within_image Samples.selectorIdle
             (BoundingBoxSelector.mkPos (of_Z 180) (of_Z 150) (of_Z 360) (of_Z 300))
             10 10 500 340 60 30 400 300 240 180 800 600);
      try reflexivity; try lia; lra.
  - eexists. split; vm_compute; reflexivity.
Defined.

(** From 40 bytes to 17: the exact percentage is 57.5, the doubles give
    57.49999999999999 and the result is 57. *)
Lemma calculateReduction_range_example :
  ((exists percent : Z,
      Rounded.calculateReduction (of_Z 40) (of_Z 17) = of_Z percent
      /\ 0 <= percent <= 100
      /\ ((inject_Z 40 - inject_Z 17) / inject_Z 40 * 100 - (1 # 2) - (1 # 1000)
          <= inject_Z percent
          <= (inject_Z 40 - inject_Z 17) / inject_Z 40 * 100 + (1 # 2) + (1 # 1000))%Q)
   /\ Rounded.calculateReduction (of_Z 40) (of_Z 40) = of_Z 0
   /\ Rounded.calculateReduction (of_Z 40) (of_Z 0) = of_Z 100
   /\ Rounded.calculateReduction (of_Z 0) (of_Z 17) = NegInf)
  /\ Rounded.calculateReduction (of_Z 40) (of_Z 17) = of_Z 57
  /\ ((inject_Z 40 - inject_Z 17) / inject_Z 40 * 100 == 115 # 2)%Q.
Proof.
  split; [apply (calculateReduction_range 40 17); lia|].
  split; [vm_compute; reflexivity | reflexivity].
Defined.

End FurtherExamples.
